(** * GEPA gridded methane inventory, source category 2C2 (ferroalloy production)

    A shallow embedding of [gch4i/utils.py] and of the allocation, gridding
    and checking steps of [gch4i/sector_code/2C2_ferroalloy_production.py],
    followed by the properties of the specification.

    Numbers.  The Python code computes on IEEE binary64 values.  They are
    embedded twice.  In the tables and their checks, of which the
    properties below say which rows there are and which operation gives each
    value, a number is a [float64]: an exact rational, or one of the three
    special values that the code can produce and test for, NaN and the two
    infinities, with their IEEE arithmetic; rounding, overflow and the sign of
    zero are left out there.  Where a property depends on the value that is
    computed (the allocation, the conversion factor, the rasterisation and
    the gap between the state totals and the gridded mass), the code is
    embedded in [B64] on the binary64 values themselves, the primitive floats
    of the kernel, and the property is a property of these. *)

From Stdlib Require Import Floats.
From Stdlib Require Import QArith Qcanon Qround Ascii String.
From stdpp Require Import base numbers list strings pretty gmap sorting.

Open Scope Qc_scope.

(** ** Numbers *)

Inductive float64 : Type :=
| Fin (q : Qc)
| PInf
| NInf
| NaN.

#[global] Instance float64_eq_dec : EqDecision float64.
Proof. solve_decision. Defined.

#[global] Instance float64_inhabited : Inhabited float64 := populate (Fin 0).

(** Decimal literal [m * 10^(-e)], as written in the Python sources. *)
Definition dec (m : Z) (e : N) : Qc := Q2Qc (m # Z.to_pos (10 ^ Z.of_N e)).

(** The sign of [q], as the comparison of 0 with [q]: [Lt] when [q] is
    positive, [Gt] when it is negative. *)
Definition Qc_sgn (q : Qc) : comparison := (0 ?= q)%Qc.

Definition isnan (x : float64) : bool :=
  match x with NaN => true | _ => false end.

Definition fneg (x : float64) : float64 :=
  match x with
  | Fin q => Fin (- q)
  | PInf => NInf
  | NInf => PInf
  | NaN => NaN
  end.

(** [x + y] on binary64. *)
Definition fadd (x y : float64) : float64 :=
  match x, y with
  | NaN, _ | _, NaN => NaN
  | Fin a, Fin b => Fin (a + b)
  | PInf, NInf | NInf, PInf => NaN
  | PInf, _ | _, PInf => PInf
  | NInf, _ | _, NInf => NInf
  end.

Definition fsub (x y : float64) : float64 := fadd x (fneg y).

(** An infinity with the sign of [s] times the sign of the infinity [inf];
    NaN when [s] is zero. *)
Definition inf_signed (s : comparison) (inf : float64) : float64 :=
  match s with
  | Lt => inf
  | Gt => fneg inf
  | Eq => NaN
  end.

(** [x * y] on binary64. *)
Definition fmul (x y : float64) : float64 :=
  match x, y with
  | NaN, _ | _, NaN => NaN
  | Fin a, Fin b => Fin (a * b)
  | Fin a, (PInf | NInf) => inf_signed (Qc_sgn a) y
  | (PInf | NInf), Fin b => inf_signed (Qc_sgn b) x
  | PInf, PInf | NInf, NInf => PInf
  | PInf, NInf | NInf, PInf => NInf
  end.

(** [x / y] as numpy divides arrays: a zero divisor does not raise, it gives
    an infinity, or NaN for [0 / 0]. *)
Definition fdiv (x y : float64) : float64 :=
  match x, y with
  | NaN, _ | _, NaN => NaN
  | Fin a, Fin b =>
      if decide (b = 0) then inf_signed (Qc_sgn a) PInf else Fin (a / b)
  | Fin _, (PInf | NInf) => Fin 0
  | (PInf | NInf), Fin b =>
      match Qc_sgn b with
      | Gt => fneg x
      | _ => x
      end
  | (PInf | NInf), (PInf | NInf) => NaN
  end.

Definition fabs (x : float64) : float64 :=
  match x with
  | Fin q => Fin (if decide (q < 0) then - q else q)
  | PInf | NInf => PInf
  | NaN => NaN
  end.

(** [x <= y] on binary64; every comparison with NaN is false. *)
Definition fle (x y : float64) : bool :=
  match x, y with
  | NaN, _ | _, NaN => false
  | Fin a, Fin b => bool_decide (a ≤ b)
  | NInf, _ | _, PInf => true
  | _, _ => false
  end.

(** [np.isclose(a, b, rtol, atol)], with [equal_nan=False]:
    [|a - b| <= atol + rtol * |b|] on finite values, equality on infinities. *)
Definition isclose_tol (rtol atol : Qc) (a b : float64) : bool :=
  match a, b with
  | Fin _, Fin _ => fle (fabs (fsub a b)) (fadd (Fin atol) (fmul (Fin rtol) (fabs b)))
  | PInf, PInf | NInf, NInf => true
  | _, _ => false
  end.

(** [np.isclose] with its default tolerances [rtol=1e-05], [atol=1e-08]. *)
Definition isclose : float64 → float64 → bool :=
  isclose_tol (dec 1 5) (dec 1 8).

(** ** Exceptions *)

Inductive exn : Type :=
| IndexError
| ZeroDivisionError
| ValueError
| OverflowError.

Inductive result (A : Type) : Type :=
| Ok (a : A)
| Raise (e : exn).
Arguments Ok {A} a.
Arguments Raise {A} e.

#[global] Instance exn_eq_dec : EqDecision exn.
Proof. solve_decision. Defined.

#[global] Instance result_eq_dec {A} `{EqDecision A} : EqDecision (result A).
Proof. solve_decision. Defined.

#[global] Instance result_ret : MRet result := λ A a, Ok a.

#[global] Instance result_bind : MBind result := λ A B k r,
  match r with
  | Ok a => k a
  | Raise e => Raise e
  end.

#[global] Instance result_fmap : FMap result := λ A B f r,
  match r with
  | Ok a => Ok (f a)
  | Raise e => Raise e
  end.

(** ** pandas Series of binary64 values *)

(** A Series, as [groupby(...)[col].transform] hands it to its function: the
    values of one group, and the group key as [name]. *)
Record Series : Type := mkSeries {
  name : string * Z;
  values : list float64
}.

(** [Series.fillna(v)] on one element. *)
Definition fillna (v x : float64) : float64 :=
  if isnan x then v else x.

(** [Series.sum()]: pandas skips NaN ([skipna=True]), the empty sum is 0. *)
Definition Series_sum (l : list float64) : float64 :=
  fold_left fadd (fillna (Fin 0) <$> l) (Fin 0).

(** [ndarray.sum()]: numpy does not skip NaN. *)
Definition np_sum (l : list float64) : float64 :=
  fold_left fadd l (Fin 0).

(** [Series.iat[0]]: the first element, [IndexError] on an empty Series. *)
Definition iat0 {A} (l : list A) : result A :=
  match l with
  | [] => Raise IndexError
  | x :: _ => Ok x
  end.

(** ** gch4i/utils.py *)

(** [tg_to_kt = 1000], conversion factor, teragrams to kilotonnes. *)
Definition tg_to_kt : Qc := Qc_of_Z 1000.

(** A 2D array, as a list of rows. *)
Abbreviation array2 := (list (list float64)).

(** An operation applied to every element of a 2D array. *)
Definition array_map {A B : Type} (f : A → B) (a : list (list A))
    : list (list B) :=
  (λ row : list A, f <$> row) <$> a.

(** The element at row [r], column [c] of a 2D array. *)
Definition cell {A : Type} (a : list (list A)) (r c : nat) : option A :=
  a !! r ≫= λ row, row !! c.

(** An array of [shape.1] rows of [shape.2] elements. *)
Definition has_shape {A : Type} (shape : nat * nat) (a : list (list A))
    : Prop :=
  length a = shape.1 ∧ Forall (λ row, length row = shape.2) a.

#[global] Instance has_shape_dec {A : Type} shape (a : list (list A))
  : Decision (has_shape shape a).
Proof. unfold has_shape. apply _. Defined.

(** The shape of a 2D array: its number of rows and the length of its first
    row (0 for an array without rows). *)
Definition array_shape (a : array2) : nat * nat :=
  (length a, from_option length 0%nat (head a)).

(** [np.stack(arrays)]: the arrays along a new first axis.  It raises
    [ValueError] on an empty list, and when the arrays do not all have the
    same shape. *)
Definition np_stack (arrays : list array2) : result (list array2) :=
  match arrays with
  | [] => Raise ValueError
  | a :: _ =>
      if decide (Forall (has_shape (array_shape a)) arrays) then Ok arrays
      else Raise ValueError
  end.

(** A value of a rasterio profile: an integer, as [count], [width] and
    [height] are, or something else ([driver], [dtype], [crs], ...). *)
Inductive profile_value (A : Type) : Type :=
| profile_int (n : Z)
| profile_other (a : A).
Arguments profile_int {A} n.
Arguments profile_other {A} a.

(** What [write_tif_output] opens and writes: the profile of the dataset, the
    array handed to [dst.write], and the band descriptions. *)
Record GTiff (A : Type) : Type := mkGTiff {
  profile : gmap string (profile_value A);
  bands : list array2;
  descriptions : list string
}.
Arguments mkGTiff {A}.
Arguments profile {A}.
Arguments bands {A}.
Arguments descriptions {A}.

Section write_tif_output.

(** [GEPA_PROFILE] comes from [gch4i.gridding]. *)
Context {A : Type}.
Variable GEPA_PROFILE : gmap string (profile_value A).

(** [write_tif_output(in_dict, dst_path)]: the arrays of the dictionary are
    stacked, the profile is a copy of [GEPA_PROFILE] with [count] set to the
    number of arrays, and the descriptions of the bands are the keys, as
    strings.  A dictionary is the list of its items, in insertion order; the
    value is what is written to the file. *)
Definition write_tif_output (in_dict : list (Z * array2)) : result (GTiff A) :=
  out_array ← np_stack (snd <$> in_dict);
  let dst_profile :=
    <["count" := profile_int (Z.of_nat (length out_array))]> GEPA_PROFILE in
  Ok {| profile := dst_profile;
        bands := out_array;
        descriptions := (λ x : Z, pretty x) <$> (fst <$> in_dict) |}.

End write_tif_output.

(** The DataArray that [write_ncdf_output] builds and writes: its dimensions,
    time coordinate, data, attributes, and what the [rio] accessor records. *)
Record DataArray (crs_t transform_t : Type) : Type := mkDataArray {
  dims : list string;
  time : list Z;
  lat : list Qc;
  lon : list Qc;
  data : list array2;
  attrs : gmap string string;
  crs : crs_t;
  transform : transform_t;
  x_dim : string;
  y_dim : string;
  encoded_nodata : float64
}.
Arguments mkDataArray {_ _}.
Arguments dims {_ _}.
Arguments time {_ _}.
Arguments lat {_ _}.
Arguments lon {_ _}.
Arguments data {_ _}.
Arguments attrs {_ _}.
Arguments crs {_ _}.
Arguments transform {_ _}.
Arguments x_dim {_ _}.
Arguments y_dim {_ _}.
Arguments encoded_nodata {_ _}.

(** [min(l)] and [max(l)] of a non-empty list of integers. *)
Definition list_min (l : list Z) : result Z :=
  match l with
  | [] => Raise ValueError
  | x :: l' => Ok (foldr Z.min x l')
  end.

Definition list_max (l : list Z) : result Z :=
  match l with
  | [] => Raise ValueError
  | x :: l' => Ok (foldr Z.max x l')
  end.

Section write_ncdf_output.

(** [GEPA_PROFILE["crs"]], [GEPA_PROFILE["transform"]] and the coordinates
    [x] and [y] of the grid come from [gch4i.gridding], which is not among
    the sources. *)
Context {crs_t transform_t : Type}.
Variable GEPA_PROFILE_crs : crs_t.
Variable GEPA_PROFILE_transform : transform_t.
Variable y x : list Qc.

(** [write_ncdf_output(raster_dict, dst_path, description, title, units)];
    the value is the DataArray handed to [to_netcdf].  A dictionary is the
    list of its items, in insertion order.  [np.stack] raises on an empty
    list of arrays, and the DataArray needs every array to have as many rows
    as [y] and as many columns as [x]. *)
Definition write_ncdf_output (raster_dict : list (Z * array2))
    (description title : string) (units : string)
    : result (DataArray crs_t transform_t) :=
  let year_list := fst <$> raster_dict in
  array_stack ← (if decide (raster_dict = []) then Raise ValueError
                 else Ok (snd <$> raster_dict));
  _ ← (if decide (Forall (has_shape (length y, length x)) array_stack)
       then Ok () else Raise ValueError);
  lo ← list_min year_list;
  hi ← list_max year_list;
  Ok {| dims := ["time"; "lat"; "lon"];
        time := year_list;
        lat := y;
        lon := x;
        data := array_stack;
        attrs := <["title" := title]>
                 (<["description" := description]>
                 (<["year" := pretty lo +:+ "-" +:+ pretty hi]>
                 (<["units" := units]> ∅)));
        crs := GEPA_PROFILE_crs;
        transform := GEPA_PROFILE_transform;
        x_dim := "lon";
        y_dim := "lat";
        encoded_nodata := Fin 0 |}.

(** The default of the keyword argument [units]. *)
Definition default_units : string := "moleccm-2s-1".

End write_ncdf_output.

(** Characters are ASCII: on them [str.casefold] is lower-casing, and the
    regular expression classes are the ones below. *)

(** [str.casefold] on one character. *)
Definition casefold_ascii (c : ascii) : ascii :=
  let n := nat_of_ascii c in
  if bool_decide (65 ≤ n ≤ 90)%nat then ascii_of_nat (n + 32) else c.

Definition casefold (s : string) : string :=
  string_of_list_ascii (casefold_ascii <$> list_ascii_of_string s).

(** The class [\s] on ASCII: tab, line feed, vertical tab, form feed, carriage
    return, the separators 28 to 31, and space. *)
Definition re_space (c : ascii) : bool :=
  let n := nat_of_ascii c in
  bool_decide (9 ≤ n ≤ 13 ∨ 28 ≤ n ≤ 32)%nat.

(** The class [[^a-zA-Z0-9 -]]. *)
Definition re_not_alnum_space_hyphen (c : ascii) : bool :=
  let n := nat_of_ascii c in
  negb (bool_decide (97 ≤ n ≤ 122 ∨ 65 ≤ n ≤ 90 ∨ 48 ≤ n ≤ 57
                     ∨ n = 32 ∨ n = 45)%nat).

(** [re.sub] for a pattern [C+], [C] a character class: every maximal run of
    characters of the class is replaced by [repl]. *)
Fixpoint re_sub_plus (cls : ascii → bool) (repl : list ascii) (in_run : bool)
    (s : list ascii) : list ascii :=
  match s with
  | [] => []
  | c :: s' =>
      if cls c then
        (if in_run then [] else repl) ++ re_sub_plus cls repl true s'
      else c :: re_sub_plus cls repl false s'
  end.

(** [re.sub] for a pattern [C], a single character class: every character of
    the class is replaced by [repl]. *)
Definition re_sub_class (cls : ascii → bool) (repl : list ascii)
    (s : list ascii) : list ascii :=
  s ≫= λ c, if cls c then repl else [c].

(** [Series.str.replace(pat, repl, regex=True)] on one element, for [\s+]. *)
Definition str_replace_spaces (s : string) : string :=
  string_of_list_ascii
    (re_sub_plus re_space (list_ascii_of_string " ") false (list_ascii_of_string s)).

(** [Series.replace(pat, value, regex=True)] on one element: with a string
    [value], pandas substitutes every match inside the element ([rx.sub]);
    it does not compare the pattern with the whole element. *)
Definition Series_replace_regex (cls : ascii → bool) (value : string)
    (s : string) : string :=
  string_of_list_ascii
    (re_sub_class cls (list_ascii_of_string value) (list_ascii_of_string s)).

(** [name_formatter(col)]:
    [col.str.casefold().str.replace("\s+", " ", regex=True)
        .replace("[^a-zA-Z0-9 -]", "", regex=True)]. *)
Definition name_formatter (col : list string) : list string :=
  Series_replace_regex re_not_alnum_space_hyphen ""
    <$> (str_replace_spaces <$> (casefold <$> col)).

(** ** gch4i/sector_code/2C2_ferroalloy_production.py *)

Definition IPCC_ID : string := "2C2".
Definition SECTOR_NAME : string := "industry".
Definition SOURCE_NAME : string := "ferroalloy production".

(** [netcdf_title = f"EPA methane emissions from {SOURCE_NAME}"]. *)
Definition netcdf_title : string :=
  "EPA methane emissions from " +:+ SOURCE_NAME.

(** [netcdf_description = f"Gridded EPA Inventory - {SECTOR_NAME} - "
    f"{SOURCE_NAME} - IPCC Source Category {IPCC_ID}"]. *)
Definition netcdf_description : string :=
  "Gridded EPA Inventory - " +:+ SECTOR_NAME +:+ " - " +:+ SOURCE_NAME
  +:+ " - IPCC Source Category " +:+ IPCC_ID.

(** A row of [EPA_ferro_emissions], the state inventory table. *)
Module Inventory.
Record row : Type := mk {
  state_code : string;
  year : Z;
  ch4_kt : float64
}.
Definition key (r : row) : string * Z := (state_code r, year r).
End Inventory.

(** A point geometry [(x, y)] = (longitude, latitude). *)
Definition point : Type := Qc * Qc.

(** A row of [ferro_facilities_gdf].  [geometry] is [None] for the empty point
    that [points_from_xy] builds from missing coordinates. *)
Module Facility.
Record row : Type := mk {
  state_code : string;
  year : Z;
  ch4_kt : float64;
  geometry : option point
}.
Definition key (r : row) : string * Z := (state_code r, year r).
End Facility.

(** *** The inventory table *)

(** [df.melt(id_vars, var_name, value_name)] on a wide table whose value
    columns are named [columns]: the long table has, for every value column
    in turn, one row per row of the wide table.  A row of the wide table is
    its identifier and its values, one per column; a value that is absent is
    NaN. *)
Definition melt {I : Type} (columns : list Z) (df : list (I * list float64))
    : list (I * Z * float64) :=
  '(j, var) ← imap pair columns;
  (λ r : I * list float64, (r.1, var, default NaN (r.2 !! j))) <$> df.

(** The sheet "InvDB" of the state inventory workbook, after the columns that
    the script does not need are dropped: the state, the gas, and one cell
    per year column.  A cell holds a number (NaN when it is empty), or a text
    that is not a number, such as "NO". *)
Module InvDB.
Inductive cell : Type :=
| Number (v : float64)
| Text (s : string).
Record row : Type := mk {
  state : string;
  ghg : string;
  cells : list cell
}.
End InvDB.

(** [pd.to_numeric(errors="coerce")] on one cell. *)
Definition to_numeric_coerce (c : InvDB.cell) : float64 :=
  match c with
  | InvDB.Number v => v
  | InvDB.Text _ => NaN
  end.

Section inventory.

(** [min_year] and [max_year] come from [gch4i.config]. *)
Variable min_year max_year : Z.

(** [year.between(@min_year, @max_year)], both ends included. *)
Definition between (year : Z) : Prop := (min_year ≤ year ≤ max_year)%Z.

#[global] Instance between_dec year : Decision (between year).
Proof. unfold between. apply _. Defined.

(** Lines 138-183: [EPA_ferro_emissions], from the year columns [columns]
    of the sheet (a column is named by its year) and its rows.  The steps
    that rename or drop columns, set and reset the index, or cast a column
    leave the rows as they are. *)
Definition EPA_ferro_emissions (columns : list Z) (sheet : list InvDB.row)
    : list Inventory.row :=
  (* .query("ghg == 'CH4'") *)
  let ch4 := filter (λ r, InvDB.ghg r = "CH4") sheet in
  (* .set_index("state_code").apply(pd.to_numeric, errors="coerce") *)
  let numeric :=
    (λ r, (InvDB.state r,
           (λ j, default NaN (to_numeric_coerce <$> InvDB.cells r !! j))
             <$> seq 0 (length columns))) <$> ch4 in
  (* .dropna(how="all") *)
  let some_value :=
    filter (λ r : string * list float64,
              Exists (λ v, isnan v = false) r.2) numeric in
  (* .melt(id_vars="state_code", var_name="year", value_name="ch4_tg") *)
  let long := melt columns some_value in
  (* .assign(ch4_kt=lambda df: df["ch4_tg"] * tg_to_kt).fillna({"ch4_kt": 0}) *)
  let kt :=
    (λ r : string * Z * float64,
       Inventory.mk r.1.1 r.1.2 (fillna (Fin 0) (fmul r.2 (Fin tg_to_kt))))
      <$> long in
  (* .query("year.between(@min_year, @max_year)") *)
  filter (λ r, between (Inventory.year r)) kt.

End inventory.

(** *** The facility table and the facility locations *)

(** [DataFrame.drop_duplicates(subset)]: of the rows that agree on the
    columns [subset], the first one is kept. *)
Fixpoint drop_duplicates {A K : Type} `{EqDecision K} (subset : A → K)
    (df : list A) : list A :=
  match df with
  | [] => []
  | r :: df' =>
      r :: filter (λ r', subset r' ≠ subset r) (drop_duplicates subset df')
  end.

(** A row of the states layer: [NAME], [STATEFP] and [STUSPS]. *)
Module State.
Record row : Type := mk {
  state_name : string;
  statefp : Z;
  state_code : string
}.
End State.

(** Lines 214-223: [state_gdf], "only lower 48 + DC":
    [(statefp < 60) & (statefp != 2) & (statefp != 15)]. *)
Definition state_gdf (tl_2020_us_state : list State.row) : list State.row :=
  filter (λ s, (State.statefp s < 60)%Z ∧ State.statefp s ≠ 2%Z
               ∧ State.statefp s ≠ 15%Z) tl_2020_us_state.

(** A row of the facility table of the sheet "Ferroalloy Calculations": the
    facility, its state, and one value per year column. *)
Module Calculations.
Record row : Type := mk {
  facility : string;
  state : string;
  values : list float64
}.
End Calculations.

(** A row of [ferro_facilities_df]. *)
Module FacilityDf.
Record row : Type := mk {
  facility_name : string;
  state_name : string;
  year : Z;
  ch4_kt : float64;
  formatted_fac_name : string;
  state_code : string
}.
Definition key (r : row) : string * string :=
  (formatted_fac_name r, state_code r).
End FacilityDf.

Section facilities.

Variable min_year max_year : Z.

(** Lines 233-249: [ferro_facilities_df]. *)
Definition ferro_facilities_df (columns : list Z)
    (sheet : list Calculations.row) (state_gdf : list State.row)
    : list FacilityDf.row :=
  (* .melt(id_vars=["facility_name", "state_name"], var_name="year",
           value_name="ch4_kt") *)
  let long :=
    melt columns
      ((λ r, ((Calculations.facility r, Calculations.state r),
              Calculations.values r)) <$> sheet) in
  (* .assign(formatted_fac_name=lambda df: name_formatter(df["facility_name"])) *)
  let formatted_fac_name :=
    name_formatter ((λ r : string * string * Z * float64, r.1.1.1) <$> long) in
  (* .merge(state_gdf[["state_code", "state_name"]], on="state_name") *)
  let merged :=
    '(r, formatted) ← zip long formatted_fac_name;
    (λ s, FacilityDf.mk r.1.1.1 r.1.1.2 r.1.2 r.2 formatted (State.state_code s))
      <$> filter (λ s, State.state_name s = r.1.1.2) state_gdf in
  (* .query("year.between(@min_year, @max_year)") *)
  filter (λ r, between min_year max_year (FacilityDf.year r)) merged.

End facilities.

(** Lines 251-255: [unique_facilities]. *)
Definition unique_facilities (ferro_facilities_df : list FacilityDf.row)
    : list (string * string) :=
  drop_duplicates id (FacilityDf.key <$> ferro_facilities_df).

(** A row of the facility location data (FRS, subpart K): the name, the state
    code, and the coordinates, NaN where they are missing. *)
Module Location.
Record row : Type := mk {
  facility_name : string;
  state_code : string;
  latitude : float64;
  longitude : float64
}.
Definition key (r : row) : string * string := (facility_name r, state_code r).
End Location.

(** [.dropna(subset=["latitude", "longitude"])]. *)
Definition dropna_coordinates (df : list Location.row) : list Location.row :=
  filter (λ r, isnan (Location.latitude r) = false
               ∧ isnan (Location.longitude r) = false) df.

(** Lines 282-288: [frs_df]. *)
Definition frs_df (frs_raw : list Location.row) : list Location.row :=
  dropna_coordinates (drop_duplicates Location.key frs_raw).

(** Lines 290-298: [subpart_k_df]. *)
Definition subpart_k_df (subpart_k_raw : list Location.row) : list Location.row :=
  dropna_coordinates (drop_duplicates Location.key subpart_k_raw).

(** Lines 301-305: [facility_locations]; a row is a location with its
    formatted name. *)
Definition facility_locations (subpart_k_df frs_df : list Location.row)
    : list (Location.row * string) :=
  let df := subpart_k_df ++ frs_df in
  let formatted_fac_name := name_formatter (Location.facility_name <$> df) in
  drop_duplicates
    (λ rn : Location.row * string, (rn.2, Location.state_code rn.1))
    (zip df formatted_fac_name).

(** A row of [matching_facilities]: a unique facility with the name and the
    coordinates of its location, absent and NaN when no location matches. *)
Module Matching.
Record row : Type := mk {
  formatted_fac_name : string;
  state_code : string;
  facility_name : option string;
  latitude : float64;
  longitude : float64
}.
Definition key (r : row) : string * string :=
  (formatted_fac_name r, state_code r).
End Matching.

(** Lines 310-312: [unique_facilities.merge(facility_locations,
    on=["formatted_fac_name", "state_code"], how="left")]. *)
Definition matching_facilities (unique_facilities : list (string * string))
    (facility_locations : list (Location.row * string)) : list Matching.row :=
  k ← unique_facilities;
  match filter (λ rn : Location.row * string,
                  (rn.2, Location.state_code rn.1) = k) facility_locations with
  | [] => [Matching.mk k.1 k.2 None NaN NaN]
  | rs =>
      (λ rn : Location.row * string,
         Matching.mk k.1 k.2 (Some (Location.facility_name rn.1))
           (Location.latitude rn.1) (Location.longitude rn.1)) <$> rs
  end.

(** [gpd.points_from_xy(x, y)] on one pair of coordinates, which are finite
    numbers or missing: the empty point where a coordinate is missing. *)
Definition points_from_xy (x y : float64) : option point :=
  match x, y with
  | Fin x, Fin y => Some (x, y)
  | _, _ => None
  end.

(** Lines 395-405: [ferro_facilities_gdf], a left merge of the facility table
    with the matched locations, and the point of every row. *)
Definition ferro_facilities_gdf (ferro_facilities_df : list FacilityDf.row)
    (matching_facilities : list Matching.row)
    : list (FacilityDf.row * option point) :=
  r ← ferro_facilities_df;
  match filter (λ m, Matching.key m = FacilityDf.key r) matching_facilities with
  | [] => [(r, points_from_xy NaN NaN)]
  | ms =>
      (λ m, (r, points_from_xy (Matching.longitude m) (Matching.latitude m)))
        <$> ms
  end.

(** The columns of a row of [ferro_facilities_gdf] that the allocation and
    the gridding use. *)
Definition facility_row (rg : FacilityDf.row * option point) : Facility.row :=
  Facility.mk (FacilityDf.state_code rg.1) (FacilityDf.year rg.1)
    (FacilityDf.ch4_kt rg.1) rg.2.

(** *** Allocation, checks and gridding *)

(** Lines 467-469: [((fac_emissions / fac_emissions.sum()) * emi_sum).fillna(0)]. *)
Definition allocated_fac_emissions (fac_emissions : list float64)
    (emi_sum : float64) : list float64 :=
  fillna (Fin 0)
    <$> ((λ v, fmul v emi_sum)
    <$> ((λ v, fdiv v (Series_sum fac_emissions)) <$> fac_emissions)).

(** [state_year_allocation_emissions(fac_emissions, inventory_df)]. *)
Definition state_year_allocation_emissions (fac_emissions : Series)
    (inventory_df : list Inventory.row) : result (list float64) :=
  let '(state, year) := name fac_emissions in
  emi_sum ← iat0 (Inventory.ch4_kt <$>
                    filter (λ r, Inventory.state_code r = state
                                 ∧ Inventory.year r = year) inventory_df);
  Ok (allocated_fac_emissions (values fac_emissions) emi_sum).

(** [df.groupby(["state_code", "year"])["ch4_kt"].transform(func)]: [func] is
    applied to the column of every group, and each row receives the element
    of its group's result at the row's rank in the group.  An exception of
    [func] is an exception of [transform]. *)
Definition groupby_transform (func : Series → result (list float64))
    (df : list Facility.row) : result (list float64) :=
  mapM (λ ir : nat * Facility.row,
          let k := Facility.key ir.2 in
          let same_group := λ r, Facility.key r = k in
          out ← func (mkSeries k (Facility.ch4_kt <$> filter same_group df));
          from_option Ok (Raise ValueError)
            (out !! length (filter same_group (take ir.1 df))))
       (imap pair df).

(** The column [ferro_facilities_gdf["allocated_ch4_kt"]] (lines 476-478). *)
Definition allocated_ch4_kt (ferro_facilities_gdf : list Facility.row)
    (EPA_ferro_emissions : list Inventory.row) : result (list float64) :=
  groupby_transform
    (λ fac_emissions,
       state_year_allocation_emissions fac_emissions EPA_ferro_emissions)
    ferro_facilities_gdf.

(** A row of [sum_check]: an outer merge leaves NaN where a side is absent. *)
Record sum_check_row : Type := mk_sum_check_row {
  sc_key : string * Z;
  sc_allocated_ch4_kt : float64;
  sc_ch4_kt : float64;
  check_diff : bool
}.

(** Lines 483-493.  [gdf] pairs every facility row with its allocated value.
    The groups are listed in order of first appearance (pandas sorts them by
    key; only sums over the rows are taken below). *)
Definition sum_check (gdf : list (Facility.row * float64))
    (EPA_ferro_emissions : list Inventory.row) : list sum_check_row :=
  let keys := remove_dups ((λ ra, Facility.key ra.1) <$> gdf) in
  let grouped :=
    (λ k, (k, Series_sum (snd <$> filter (λ ra, Facility.key ra.1 = k) gdf)))
      <$> keys in
  let row k a t := mk_sum_check_row k a t (isclose a t) in
  (grouped ≫= λ '(k, a),
     match filter (λ r, Inventory.key r = k) EPA_ferro_emissions with
     | [] => [row k a NaN]
     | rs => (λ r, row k a (Inventory.ch4_kt r)) <$> rs
     end)
  ++ ((λ r, row (Inventory.key r) NaN (Inventory.ch4_kt r))
        <$> filter (λ r, Inventory.key r ∉ keys) EPA_ferro_emissions).

(** [rasterio.enums.MergeAlg]. *)
Inductive MergeAlg : Type :=
| replace
| add.

(** Days of the months of [year], [calendar.monthrange(year, x)[1]]. *)
Definition isleap (year : Z) : bool :=
  bool_decide (year mod 4 = 0 ∧ (year mod 100 ≠ 0 ∨ year mod 400 = 0))%Z.

Definition month_days (year : Z) : list Z :=
  [31; if isleap year then 29 else 28; 31; 30; 31; 30; 31; 31; 30; 31; 30; 31]%Z.

(** [np.sum(month_days)] (line 520). *)
Definition year_days (year : Z) : Z := foldr Z.add 0%Z (month_days year).

Section gridding.

(** [ARR_SHAPE = (height, width)] and the cell of a point under
    [GEPA_PROFILE["transform"]] (row and column, the floor of the inverse
    affine map) come from [gch4i.gridding], which is not among the sources. *)
Variable ARR_SHAPE : nat * nat.
Variable cell_index : point → Z * Z.

Definition in_grid (rc : Z * Z) : Prop :=
  (0 ≤ rc.1 < Z.of_nat ARR_SHAPE.1 ∧ 0 ≤ rc.2 < Z.of_nat ARR_SHAPE.2)%Z.

#[global] Instance in_grid_dec rc : Decision (in_grid rc).
Proof. unfold in_grid. apply _. Defined.

(** What a burnt value does to the cell it falls in. *)
Definition merge (merge_alg : MergeAlg) (value old : float64) : float64 :=
  match merge_alg with
  | replace => value
  | add => fadd old value
  end.

(** One shape burnt into the output: the value goes to the cell that contains
    the point.  A point outside the grid leaves the output as it is. *)
Definition burn (merge_alg : MergeAlg) (out : array2)
    (shape : point * float64) : array2 :=
  let rc := cell_index shape.1 in
  if decide (in_grid rc)
  then alter (alter (merge merge_alg shape.2) (Z.to_nat rc.2))
             (Z.to_nat rc.1) out
  else out.

(** [rasterio.features.rasterize(shapes, out_shape=ARR_SHAPE, fill,
    transform=GEPA_PROFILE["transform"], dtype=np.float64, merge_alg)] on
    point geometries.  The shapes are first collected, one by one, through
    their [__geo_interface__]; with shapely 2.0 the interface of a point
    reads [coords[0]], so that the empty point raises [IndexError] and the
    call ends there (rasterio 1.4 skips such a shape instead).  Then "an
    exception will be raised if there are no valid shapes to rasterize";
    the output starts as [fill] everywhere, and the shapes are burnt in
    order. *)
Definition rasterize (shapes : list (option point * float64))
    (fill : float64) (merge_alg : MergeAlg) : result array2 :=
  valid_shapes ← mapM (λ shape : option point * float64,
                         match shape.1 with
                         | Some p => Ok (p, shape.2)
                         | None => Raise IndexError
                         end) shapes;
  if decide (valid_shapes = []) then Raise ValueError
  else Ok (fold_left (burn merge_alg) valid_shapes
             (replicate ARR_SHAPE.1 (replicate ARR_SHAPE.2 fill))).

(** The years of [ferro_facilities_gdf.groupby("year")], ascending. *)
Definition groupby_years (gdf : list (Facility.row * float64)) : list Z :=
  merge_sort Z.le (remove_dups ((λ ra, Facility.year ra.1) <$> gdf)).

(** Lines 522-532: the raster of one year's rows. *)
Definition ch4_kt_raster (data : list (Facility.row * float64))
    : result array2 :=
  rasterize ((λ ra, (Facility.geometry ra.1, ra.2)) <$> data) (Fin 0) add.

Definition year_data (gdf : list (Facility.row * float64)) (year : Z)
    : list (Facility.row * float64) :=
  filter (λ ra, Facility.year ra.1 = year) gdf.

(** Lines 515-538: the dictionary [ch4_kt_result_rasters], as the list of its
    items in insertion order.  [gdf] pairs every facility row with its
    allocated value. *)
Definition ch4_kt_result_rasters (gdf : list (Facility.row * float64))
    : result (list (Z * array2)) :=
  mapM (λ year,
          raster ← ch4_kt_raster (year_data gdf year);
          Ok (year, raster))
       (groupby_years gdf).

(** Lines 551-553, for one [year] of the loop: the inventory totals of the
    rows of [sum_check] that fail the check. *)
Definition missing_sum (gdf : list (Facility.row * float64))
    (EPA_ferro_emissions : list Inventory.row) (year : Z) : float64 :=
  Series_sum (sc_ch4_kt
                <$> filter (λ x, negb (check_diff x) ∧ (sc_key x).2 = year)
                      (sum_check gdf EPA_ferro_emissions)).

End gridding.

Section netcdf.

Context {crs_t transform_t : Type}.
Variable GEPA_PROFILE_crs : crs_t.
Variable GEPA_PROFILE_transform : transform_t.
Variable y x : list Qc.

(** Lines 602-607: [write_ncdf_output(ch4_flux_result_rasters,
    ch4_flux_dst_path.with_suffix(".nc"), netcdf_title, netcdf_description)],
    the arguments by position. *)
Definition written_ncdf (ch4_flux_result_rasters : list (Z * array2))
    : result (DataArray crs_t transform_t) :=
  write_ncdf_output GEPA_PROFILE_crs GEPA_PROFILE_transform y x
    ch4_flux_result_rasters netcdf_title netcdf_description default_units.

End netcdf.

(** ** The computations on binary64

    The functions above whose result depends on the values computed, once
    more, on the binary64 values of the machine: the kernel's primitive
    floats, whose operations are the IEEE 754 operations (rounding to
    nearest, ties to even; overflow to an infinity; signed zeros) and which
    have a single NaN.  A literal denotes the binary64 value nearest to it,
    as in Python. *)

#[local] Set Warnings "-inexact-float".

#[global] Instance spec_float_eq_dec : EqDecision spec_float.
Proof. solve_decision. Defined.

#[global] Instance binary64_eq_dec : EqDecision PrimFloat.float.
Proof.
  intros x y. destruct (decide (Prim2SF x = Prim2SF y)) as [E|E].
  - left. by apply Prim2SF_inj.
  - right. congruence.
Defined.

Module B64.

#[local] Open Scope float_scope.

Abbreviation binary64 := PrimFloat.float.

(** A 2D array, as a list of rows. *)
Abbreviation array2 := (list (list binary64)).

(** [np.isnan], [Series.isna]. *)
Definition isnan (x : binary64) : bool := PrimFloat.is_nan x.

(** [float(n)] of a Python int, also where an int meets a float in an
    arithmetic operation: the binary64 value nearest to [n] (ties to even),
    and [OverflowError] when [n] is too large for a finite one. *)
Definition float_of_int (n : Z) : result binary64 :=
  match binary_normalize prec emax n 0 false with
  | S754_infinity _ => Raise OverflowError
  | x => Ok (SF2Prim x)
  end.

(** *** pandas Series of binary64 values *)

Record Series : Type := mkSeries {
  name : string * Z;
  values : list binary64
}.

(** [Series.fillna(v)] on one element. *)
Definition fillna (v x : binary64) : binary64 :=
  if isnan x then v else x.

(** [Series.sum()]: pandas skips NaN ([skipna=True]), the empty sum is 0.
    The values are added from the first to the last. *)
Definition Series_sum (l : list binary64) : binary64 :=
  fold_left PrimFloat.add (fillna 0 <$> l) 0.

(** [ndarray.sum()]: numpy does not skip NaN. *)
Definition np_sum (l : list binary64) : binary64 :=
  fold_left PrimFloat.add l 0.

(** *** gch4i/utils.py *)

(** [Avogadro = 6.02214129 * 10 ** (23)], molecules/mol: the float
    [6.02214129] times [float(10 ** 23)], which is the literal [1e23]. *)
Definition Avogadro : binary64 := 6.02214129 * 1e23.

(** [Molarch4 = 16.04], CH4 molecular weight (g/mol). *)
Definition Molarch4 : binary64 := 16.04.

(** [calc_conversion_factor(year_days, area_matrix)]:
    [10**9 * Avogadro / float(Molarch4 * year_days * 24 * 60 * 60) / area_matrix],
    the operations from left to right, every int converted to a float where
    it meets one.  The first division is between two Python floats and
    raises on a zero divisor; the second one is numpy's, element by
    element. *)
Definition calc_conversion_factor (year_days : Z) (area_matrix : array2)
    : result array2 :=
  days ← float_of_int year_days;
  let seconds := Molarch4 * days * 24 * 60 * 60 in
  if seconds =? 0 then Raise ZeroDivisionError
  else Ok (array_map (λ area, 1e9 * Avogadro / seconds / area) area_matrix).

(** *** gch4i/sector_code/2C2_ferroalloy_production.py *)

(** A row of [EPA_ferro_emissions], the state inventory table. *)
Module Inventory.
Record row : Type := mk {
  state_code : string;
  year : Z;
  ch4_kt : binary64
}.
Definition key (r : row) : string * Z := (state_code r, year r).
End Inventory.

(** A row of [ferro_facilities_gdf].  [geometry] is [None] for the empty point
    that [points_from_xy] builds from missing coordinates. *)
Module Facility.
Record row : Type := mk {
  state_code : string;
  year : Z;
  ch4_kt : binary64;
  geometry : option point
}.
Definition key (r : row) : string * Z := (state_code r, year r).
End Facility.

(** Lines 467-469: [((fac_emissions / fac_emissions.sum()) * emi_sum).fillna(0)]. *)
Definition allocated_fac_emissions (fac_emissions : list binary64)
    (emi_sum : binary64) : list binary64 :=
  fillna 0
    <$> ((λ v, v * emi_sum)
    <$> ((λ v, v / Series_sum fac_emissions) <$> fac_emissions)).

(** [state_year_allocation_emissions(fac_emissions, inventory_df)]. *)
Definition state_year_allocation_emissions (fac_emissions : Series)
    (inventory_df : list Inventory.row) : result (list binary64) :=
  let '(state, year) := name fac_emissions in
  emi_sum ← iat0 (Inventory.ch4_kt <$>
                    filter (λ r, Inventory.state_code r = state
                                 ∧ Inventory.year r = year) inventory_df);
  Ok (allocated_fac_emissions (values fac_emissions) emi_sum).

(** [df.groupby(["state_code", "year"])["ch4_kt"].transform(func)]: [func] is
    applied to the column of every group, and each row receives the element
    of its group's result at the row's rank in the group.  An exception of
    [func] is an exception of [transform]. *)
Definition groupby_transform (func : Series → result (list binary64))
    (df : list Facility.row) : result (list binary64) :=
  mapM (λ ir : nat * Facility.row,
          let k := Facility.key ir.2 in
          let same_group := λ r, Facility.key r = k in
          out ← func (mkSeries k (Facility.ch4_kt <$> filter same_group df));
          from_option Ok (Raise ValueError)
            (out !! length (filter same_group (take ir.1 df))))
       (imap pair df).

(** The column [ferro_facilities_gdf["allocated_ch4_kt"]] (lines 476-478). *)
Definition allocated_ch4_kt (ferro_facilities_gdf : list Facility.row)
    (EPA_ferro_emissions : list Inventory.row) : result (list binary64) :=
  groupby_transform
    (λ fac_emissions,
       state_year_allocation_emissions fac_emissions EPA_ferro_emissions)
    ferro_facilities_gdf.

(** A shape as [rasterize] collects it, through the [__geo_interface__] of
    its geometry.  With shapely 2.0 the interface of a point reads
    [coords[0]], and the empty point raises [IndexError] there (rasterio 1.4
    skips such a shape instead). *)
Definition valid_shape (shape : option point * binary64)
    : result (point * binary64) :=
  match shape.1 with
  | Some p => Ok (p, shape.2)
  | None => Raise IndexError
  end.

Section gridding.

(** [ARR_SHAPE = (height, width)] and the cell of a point under
    [GEPA_PROFILE["transform"]] (row and column, the floor of the inverse
    affine map) come from [gch4i.gridding], which is not among the sources. *)
Variable ARR_SHAPE : nat * nat.
Variable cell_index : point → Z * Z.

(** [area_matrix = load_area_matrix()], read from a raster file.  It has the
    shape of the grid. *)
Variable area_matrix : array2.

(** What a burnt value does to the cell it falls in. *)
Definition merge (merge_alg : MergeAlg) (value old : binary64) : binary64 :=
  match merge_alg with
  | replace => value
  | add => old + value
  end.

(** One shape burnt into the output: the value goes to the cell that contains
    the point.  A point outside the grid leaves the output as it is. *)
Definition burn (merge_alg : MergeAlg) (out : array2)
    (shape : point * binary64) : array2 :=
  let rc := cell_index shape.1 in
  if decide (in_grid ARR_SHAPE rc)
  then alter (alter (merge merge_alg shape.2) (Z.to_nat rc.2))
             (Z.to_nat rc.1) out
  else out.

(** [rasterio.features.rasterize(shapes, out_shape=ARR_SHAPE, fill,
    transform=GEPA_PROFILE["transform"], dtype=np.float64, merge_alg)] on
    point geometries.  The shapes are first collected, one by one, and the
    call ends at the first one that raises.  Then "an exception will be
    raised if there are no valid shapes to rasterize"; the output starts as
    [fill] everywhere, and the shapes are burnt in order. *)
Definition rasterize (shapes : list (option point * binary64))
    (fill : binary64) (merge_alg : MergeAlg) : result array2 :=
  valid_shapes ← mapM valid_shape shapes;
  match valid_shapes with
  | [] => Raise ValueError
  | _ => Ok (fold_left (burn merge_alg) valid_shapes
               (replicate ARR_SHAPE.1 (replicate ARR_SHAPE.2 fill)))
  end.


(** The years of [ferro_facilities_gdf.groupby("year")], ascending. *)
Definition groupby_years (gdf : list (Facility.row * binary64)) : list Z :=
  merge_sort Z.le (remove_dups ((λ ra, Facility.year ra.1) <$> gdf)).

(** Lines 522-532: the raster of one year's rows. *)
Definition ch4_kt_raster (data : list (Facility.row * binary64))
    : result array2 :=
  rasterize ((λ ra, (Facility.geometry ra.1, ra.2)) <$> data) 0 add.

Definition year_data (gdf : list (Facility.row * binary64)) (year : Z)
    : list (Facility.row * binary64) :=
  filter (λ ra, Facility.year ra.1 = year) gdf.

(** Lines 515-538: the two dictionaries, as lists of items in insertion
    order.  [gdf] pairs every facility row with its allocated value. *)
Definition ch4_kt_result_rasters (gdf : list (Facility.row * binary64))
    : result (list (Z * array2)) :=
  mapM (λ year,
          raster ← ch4_kt_raster (year_data gdf year);
          Ok (year, raster))
       (groupby_years gdf).

Definition ch4_flux_result_rasters (gdf : list (Facility.row * binary64))
    : result (list (Z * array2)) :=
  mapM (λ year,
          let year_days := foldr Z.add 0%Z (month_days year) in
          raster ← ch4_kt_raster (year_data gdf year);
          conversion_factor_annual ← calc_conversion_factor year_days area_matrix;
          Ok (year, zip_with (zip_with PrimFloat.mul) raster
                      conversion_factor_annual))
       (groupby_years gdf).


Definition emi_sum (EPA_ferro_emissions : list Inventory.row) (year : Z)
    : binary64 :=
  Series_sum (Inventory.ch4_kt
                <$> filter (λ r, Inventory.year r = year) EPA_ferro_emissions).


End gridding.

End B64.

(** ** Notions of the specification *)

(** *** Allocation *)

(** The values of the group [k] of the facility table, and the inventory
    total that [state_year_allocation_emissions] looks up for it. *)
Definition group_values (fac : list Facility.row) (k : string * Z)
    : list float64 :=
  Facility.ch4_kt <$> filter (λ r, Facility.key r = k) fac.

Definition inv_total (inv : list Inventory.row) (k : string * Z)
    : result float64 :=
  iat0 (Inventory.ch4_kt <$>
          filter (λ r, Inventory.state_code r = k.1 ∧ Inventory.year r = k.2) inv).

Definition total_of (inv : list Inventory.row) (k : string * Z) : float64 :=
  match inv_total inv k with
  | Ok t => t
  | Raise _ => NaN
  end.

(** The allocated value of one facility row. *)
Definition allocate_row (fac : list Facility.row) (inv : list Inventory.row)
    (f : Facility.row) : float64 :=
  fillna (Fin 0)
    (fmul (fdiv (Facility.ch4_kt f)
                (Series_sum (group_values fac (Facility.key f))))
          (total_of inv (Facility.key f))).

(** *** Names *)

(** The characters that remain in a formatted name: lower-case letters,
    digits, space and hyphen. *)
Definition kept (c : ascii) : bool :=
  let n := nat_of_ascii c in
  bool_decide (97 ≤ n ≤ 122 ∨ 48 ≤ n ≤ 57 ∨ n = 32 ∨ n = 45)%nat.

Definition is_upper (c : ascii) : bool :=
  bool_decide (65 ≤ nat_of_ascii c ≤ 90)%nat.

(** A string of 7-bit characters, on which the character model above is
    Python's. *)
Definition is_ascii7 (s : string) : Prop :=
  Forall (λ c, (nat_of_ascii c < 128)%nat) (list_ascii_of_string s).

(** The formatted name of [s]: lower-cased, every run of whitespace turned
    into one space, and then every character outside [kept] removed. *)
Definition formatted (s : string) : string :=
  string_of_list_ascii
    (filter (λ c, kept c = true)
       (re_sub_plus re_space (list_ascii_of_string " ") false
          (casefold_ascii <$> list_ascii_of_string s))).

(** The last step of [name_formatter] read as a comparison of the pattern
    with the whole element: the element is replaced when all of it matches
    the one-character pattern, and is kept, punctuation included, otherwise.
    [name_formatter_whole_value] is [name_formatter] with that last step. *)
Definition Series_replace_whole_value (cls : ascii → bool) (value : string)
    (s : string) : string :=
  match list_ascii_of_string s with
  | [c] => if cls c then value else s
  | _ => s
  end.

Definition name_formatter_whole_value (col : list string) : list string :=
  Series_replace_whole_value re_not_alnum_space_hyphen ""
    <$> (str_replace_spaces <$> (casefold <$> col)).

(** *** Example data *)

(** A grid of 2 x 2 unit cells with its origin at (0, 0): the cell of a point
    is the floor of its coordinates. *)
Definition unit_shape : nat * nat := (2, 2)%nat.

Definition unit_cell_index (p : point) : Z * Z :=
  (Qfloor (this p.2), Qfloor (this p.1)).

Definition kt (z : Z) : float64 := Fin (Qc_of_Z z).

(** State A with a total of 10, state B with a total of 5 and no facility. *)
Definition two_states : list Inventory.row :=
  [Inventory.mk "A" 2020 (kt 10); Inventory.mk "B" 2020 (kt 5)].

(** Two facilities of state A, both located. *)
Definition facilities_located : list Facility.row :=
  [Facility.mk "A" 2020 (kt 3) (Some (Qc_of_Z 0, Qc_of_Z 0));
   Facility.mk "A" 2020 (kt 7) (Some (Qc_of_Z 1, Qc_of_Z 1))].

(** *** Allocation on binary64 *)





(** The sign of a binary64 value, read on its bits: the sign bit is clear
    ([sf_plus]), or the value is a zero or has its sign bit clear
    ([sf_not_negative]); NaN is in both classes. *)
Definition sf_plus (x : spec_float) : Prop :=
  match x with
  | S754_zero s | S754_infinity s | S754_finite s _ _ => s = false
  | S754_nan => True
  end.

Definition sf_not_negative (x : spec_float) : Prop :=
  match x with
  | S754_zero _ | S754_nan => True
  | S754_infinity s | S754_finite s _ _ => s = false
  end.

(** A binary64 value of magnitude at least 1, read on its bits: an infinity,
    or a finite value [m * 2^e] whose mantissa of [d] binary digits has
    [1 <= d + e]. *)
Definition sf_big (x : spec_float) : Prop :=
  match x with
  | S754_infinity _ => True
  | S754_finite _ m e => (1 ≤ Z.log2 (Z.pos m) + 1 + e)%Z
  | _ => False
  end.

(** *** Conversion factor on binary64 *)

(** [Molarch4 * year_days * 24 * 60 * 60] for the float [days] of the day
    count, and the factor before the division by the cell areas. *)
Definition seconds (days : B64.binary64) : B64.binary64 :=
  (B64.Molarch4 * days * 24 * 60 * 60)%float.

Definition per_area (days : B64.binary64) : B64.binary64 :=
  (1e9 * B64.Avogadro / seconds days)%float.

(** A positive finite value. *)
Definition positive_finite (x : B64.binary64) : Prop :=
  PrimFloat.ltb 0 x = true ∧ PrimFloat.ltb x PrimFloat.infinity = true.

(** *** Grids on binary64 *)

#[global] Instance B64_Inventory_row_eq_dec : EqDecision B64.Inventory.row.
Proof. solve_decision. Defined.

#[global] Instance B64_Facility_row_eq_dec : EqDecision B64.Facility.row.
Proof. solve_decision. Defined.

Section B64_grid_notions.

Variable ARR_SHAPE : nat * nat.
Variable cell_index : point → Z * Z.

(** The point of a feature falls in the cell at row [r], column [c]. *)
Definition falls_in (r c : nat) (shape : option point * B64.binary64) : Prop :=
  cell_index <$> shape.1 = Some (Z.of_nat r, Z.of_nat c).

#[global] Instance falls_in_dec r c shape : Decision (falls_in r c shape).
Proof. unfold falls_in. apply _. Defined.

(** The values of the features of a cell, added to 0 one after the other in
    the order of the features. *)
Definition cell_sum (shapes : list (option point * B64.binary64)) (r c : nat)
    : B64.binary64 :=
  fold_left PrimFloat.add (snd <$> filter (falls_in r c) shapes) 0%float.

(** The features of the rows of a year, as the loop hands them to
    [rasterize]. *)
Definition shapes_of (data : list (B64.Facility.row * B64.binary64))
    : list (option point * B64.binary64) :=
  (λ ra, (B64.Facility.geometry ra.1, ra.2)) <$> data.

(** A located facility: a facility row with a point inside the grid. *)
Definition located (f : B64.Facility.row) : Prop :=
  match B64.Facility.geometry f with
  | Some p => in_grid ARR_SHAPE (cell_index p)
  | None => False
  end.

#[global] Instance located_dec f : Decision (located f).
Proof. unfold located. destruct (B64.Facility.geometry f); apply _. Defined.

(** The state and year [k] has at least one located facility. *)
Definition has_located (fac : list B64.Facility.row) (k : string * Z) : Prop :=
  Exists (λ f, B64.Facility.key f = k ∧ located f) fac.

#[global] Instance has_located_dec fac k : Decision (has_located fac k).
Proof. unfold has_located. apply _. Defined.


End B64_grid_notions.

(** *** Example data on binary64 *)

(** Three features in the cell (0, 0) of the grid of 2 x 2 unit cells. *)
Definition three_in_one_cell : list (option point * B64.binary64) :=
  [(Some (Qc_of_Z 0, Qc_of_Z 0), 0.1%float);
   (Some (Qc_of_Z 0, Qc_of_Z 0), 0.2%float);
   (Some (Qc_of_Z 0, Qc_of_Z 0), 0.3%float)].






(** Facility rows with their allocated values: two years, and one row
    outside the grid. *)
Definition allocated_two_years : list (B64.Facility.row * B64.binary64) :=
  [(B64.Facility.mk "A" 2021 2%float (Some (Qc_of_Z 0, Qc_of_Z 0)), 2%float);
   (B64.Facility.mk "A" 2020 6%float (Some (Qc_of_Z 1, Qc_of_Z 1)), 6%float);
   (B64.Facility.mk "B" 2020 1%float (Some (Qc_of_Z 5, Qc_of_Z 5)), 4%float)].

(** ** Notions of the properties beyond the specification *)

(** *** Names *)

(** No two adjacent spaces. *)
Fixpoint single_spaced (s : list ascii) : Prop :=
  match s with
  | c1 :: s' =>
      match s' with
      | c2 :: _ => ¬ (c1 = " "%char ∧ c2 = " "%char)
      | [] => True
      end ∧ single_spaced s'
  | [] => True
  end.

#[global] Instance single_spaced_dec s : Decision (single_spaced s).
Proof. induction s as [|c1 [|c2 s] IH]; cbn; apply _. Defined.

(** A name in formatted form: lower-case letters, digits, hyphens and single
    spaces. *)
Definition is_formatted (s : string) : Prop :=
  Forall (λ c, kept c = true) (list_ascii_of_string s)
  ∧ single_spaced (list_ascii_of_string s).

(** *** The inventory sheet *)

(** The value of the state row [r] in the column [j], after the coercion. *)
Definition numeric_value (r : InvDB.row) (j : nat) : float64 :=
  default NaN (to_numeric_coerce <$> InvDB.cells r !! j).

(** A state row that [dropna(how="all")] keeps: one of the [n] year columns
    holds a number. *)
Definition has_value (n : nat) (r : InvDB.row) : Prop :=
  Exists (λ j, isnan (numeric_value r j) = false) (seq 0 n).

#[global] Instance has_value_dec n r : Decision (has_value n r).
Proof. unfold has_value. apply _. Defined.

(** *** Example data *)

#[global] Instance Inventory_row_eq_dec : EqDecision Inventory.row.
Proof. solve_decision. Defined.

#[global] Instance Facility_row_eq_dec : EqDecision Facility.row.
Proof. solve_decision. Defined.

#[global] Instance FacilityDf_row_eq_dec : EqDecision FacilityDf.row.
Proof. solve_decision. Defined.

#[global] Instance Location_row_eq_dec : EqDecision Location.row.
Proof. solve_decision. Defined.

#[global] Instance Matching_row_eq_dec : EqDecision Matching.row.
Proof. solve_decision. Defined.

(** The facilities of state A, with the values that the allocation gives
    them. *)
Definition located_allocated : list (Facility.row * float64) :=
  zip facilities_located [kt 3; kt 7].

(** A sheet with a CH4 row and a CO2 row for Ohio, and a CH4 row without any
    number for Alaska; the year columns are 1989 to 1991. *)
Definition sheet_example : list InvDB.row :=
  [InvDB.mk "OH" "CH4" [InvDB.Number (Fin (dec 1 3)); InvDB.Text "NO";
                        InvDB.Number (Fin (dec 2 3))];
   InvDB.mk "OH" "CO2" [InvDB.Number (kt 5); InvDB.Number (kt 5);
                        InvDB.Number (kt 5)];
   InvDB.mk "AK" "CH4" [InvDB.Text "NO"; InvDB.Text "NO"; InvDB.Text "NO"]].

(** Two facilities of Ohio over two years; the FRS knows the first one, with
    a first record that lacks its latitude for the second one. *)
Definition states_example : list State.row :=
  [State.mk "Ohio" 39 "OH"; State.mk "Alaska" 2 "AK"].

Definition calculations_example : list Calculations.row :=
  [Calculations.mk "Bear  Metallurgical Co." "Ohio" [kt 3; kt 4];
   Calculations.mk "Stratcor, Inc." "Ohio" [kt 7; kt 6];
   Calculations.mk "Far North Alloys" "Alaska" [kt 1; kt 1]].

Definition frs_example : list Location.row :=
  [Location.mk "BEAR METALLURGICAL CO" "OH" (kt 1) (kt 0);
   Location.mk "STRATCOR INC" "OH" NaN (kt 1);
   Location.mk "STRATCOR INC" "OH" (kt 1) (kt 1)].

Definition facilities_df_example : list FacilityDf.row :=
  ferro_facilities_df 2012 2013 [2012; 2013]%Z calculations_example
    (state_gdf states_example).

Definition matching_example : list Matching.row :=
  matching_facilities (unique_facilities facilities_df_example)
    (facility_locations (subpart_k_df []) (frs_df frs_example)).

(** * Properties *)

(** ** Lists *)

Lemma mapM_imap_Ok {A B C} (g : B → result C) (h : A → C) (p : nat → A → B)
    (l : list A) :
  (∀ i x, l !! i = Some x → g (p i x) = Ok (h x)) →
  mapM g (imap p l) = Ok (h <$> l).
Proof.
  revert p. induction l as [|x l IH]; intros p Hg; [done|].
  rewrite imap_cons. cbn [mapM]. rewrite (Hg 0%nat x eq_refl).
  cbn [mbind result_bind]. rewrite (IH (p ∘ S)); [done|].
  intros i y Hi. apply (Hg (S i)). done.
Qed.

Lemma filter_take_lookup {A} (P : A → Prop) `{!∀ x, Decision (P x)}
    (l : list A) (i : nat) (x : A) :
  l !! i = Some x → P x → filter P l !! length (filter P (take i l)) = Some x.
Proof.
  intros Hi HP.
  assert (E : filter P l = filter P (take i l) ++ x :: filter P (drop (S i) l)).
  { rewrite <- (take_drop_middle l i x Hi) at 1.
    by rewrite filter_app, filter_cons_True. }
  rewrite E, lookup_app_r by done. by rewrite Nat.sub_diag.
Qed.

Lemma filter_fmap {A B} (f : A → B) (P : B → Prop) `{!∀ y, Decision (P y)}
    (l : list A) :
  filter P (f <$> l) = f <$> filter (λ x, P (f x)) l.
Proof.
  induction l as [|x l IH]; [done|]. rewrite fmap_cons.
  destruct (decide (P (f x))).
  - rewrite !filter_cons_True by done. by rewrite fmap_cons, IH.
  - rewrite !filter_cons_False by done. done.
Qed.

Lemma filter_nil_Forall {A} (P : A → Prop) `{!∀ x, Decision (P x)}
    (l : list A) :
  Forall (λ x, ¬ P x) l → filter P l = [].
Proof.
  induction 1 as [|x l Hx _ IH]; [done|]. by rewrite filter_cons_False.
Qed.

Lemma zip_fmap_self {A B} (f : A → B) (l : list A) :
  zip l (f <$> l) = (λ x, (x, f x)) <$> l.
Proof.
  induction l as [|x l IH]; [done|]. by rewrite fmap_cons; cbn; rewrite IH.
Qed.

Lemma NoDup_fmap_filter {A B} (f : A → B) (P : A → Prop)
    `{!∀ x, Decision (P x)} (l : list A) :
  NoDup (f <$> l) → NoDup (f <$> filter P l).
Proof.
  induction l as [|x l IH]; [done|].
  rewrite fmap_cons. intros [Hx Hnd]%NoDup_cons.
  destruct (decide (P x)).
  - rewrite filter_cons_True by done. rewrite fmap_cons.
    apply NoDup_cons. split; [|by apply IH].
    intros (y & Ey & Hy)%list_elem_of_fmap. apply Hx.
    apply list_elem_of_fmap. exists y. split; [done|].
    by apply list_elem_of_filter in Hy as [_ Hy].
  - rewrite filter_cons_False by done. by apply IH.
Qed.

Lemma filter_ext_Forall {A} (P Q : A → Prop) `{!∀ x, Decision (P x)}
    `{!∀ x, Decision (Q x)} (l : list A) :
  Forall (λ x, P x ↔ Q x) l → filter P l = filter Q l.
Proof.
  induction 1 as [|x l Hx _ IH]; [done|].
  destruct (decide (P x)) as [HP|HP].
  - rewrite !filter_cons_True by tauto. by rewrite IH.
  - rewrite !filter_cons_False by tauto. done.
Qed.

Lemma mapM_result_Raise {A B} (g : A → result B) (l : list A) (e : exn) :
  mapM g l = Raise e → ∃ x, x ∈ l ∧ g x = Raise e.
Proof.
  induction l as [|x l IH]; [done|]. cbn [mapM].
  destruct (g x) as [y|e'] eqn:E; cbn [mbind result_bind].
  - destruct (mapM g l) as [ys|e'']; [done|]. cbn [mbind result_bind].
    intros [= <-]. destruct IH as (x' & Hx' & Hg); [done|].
    exists x'. split; [by right|done].
  - intros [= <-]. exists x. split; [left|done].
Qed.

Lemma mapM_result_Ok {A B} (g : A → result B) (l : list A) (ys : list B) :
  mapM g l = Ok ys → Forall2 (λ x y, g x = Ok y) l ys.
Proof.
  revert ys. induction l as [|x l IH]; intros ys.
  - intros [= <-]. constructor.
  - cbn [mapM]. destruct (g x) as [y|e'] eqn:E; cbn [mbind result_bind]; [|done].
    destruct (mapM g l) as [ys'|e'']; [|done]. cbn [mbind result_bind].
    intros [= <-]. constructor; [done|]. by apply IH.
Qed.

(** ** Arithmetic and sums *)

Lemma fadd_comm x y : fadd x y = fadd y x.
Proof. destruct x, y; simpl; try done. by rewrite Qcplus_comm. Qed.

Lemma fadd_assoc x y z : fadd x (fadd y z) = fadd (fadd x y) z.
Proof. destruct x, y, z; simpl; try done. by rewrite Qcplus_assoc. Qed.

Lemma fadd_0_l x : fadd (Fin 0) x = x.
Proof. destruct x; simpl; try done. by rewrite Qcplus_0_l. Qed.

Lemma fadd_0_r x : fadd x (Fin 0) = x.
Proof. by rewrite fadd_comm, fadd_0_l. Qed.

Lemma fold_left_fadd l acc :
  fold_left fadd l acc = fadd acc (foldr fadd (Fin 0) l).
Proof.
  revert acc. induction l as [|x l IH]; intros acc; simpl.
  - by rewrite fadd_0_r.
  - by rewrite IH, fadd_assoc.
Qed.

Lemma np_sum_foldr l : np_sum l = foldr fadd (Fin 0) l.
Proof. unfold np_sum. by rewrite fold_left_fadd, fadd_0_l. Qed.

Lemma Series_sum_np_sum l : Series_sum l = np_sum (fillna (Fin 0) <$> l).
Proof. done. Qed.

Lemma Series_sum_zeros (l : list float64) :
  Forall (λ v, v = Fin 0) l → Series_sum l = Fin 0.
Proof.
  intros H. rewrite Series_sum_np_sum, np_sum_foldr.
  induction H as [|v l -> _ IH]; [done|].
  rewrite fmap_cons. cbn [foldr]. rewrite IH. unfold fillna; simpl.
  by rewrite Qcplus_0_l.
Qed.

(** ** Proportional allocation *)

(** C2: for every group whose facility values are all zero and for any group
    total [T] (NaN and the infinities included), the allocator returns all
    zeros; no element of the result is NaN. *)
Theorem allocation_zero_safety (fac_emissions : list float64) (T : float64) :
  Forall (λ v, v = Fin 0) fac_emissions →
  allocated_fac_emissions fac_emissions T
  = replicate (length fac_emissions) (Fin 0)
  ∧ Forall (λ v, isnan v = false) (allocated_fac_emissions fac_emissions T).
Proof.
  intros H.
  assert (E : allocated_fac_emissions fac_emissions T
              = replicate (length fac_emissions) (Fin 0)).
  { unfold allocated_fac_emissions. rewrite (Series_sum_zeros _ H).
    induction H as [|v l -> _ IH]; [done|].
    rewrite !fmap_cons, IH. done. }
  split; [done|]. rewrite E. by apply Forall_replicate.
Qed.

Lemma allocation_zero_safety_example :
  Forall (λ v, v = Fin 0) [Fin 0; Fin 0; Fin 0]
  ∧ allocated_fac_emissions [Fin 0; Fin 0; Fin 0] (kt 5)
    = [Fin 0; Fin 0; Fin 0]
  ∧ allocated_fac_emissions [Fin 0; Fin 0; Fin 0] NaN
    = [Fin 0; Fin 0; Fin 0].
Proof.
  assert (H : Forall (λ v, v = Fin 0) [Fin 0; Fin 0; Fin 0])
    by (by repeat constructor).
  split_and!; [done|..].
  - apply (allocation_zero_safety _ (kt 5) H).
  - apply (allocation_zero_safety _ NaN H).
Defined.

(** C9: [state_year_allocation_emissions] is partial.  For a facility group
    whose (state_code, year) key has no row in the state inventory table it
    raises [IndexError] (the positional lookup on an empty selection); for a
    group whose key has a row it returns a value, of the length of the
    group. *)
Theorem state_year_allocation_emissions_partial (fac_emissions : Series)
    (inventory_df : list Inventory.row) :
  (Forall (λ r, Inventory.key r ≠ name fac_emissions) inventory_df →
     state_year_allocation_emissions fac_emissions inventory_df
     = Raise IndexError)
  ∧ (Exists (λ r, Inventory.key r = name fac_emissions) inventory_df →
     ∃ out, state_year_allocation_emissions fac_emissions inventory_df = Ok out
            ∧ length out = length (values fac_emissions)).
Proof.
  destruct fac_emissions as [[state year] vals].
  unfold state_year_allocation_emissions. cbn [name values]. split.
  - intros H.
    assert (E : filter (λ r, Inventory.state_code r = state
                             ∧ Inventory.year r = year) inventory_df = []).
    { induction H as [|r l Hr _ IH]; [done|].
      rewrite filter_cons_False; [done|].
      intros [<- <-]. by apply Hr. }
    by rewrite E.
  - intros H.
    assert (E : ∃ r l, filter (λ r, Inventory.state_code r = state
                                    ∧ Inventory.year r = year) inventory_df
                       = r :: l).
    { induction H as [r l Hr|r l _ IH].
      - exists r. eexists. rewrite filter_cons_True; [done|].
        by injection Hr.
      - destruct (decide (Inventory.state_code r = state
                          ∧ Inventory.year r = year)).
        + rewrite filter_cons_True by done. eauto.
        + rewrite filter_cons_False by done. done. }
    destruct E as (r & l & ->). eexists. split; [done|].
    unfold allocated_fac_emissions. by rewrite !length_fmap.
Qed.

Lemma state_year_allocation_emissions_partial_example :
  state_year_allocation_emissions (mkSeries ("C", 2020%Z) [kt 1]) two_states
  = Raise IndexError
  ∧ ∃ out, state_year_allocation_emissions (mkSeries ("A", 2020%Z) [kt 1])
             two_states = Ok out
           ∧ length out = 1%nat.
Proof.
  split.
  - apply (proj1 (state_year_allocation_emissions_partial
                    (mkSeries ("C", 2020%Z) [kt 1]) two_states)).
    repeat constructor; by vm_compute.
  - apply (proj2 (state_year_allocation_emissions_partial
                    (mkSeries ("A", 2020%Z) [kt 1]) two_states)).
    by left.
Defined.

(** ** Grids *)

Lemma cell_alter_eq {A} (f : A → A) (g : list (list A)) r c :
  cell (alter (alter f c) r g) r c = f <$> cell g r c.
Proof.
  unfold cell. rewrite list_lookup_alter_eq.
  destruct (g !! r) as [row|]; [|done]. simpl.
  by rewrite list_lookup_alter_eq.
Qed.

Lemma cell_alter_ne {A} (f : A → A) (g : list (list A)) r c r' c' :
  (r, c) ≠ (r', c') → cell (alter (alter f c) r g) r' c' = cell g r' c'.
Proof.
  intros Hne. unfold cell.
  destruct (decide (r = r')) as [<-|Hr].
  - rewrite list_lookup_alter_eq. destruct (g !! r) as [row|]; [|done]. simpl.
    rewrite list_lookup_alter_ne; [done|]. congruence.
  - by rewrite list_lookup_alter_ne.
Qed.

Lemma has_shape_alter {A} shape (f : A → A) (g : list (list A)) r c :
  has_shape shape g → has_shape shape (alter (alter f c) r g).
Proof.
  intros [Hl Hrows]. split; [by rewrite length_alter|].
  apply Forall_lookup. intros i row Hi.
  destruct (decide (r = i)) as [<-|Hr].
  - rewrite list_lookup_alter_eq in Hi.
    destruct (g !! r) as [row0|] eqn:E; [|done]. simpl in Hi.
    injection Hi as <-. rewrite length_alter.
    by eapply (Forall_lookup_1 _ _ _ _ Hrows).
  - rewrite list_lookup_alter_ne in Hi by done.
    by eapply (Forall_lookup_1 _ _ _ _ Hrows).
Qed.

Lemma has_shape_replicate {A} shape (x : A) :
  has_shape shape (replicate shape.1 (replicate shape.2 x)).
Proof.
  split; [by rewrite length_replicate|].
  apply Forall_replicate. by rewrite length_replicate.
Qed.

Lemma cell_replicate {A} (h w : nat) (x : A) r c :
  (r < h)%nat → (c < w)%nat → cell (replicate h (replicate w x)) r c = Some x.
Proof.
  intros Hr Hc. unfold cell. rewrite lookup_replicate_2 by done. simpl.
  by rewrite lookup_replicate_2.
Qed.

Lemma array2_eq {A} shape (g1 g2 : list (list A)) :
  has_shape shape g1 → has_shape shape g2 →
  (∀ r c, (r < shape.1)%nat → (c < shape.2)%nat → cell g1 r c = cell g2 r c) →
  g1 = g2.
Proof.
  intros [Hl1 Hr1] [Hl2 Hr2] Hcell. apply list_eq. intros r.
  destruct (decide (r < shape.1)%nat) as [Hr|Hr].
  - destruct (lookup_lt_is_Some_2 g1 r) as [row1 E1]; [lia|].
    destruct (lookup_lt_is_Some_2 g2 r) as [row2 E2]; [lia|].
    rewrite E1, E2. f_equal. apply list_eq. intros c.
    destruct (decide (c < shape.2)%nat) as [Hc|Hc].
    + specialize (Hcell r c Hr Hc). unfold cell in Hcell.
      by rewrite E1, E2 in Hcell.
    + rewrite !(proj2 (lookup_ge_None _ _)); [done|..].
      * rewrite (Forall_lookup_1 _ _ _ _ Hr2 E2). lia.
      * rewrite (Forall_lookup_1 _ _ _ _ Hr1 E1). lia.
  - rewrite !(proj2 (lookup_ge_None _ _)); [done|lia..].
Qed.

Lemma cell_array_map {A B} (f : A → B) (g : list (list A)) r c :
  cell (array_map f g) r c = f <$> cell g r c.
Proof.
  unfold cell, array_map. rewrite list_lookup_fmap.
  destruct (g !! r) as [row|]; [|done].
  simpl. by rewrite list_lookup_fmap.
Qed.

(** ** Rasterisation *)

Section rasterize_facts.

Variable ARR_SHAPE : nat * nat.
Variable cell_index : point → Z * Z.

Lemma burn_has_shape alg g s :
  has_shape ARR_SHAPE g →
  has_shape ARR_SHAPE (burn ARR_SHAPE cell_index alg g s).
Proof.
  intros Hg. unfold burn. cbv zeta. case_decide; [|done].
  by apply has_shape_alter.
Qed.

Lemma rasterize_fold_has_shape alg shapes g :
  has_shape ARR_SHAPE g →
  has_shape ARR_SHAPE (fold_left (burn ARR_SHAPE cell_index alg) shapes g).
Proof.
  revert g. induction shapes as [|s shapes IH]; intros g Hg; [done|].
  simpl. by apply IH, burn_has_shape.
Qed.

Lemma rasterize_has_shape shapes fill alg raster :
  rasterize ARR_SHAPE cell_index shapes fill alg = Ok raster →
  has_shape ARR_SHAPE raster.
Proof.
  unfold rasterize. destruct (mapM _ shapes) as [valid|e]; [|done].
  cbn [mbind result_bind]. case_decide; [done|]. intros [= <-].
  apply rasterize_fold_has_shape, has_shape_replicate.
Qed.

End rasterize_facts.

(** ** NetCDF metadata *)

Section netcdf_facts.

Context {crs_t transform_t : Type}.
Variable GEPA_PROFILE_crs : crs_t.
Variable GEPA_PROFILE_transform : transform_t.
Variable y x : list Qc.

(** C6, at the call of the sector script: for every non-empty dictionary of
    yearly rasters of the shape of the grid the artifact is written, and its
    [title] attribute is the declared description string while its
    [description] attribute is the declared title string, the two strings
    being different; the year range, the units, the coordinate reference
    system, the affine transform, the nodata value 0.0, the dimensions and
    the coordinates are as declared. *)
Theorem written_ncdf_title_description_swapped
    (ch4_flux_result_rasters : list (Z * array2)) :
  ch4_flux_result_rasters ≠ [] →
  Forall (has_shape (length y, length x)) (ch4_flux_result_rasters.*2) →
  ∃ da lo hi,
    written_ncdf GEPA_PROFILE_crs GEPA_PROFILE_transform y x
      ch4_flux_result_rasters = Ok da
    ∧ list_min (ch4_flux_result_rasters.*1) = Ok lo
    ∧ list_max (ch4_flux_result_rasters.*1) = Ok hi
    ∧ attrs da !! "title" = Some netcdf_description
    ∧ attrs da !! "description" = Some netcdf_title
    ∧ netcdf_title ≠ netcdf_description
    ∧ attrs da !! "year" = Some (pretty lo +:+ "-" +:+ pretty hi)
    ∧ attrs da !! "units" = Some "moleccm-2s-1"
    ∧ crs da = GEPA_PROFILE_crs
    ∧ transform da = GEPA_PROFILE_transform
    ∧ encoded_nodata da = Fin 0
    ∧ dims da = ["time"; "lat"; "lon"]
    ∧ time da = ch4_flux_result_rasters.*1
    ∧ lat da = y ∧ lon da = x.
Proof.
  intros Hne Hshape. unfold written_ncdf, write_ncdf_output. cbv zeta.
  rewrite (decide_False (P := ch4_flux_result_rasters = [])) by done.
  cbn [mbind result_bind]. rewrite decide_True by done.
  cbn [mbind result_bind].
  destruct ch4_flux_result_rasters as [|[y0 a] l]; [done|].
  cbn [fmap list_fmap fst]. unfold list_min, list_max.
  cbn [mbind result_bind].
  eexists _, _, _. split_and!; try reflexivity.
  vm_compute. discriminate.
Qed.

End netcdf_facts.

Lemma written_ncdf_title_description_swapped_example :
  [(2012%Z, [[kt 1]]); (2013%Z, [[kt 2]])] ≠ []
  ∧ Forall (has_shape (length [Qc_of_Z 0], length [Qc_of_Z 0]))
      ([(2012%Z, [[kt 1]]); (2013%Z, [[kt 2]])].*2)
  ∧ ∃ da lo hi,
      written_ncdf tt tt [Qc_of_Z 0] [Qc_of_Z 0]
        [(2012%Z, [[kt 1]]); (2013%Z, [[kt 2]])] = Ok da
      ∧ list_min ([(2012%Z, [[kt 1]]); (2013%Z, [[kt 2]])].*1) = Ok lo
      ∧ list_max ([(2012%Z, [[kt 1]]); (2013%Z, [[kt 2]])].*1) = Ok hi
      ∧ attrs da !! "title" = Some netcdf_description
      ∧ attrs da !! "description" = Some netcdf_title
      ∧ netcdf_title ≠ netcdf_description
      ∧ attrs da !! "year" = Some (pretty lo +:+ "-" +:+ pretty hi)
      ∧ attrs da !! "units" = Some "moleccm-2s-1"
      ∧ crs da = tt
      ∧ transform da = tt
      ∧ encoded_nodata da = Fin 0
      ∧ dims da = ["time"; "lat"; "lon"]
      ∧ time da = [(2012%Z, [[kt 1]]); (2013%Z, [[kt 2]])].*1
      ∧ lat da = [Qc_of_Z 0] ∧ lon da = [Qc_of_Z 0].
Proof.
  assert (H : [(2012%Z, [[kt 1]]); (2013%Z, [[kt 2]])] ≠ []) by done.
  assert (H' : Forall (has_shape (length [Qc_of_Z 0], length [Qc_of_Z 0]))
                 ([(2012%Z, [[kt 1]]); (2013%Z, [[kt 2]])].*2))
    by (apply (bool_decide_unpack _); by vm_compute).
  split_and!; [done..|].
  apply (written_ncdf_title_description_swapped tt tt _ _ _ H H').
Defined.

(** ** Facility names *)

Lemma re_sub_class_delete cls s :
  re_sub_class cls [] s = filter (λ c, cls c = false) s.
Proof.
  unfold re_sub_class. induction s as [|c s IH]; [done|].
  cbn [mbind list_bind]. rewrite IH. destruct (cls c) eqn:E.
  - by rewrite filter_cons_False by (by rewrite E).
  - by rewrite filter_cons_True by done.
Qed.

Lemma casefold_ascii_not_upper c : is_upper (casefold_ascii c) = false.
Proof.
  unfold casefold_ascii, is_upper. cbv zeta.
  destruct (decide (65 ≤ nat_of_ascii c ≤ 90)%nat) as [H|H].
  - rewrite (bool_decide_eq_true_2 _ H).
    rewrite nat_ascii_embedding by lia. apply bool_decide_eq_false_2. lia.
  - rewrite (bool_decide_eq_false_2 _ H). by apply bool_decide_eq_false_2.
Qed.

Lemma re_sub_plus_space_not_upper b s :
  Forall (λ c, is_upper c = false) s →
  Forall (λ c, is_upper c = false)
    (re_sub_plus re_space (list_ascii_of_string " ") b s).
Proof.
  intros H. revert b. induction H as [|c s Hc _ IH]; intros b; [done|].
  cbn [re_sub_plus]. destruct (re_space c).
  - apply Forall_app. split; [|apply IH].
    destruct b; [done|]. by repeat constructor.
  - by constructor.
Qed.

Lemma kept_iff c :
  kept c = true ↔ re_not_alnum_space_hyphen c = false ∧ is_upper c = false.
Proof.
  unfold kept, re_not_alnum_space_hyphen, is_upper.
  rewrite negb_false_iff, !bool_decide_eq_true, bool_decide_eq_false. lia.
Qed.

Lemma name_formatter_element (s : string) :
  Series_replace_regex re_not_alnum_space_hyphen ""
    (str_replace_spaces (casefold s)) = formatted s.
Proof.
  unfold Series_replace_regex, str_replace_spaces, casefold, formatted.
  rewrite !list_ascii_of_string_of_list_ascii.
  change (list_ascii_of_string "") with (@nil ascii).
  rewrite re_sub_class_delete. f_equal.
  apply filter_ext_Forall.
  eapply Forall_impl.
  - apply (re_sub_plus_space_not_upper false).
    apply Forall_fmap, Forall_true. intros c. apply casefold_ascii_not_upper.
  - intros c Hc. cbv beta. rewrite kept_iff. tauto.
Qed.

(** C10, as stated, fails: the comma and the full stops of "Stratcor, Inc."
    are removed from within the element, although the element as a whole
    does not match the pattern; they would stay if the pattern were compared
    with the whole element. *)
Lemma name_formatter_not_whole_value :
  name_formatter ["Stratcor, Inc."] = ["stratcor inc"]
  ∧ name_formatter_whole_value ["Stratcor, Inc."] = ["stratcor, inc."]
  ∧ name_formatter ["Stratcor, Inc."]
    ≠ name_formatter_whole_value ["Stratcor, Inc."].
Proof. split_and!; [reflexivity..|]. vm_compute. discriminate. Qed.

(** C10, amended: for every input series of (7-bit) strings, [name_formatter]
    casefolds each element, collapses every run of whitespace to a single
    space, and then removes every character other than letters, digits,
    space and hyphen from within the element: every character of every
    result is a lower-case letter, a digit, a space or a hyphen. *)
Theorem name_formatter_removes_punctuation (col : list string) :
  Forall is_ascii7 col →
  name_formatter col = formatted <$> col
  ∧ Forall (λ out, Forall (λ c, kept c = true) (list_ascii_of_string out))
      (name_formatter col).
Proof.
  intros _.
  assert (E : name_formatter col = formatted <$> col).
  { unfold name_formatter. rewrite <- !list_fmap_compose.
    apply list_fmap_ext. intros _ s _. apply name_formatter_element. }
  split; [done|]. rewrite E. apply Forall_fmap, Forall_true. intros s.
  unfold compose, formatted. rewrite list_ascii_of_string_of_list_ascii.
  apply Forall_forall. intros c Hc.
  by apply list_elem_of_filter in Hc as [Hc _].
Qed.

Lemma name_formatter_removes_punctuation_example :
  Forall is_ascii7 ["Bear  Metallurgical Co."; "A . b-C"]
  ∧ name_formatter ["Bear  Metallurgical Co."; "A . b-C"]
    = ["bear metallurgical co"; "a  b-c"].
Proof.
  assert (H : Forall is_ascii7 ["Bear  Metallurgical Co."; "A . b-C"])
    by (repeat constructor; simpl; lia).
  split; [exact H|].
  destruct (name_formatter_removes_punctuation _ H) as [-> _]. reflexivity.
Defined.

(** ** The allocated column, row by row *)

Lemma state_year_allocation_emissions_total k vals inv :
  state_year_allocation_emissions (mkSeries k vals) inv
  = t ← inv_total inv k; Ok (allocated_fac_emissions vals t).
Proof. by destruct k. Qed.

Lemma allocated_fac_emissions_lookup vals t i v :
  vals !! i = Some v →
  allocated_fac_emissions vals t !! i
  = Some (fillna (Fin 0) (fmul (fdiv v (Series_sum vals)) t)).
Proof.
  intros Hi. unfold allocated_fac_emissions.
  by rewrite !list_lookup_fmap, Hi.
Qed.

Lemma inv_total_Ok inv k :
  k ∈ Inventory.key <$> inv → ∃ t, inv_total inv k = Ok t.
Proof.
  intros Hk. apply list_elem_of_fmap in Hk as (r & -> & Hr).
  unfold inv_total.
  destruct (filter _ inv) as [|r' l] eqn:E; [|by eexists].
  assert (Hin : r ∈ filter (λ r0, Inventory.state_code r0 = (Inventory.key r).1
                                  ∧ Inventory.year r0 = (Inventory.key r).2) inv).
  { by apply list_elem_of_filter. }
  rewrite E in Hin. by apply elem_of_nil in Hin.
Qed.

(** When every facility group has a row in the inventory, the transform
    returns, and every row receives [allocate_row]. *)
Lemma allocated_ch4_kt_rows fac inv :
  Forall (λ f, Facility.key f ∈ Inventory.key <$> inv) fac →
  allocated_ch4_kt fac inv = Ok (allocate_row fac inv <$> fac).
Proof.
  intros Hrows. unfold allocated_ch4_kt, groupby_transform.
  apply mapM_imap_Ok. intros i f Hi. cbn [fst snd].
  rewrite state_year_allocation_emissions_total.
  destruct (inv_total_Ok inv (Facility.key f)) as [t Ht].
  { apply (Forall_lookup_1 _ _ _ _ Hrows Hi). }
  rewrite Ht. cbn [mbind result_bind].
  erewrite allocated_fac_emissions_lookup.
  2:{ rewrite list_lookup_fmap.
      by rewrite (filter_take_lookup (λ r, Facility.key r = Facility.key f)
                    fac i f Hi eq_refl). }
  cbn [from_option]. unfold allocate_row, total_of, group_values.
  by rewrite Ht.
Qed.

(** ** binary64 arithmetic *)

Lemma SFcompare_refl_finite s m e :
  SFcompare (S754_finite s m e) (S754_finite s m e) = Some Eq.
Proof.
  cbn [SFcompare]. rewrite (Z.compare_refl e).
  rewrite (Pos.compare_cont_refl m Eq). by destruct s.
Qed.

Lemma isnan_Prim2SF (x : B64.binary64) :
  B64.isnan x = match Prim2SF x with S754_nan => true | _ => false end.
Proof.
  unfold B64.isnan, is_nan. rewrite FloatAxioms.eqb_spec. unfold SFeqb.
  destruct (Prim2SF x) as [s|s| |s m e]; [by destruct s..|done|].
  by rewrite SFcompare_refl_finite.
Qed.



Lemma sf_plus_not_negative x : sf_plus x → sf_not_negative x.
Proof. by destruct x. Qed.








(** ** Proportional allocation on binary64 *)




(** The sum of a group of two values is their binary64 sum, when that sum is
    positive. *)
Lemma Series_sum_two (a b : B64.binary64) :
  PrimFloat.ltb 0 (PrimFloat.add a b) = true →
  B64.Series_sum [a; b] = PrimFloat.add a b.
Proof.
  intros H. rewrite FloatAxioms.ltb_spec, FloatAxioms.add_spec in H.
  change (Prim2SF 0) with (S754_zero false) in H.
  unfold B64.Series_sum, B64.fillna. cbn [fmap list_fmap fold_left].
  rewrite !isnan_Prim2SF.
  apply Prim2SF_inj.
  destruct (Prim2SF a) as [sa|sa| |sa ma ea] eqn:Ea;
    destruct (Prim2SF b) as [sb|sb| |sb mb eb] eqn:Eb;
    try (by destruct sa, sb);
    rewrite !FloatAxioms.add_spec, ?Ea, ?Eb;
    change (Prim2SF 0) with (S754_zero false); try done.
  all: by destruct sa.
Qed.

(** C7, as stated, fails: the code divides first and multiplies then, and
    [(a / S) * T] is not [T * a / S] on binary64.  For the values 1 and 9
    and the total 3 the first facility receives 0.30000000000000004, and
    [3 * 1 / 10] is 0.3 (0.29999999999999999). *)
Lemma allocation_not_total_times_share :
  (B64.allocated_fac_emissions [1; 9] 3
   = [0.30000000000000004; 2.7000000000000002]
   ∧ [3 * 1 / (1 + 9); 3 * 9 / (1 + 9)]
     = [0.29999999999999999; 2.7000000000000002]
   ∧ B64.allocated_fac_emissions [1; 9] 3
     ≠ [3 * 1 / (1 + 9); 3 * 9 / (1 + 9)])%float.
Proof.
  split_and!; [vm_compute; reflexivity..|].
  apply (bool_decide_unpack _). by vm_compute.
Qed.

(** C7, amended: for every two-element input [a, b] whose binary64 sum
    [S = a + b] is positive and every total [T], the allocator returns
    exactly [(a / S) * T, (b / S) * T], the quotient and the product each
    rounded to binary64, with 0 in the place of a NaN. *)
Theorem allocation_share_times_total (a b T : B64.binary64) :
  PrimFloat.ltb 0 (PrimFloat.add a b) = true →
  B64.allocated_fac_emissions [a; b] T
  = [B64.fillna 0 (PrimFloat.mul (PrimFloat.div a (PrimFloat.add a b)) T);
     B64.fillna 0 (PrimFloat.mul (PrimFloat.div b (PrimFloat.add a b)) T)].
Proof.
  intros H. unfold B64.allocated_fac_emissions.
  by rewrite (Series_sum_two _ _ H).
Qed.

Lemma allocation_share_times_total_example :
  (PrimFloat.ltb 0 (1 + 3) = true
   ∧ B64.allocated_fac_emissions [1; 3] 8
     = [B64.fillna 0 (1 / (1 + 3) * 8); B64.fillna 0 (3 / (1 + 3) * 8)])%float.
Proof.
  assert (H : (PrimFloat.ltb 0 (1 + 3) = true)%float) by (by vm_compute).
  split; [done|].
  exact (allocation_share_times_total 1%float 3%float 8%float H).
Defined.

(** ** Rounding to binary64 *)

Lemma digits2_pos_size (p : positive) : digits2_pos p = Pos.size p.
Proof. induction p as [p IH|p IH|]; cbn; by rewrite ?IH. Qed.

Lemma Zdigits2_log2 (p : positive) :
  Zdigits2 (Z.pos p) = (Z.log2 (Z.pos p) + 1)%Z.
Proof.
  cbn [Zdigits2]. rewrite digits2_pos_size.
  destruct p as [p|p|]; cbn [Pos.size Z.log2]; lia.
Qed.

Lemma shr_1_m (mrs : shr_record) :
  (0 ≤ shr_m mrs)%Z → shr_m (shr_1 mrs) = Z.div2 (shr_m mrs).
Proof.
  destruct mrs as [[|[p|p|]|p] r s]; cbn; intros H; try done; lia.
Qed.

Lemma iter_pos_iter {A} (f : A → A) (n : positive) (x : A) :
  SpecFloat.iter_pos f n x = Pos.iter f x n.
Proof.
  revert x. induction n as [n IH|n IH|]; intros x; cbn; [|by rewrite !IH|done].
  by rewrite !IH, !Pos.iter_swap.
Qed.

Lemma iter_shr_1_m (n : positive) (mrs : shr_record) :
  (0 ≤ shr_m mrs)%Z →
  shr_m (SpecFloat.iter_pos shr_1 n mrs) = Z.shiftr (shr_m mrs) (Z.pos n).
Proof.
  intros H0. rewrite iter_pos_iter. apply Pos.iter_ind.
  - rewrite shr_1_m by done. apply Z.div2_spec.
  - intros p a Ha. rewrite shr_1_m.
    + rewrite Ha, Z.div2_spec, Z.shiftr_shiftr by lia. f_equal. lia.
    + rewrite Ha. by apply Z.shiftr_nonneg.
Qed.

Lemma Z_shiftr_pos (a n : Z) :
  (0 < a)%Z → (n ≤ Z.log2 a)%Z → (0 < Z.shiftr a n)%Z.
Proof.
  intros Ha Hn.
  assert (H0 : (0 ≤ Z.shiftr a n)%Z) by (apply Z.shiftr_nonneg; lia).
  assert (H1 : Z.shiftr a n ≠ 0%Z).
  { intros E. apply Z.shiftr_eq_0_iff in E as [E|[_ E]]; lia. }
  lia.
Qed.

Lemma round_nearest_even_cases (m : Z) (l : location) :
  round_nearest_even m l = m ∨ round_nearest_even m l = (m + 1)%Z.
Proof.
  unfold round_nearest_even. destruct l as [|[]]; try (by left); try (by right).
  destruct (Z.even m); [by left|by right].
Qed.

(** The first step of the rounding of [m * 2^e], for a mantissa of more than
    [emin] + 53 - [e] digits: the digits beyond the first 53 are shifted
    out. *)
Lemma shr_fexp_normal (m e : Z) (l : location) :
  (0 < m)%Z → (1 ≤ Z.log2 m + 1 + e)%Z →
  ∃ mrs,
    shr_fexp prec emax m e l = (mrs, (e + Z.max 0 (Z.log2 m - 52))%Z)
    ∧ shr_m mrs = Z.shiftr m (Z.max 0 (Z.log2 m - 52)).
Proof.
  intros Hm He. destruct m as [|p|p]; [lia| |lia].
  unfold shr_fexp. rewrite Zdigits2_log2.
  assert (Ef : fexp prec emax (Z.log2 (Z.pos p) + 1 + e)
               = (Z.log2 (Z.pos p) - 52 + e)%Z).
  { unfold fexp, SpecFloat.emin. change prec with 53%Z.
    change emax with 1024%Z. lia. }
  rewrite Ef.
  replace (Z.log2 (Z.pos p) - 52 + e - e)%Z with (Z.log2 (Z.pos p) - 52)%Z
    by lia.
  destruct (Z.log2 (Z.pos p) - 52)%Z as [|n|n] eqn:En; cbn [shr].
  - exists (shr_record_of_loc (Z.pos p) l). change (Z.max 0 0) with 0%Z.
    split; [by rewrite Z.add_0_r|]. by destruct l as [|[]].
  - exists (SpecFloat.iter_pos shr_1 n (shr_record_of_loc (Z.pos p) l)).
    change (Z.max 0 (Z.pos n)) with (Z.pos n).
    split; [done|].
    rewrite iter_shr_1_m by (by destruct l as [|[]]).
    by destruct l as [|[]].
  - exists (shr_record_of_loc (Z.pos p) l). change (Z.max 0 (Z.neg n)) with 0%Z.
    split; [by rewrite Z.add_0_r|]. by destruct l as [|[]].
Qed.

(** The rounding of [m * 2^e], of magnitude at least 1: the result is an
    infinity or a finite value of at least that magnitude, and the exponent
    grows by the number of digits shifted out, and by one more when the
    rounding carries. *)
Lemma binary_round_aux_big (s : bool) (p : positive) (e : Z) (l : location) :
  (1 ≤ Z.log2 (Z.pos p) + 1 + e)%Z →
  ∃ (m3 : positive) (e3 : Z),
    (e + Z.max 0 (Z.log2 (Z.pos p) - 52) ≤ e3
     ≤ e + Z.max 0 (Z.log2 (Z.pos p) - 52) + 1)%Z
    ∧ (Z.log2 (Z.pos p) + e ≤ Z.log2 (Z.pos m3) + e3)%Z
    ∧ (52 ≤ Z.log2 (Z.pos p) → Z.log2 (Z.pos m3) = 52)%Z
    ∧ binary_round_aux prec emax s (Z.pos p) e l
      = if (e3 <=? emax - prec)%Z then S754_finite s m3 e3
        else S754_infinity s.
Proof.
  intros He. unfold binary_round_aux.
  set (n := Z.max 0 (Z.log2 (Z.pos p) - 52)).
  destruct (shr_fexp_normal (Z.pos p) e l) as (mrs1 & -> & Hm1); [lia|done|].
  fold n in Hm1 |- *.
  set (m1 := shr_m mrs1) in *.
  assert (Hn : (0 ≤ n ≤ Z.log2 (Z.pos p))%Z).
  { pose proof (Z.log2_nonneg (Z.pos p)). lia. }
  assert (Hl1 : Z.log2 m1 = (Z.log2 (Z.pos p) - n)%Z).
  { rewrite Hm1, Z.log2_shiftr by lia. lia. }
  assert (Hp1 : (0 < m1)%Z).
  { rewrite Hm1. apply Z_shiftr_pos; lia. }
  set (m2 := round_nearest_even m1 (loc_of_shr_record mrs1)).
  assert (Hm2 : (0 < m2)%Z ∧ (Z.log2 m1 ≤ Z.log2 m2 ≤ Z.log2 m1 + 1)%Z).
  { destruct (round_nearest_even_cases m1 (loc_of_shr_record mrs1)) as [E|E];
      fold m2 in E; rewrite E.
    - lia.
    - split; [lia|]. rewrite Z.add_1_r.
      pose proof (Z.log2_succ_le m1).
      pose proof (Z.log2_le_mono m1 (Z.succ m1)). lia. }
  destruct Hm2 as [Hp2 Hl2].
  destruct (shr_fexp_normal m2 (e + n) loc_Exact) as (mrs2 & -> & Hm3);
    [done|lia|].
  set (n2 := Z.max 0 (Z.log2 m2 - 52)) in *.
  assert (Hn2 : (0 ≤ n2 ≤ 1)%Z) by lia.
  assert (Hp3 : (0 < shr_m mrs2)%Z).
  { rewrite Hm3. apply Z_shiftr_pos; lia. }
  assert (Hl3 : Z.log2 (shr_m mrs2) = (Z.log2 m2 - n2)%Z).
  { rewrite Hm3, Z.log2_shiftr by lia. lia. }
  destruct (shr_m mrs2) as [|m3|m3]; [lia| |lia].
  exists m3, (e + n + n2)%Z. split; [lia|]. split; [lia|]. split; [lia|done].
Qed.

Lemma SFmul_big (x y : spec_float) :
  sf_big x → sf_big y → sf_big (SF64mul x y).
Proof.
  destruct x as [sx|sx| |sx mx ex], y as [sy|sy| |sy my ey];
    cbn [sf_big]; intros Hx Hy; try done.
  unfold SF64mul. cbn [SFmul].
  pose proof (Z.log2_mul_below (Z.pos mx) (Z.pos my)) as Hlog.
  destruct (binary_round_aux_big (xorb sx sy) (mx * my) (ex + ey) loc_Exact)
    as (m3 & e3 & He3 & Hl3 & _ & ->).
  - rewrite Pos2Z.inj_mul. lia.
  - destruct (e3 <=? emax - prec)%Z; [|done]. cbn [sf_big].
    rewrite Pos2Z.inj_mul in Hl3. lia.
Qed.

Lemma sf_big_not_zero (x : B64.binary64) :
  sf_big (Prim2SF x) → PrimFloat.eqb x 0 = false.
Proof.
  rewrite FloatAxioms.eqb_spec. change (Prim2SF 0) with (S754_zero false).
  destruct (Prim2SF x) as [s|s| |s m e]; try destruct s; by cbn.
Qed.

(** *** Python ints as floats *)

Lemma Zpos_iter_xO (p d : positive) :
  Z.pos (Pos.iter xO p d) = (Z.pos p * 2 ^ Z.pos d)%Z.
Proof.
  apply Pos.iter_ind.
  - lia.
  - intros q a Ha. rewrite Pos2Z.inj_xO, Ha, Pos2Z.inj_succ, Z.pow_succ_r by lia.
    lia.
Qed.

(** The binary64 value of a non-zero integer [n]: an integer of at most
    1023 binary digits has one, which is finite and of magnitude at least 1;
    an integer of at least 1025 binary digits has none. *)
Lemma binary_normalize_int (n : Z) :
  n ≠ 0%Z →
  ∃ (m3 : positive) (e3 : Z),
    (Z.log2 (Z.abs n) - 52 ≤ e3 ≤ Z.log2 (Z.abs n) - 51)%Z
    ∧ Z.log2 (Z.pos m3) = 52%Z
    ∧ binary_normalize prec emax n 0 false
      = if (e3 <=? emax - prec)%Z then S754_finite (bool_decide (n < 0)%Z) m3 e3
        else S754_infinity (bool_decide (n < 0)%Z).
Proof.
  intros Hn.
  assert (H : ∀ (s : bool) (p : positive),
             ∃ (m3 : positive) (e3 : Z),
               (Z.log2 (Z.pos p) - 52 ≤ e3 ≤ Z.log2 (Z.pos p) - 51)%Z
               ∧ Z.log2 (Z.pos m3) = 52%Z
               ∧ binary_round prec emax s p 0
                 = if (e3 <=? emax - prec)%Z then S754_finite s m3 e3
                   else S754_infinity s).
  { intros s p. unfold binary_round.
    replace (Z.pos (digits2_pos p) + 0)%Z with (Zdigits2 (Z.pos p))
      by (cbn [Zdigits2]; lia).
    rewrite Zdigits2_log2.
    pose proof (Z.log2_nonneg (Z.pos p)) as Hl.
    assert (Ef : fexp prec emax (Z.log2 (Z.pos p) + 1)
                 = (Z.log2 (Z.pos p) - 52)%Z).
    { unfold fexp, SpecFloat.emin. change prec with 53%Z.
      change emax with 1024%Z. lia. }
    rewrite Ef. unfold shl_align.
    replace (Z.log2 (Z.pos p) - 52 - 0)%Z with (Z.log2 (Z.pos p) - 52)%Z by lia.
    destruct (Z.log2 (Z.pos p) - 52)%Z as [|d|d] eqn:Ed.
    - destruct (binary_round_aux_big s p 0 loc_Exact)
        as (m3 & e3 & He3 & Hl3 & H52 & ->); [lia|].
      exists m3, e3. split; [lia|]. split; [apply H52; lia|done].
    - destruct (binary_round_aux_big s p 0 loc_Exact)
        as (m3 & e3 & He3 & Hl3 & H52 & ->); [lia|].
      exists m3, e3. split; [lia|]. split; [apply H52; lia|done].
    - assert (El : Z.log2 (Z.pos (Pos.iter xO p d)) = 52%Z).
      { rewrite Zpos_iter_xO, Z.log2_mul_pow2 by lia. lia. }
      destruct (binary_round_aux_big s (Pos.iter xO p d) (Z.neg d) loc_Exact)
        as (m3 & e3 & He3 & Hl3 & H52 & ->); [lia|].
      exists m3, e3. rewrite El in He3. split; [lia|].
      split; [apply H52; lia|done]. }
  destruct n as [|p|p]; [done|..]; cbn [binary_normalize Z.abs].
  - rewrite bool_decide_eq_false_2 by lia. apply H.
  - rewrite bool_decide_eq_true_2 by lia. apply H.
Qed.

Lemma float_of_int_cases (n : Z) :
  n ≠ 0%Z →
  match B64.float_of_int n with
  | Ok days =>
      (Z.abs n < 2 ^ 1024)%Z ∧ sf_big (Prim2SF days)
      ∧ (sf_plus (Prim2SF days) ↔ (0 < n)%Z)
  | Raise e => e = OverflowError ∧ (2 ^ 1023 ≤ Z.abs n)%Z
  end.
Proof.
  intros Hn. unfold B64.float_of_int.
  destruct (binary_normalize_int n Hn) as (m3 & e3 & He3 & Hl3 & ->).
  assert (Habs : (0 < Z.abs n)%Z) by lia.
  pose proof (Z.log2_nonneg (Z.abs n)) as Hlog.
  change (emax - prec)%Z with 971%Z.
  destruct (e3 <=? 971)%Z eqn:Ee.
  - apply Z.leb_le in Ee. rewrite Prim2SF_SF2Prim.
    + cbn [sf_big sf_plus]. split_and!.
      * apply Z.log2_lt_pow2; lia.
      * lia.
      * case_bool_decide; split; (done || lia).
    + cbn [SpecFloat.valid_binary]. unfold bounded, canonical_mantissa.
      apply andb_true_iff. split; [|by apply Z.leb_le].
      apply Z.eqb_eq.
      replace (Z.pos (digits2_pos m3)) with (Zdigits2 (Z.pos m3)) by done.
      rewrite Zdigits2_log2, Hl3. unfold fexp, SpecFloat.emin.
      change prec with 53%Z. change emax with 1024%Z. lia.
  - apply Z.leb_gt in Ee. split; [done|].
    apply Z.log2_le_pow2; lia.
Qed.

(** ** Rasterisation on binary64 *)

Section B64_rasterize_facts.

Variable ARR_SHAPE : nat * nat.
Variable cell_index : point → Z * Z.

Lemma B64_burn_has_shape alg g s :
  has_shape ARR_SHAPE g →
  has_shape ARR_SHAPE (B64.burn ARR_SHAPE cell_index alg g s).
Proof.
  intros Hg. unfold B64.burn. cbv zeta. case_decide; [|done].
  by apply has_shape_alter.
Qed.

Lemma B64_fold_burn_has_shape alg shapes g :
  has_shape ARR_SHAPE g →
  has_shape ARR_SHAPE (fold_left (B64.burn ARR_SHAPE cell_index alg) shapes g).
Proof.
  revert g. induction shapes as [|s shapes IH]; intros g Hg; [done|].
  simpl. by apply IH, B64_burn_has_shape.
Qed.

Lemma B64_burn_add_cell g (s : point * B64.binary64) r c :
  (r < ARR_SHAPE.1)%nat → (c < ARR_SHAPE.2)%nat →
  cell (B64.burn ARR_SHAPE cell_index add g s) r c
  = (λ old, if decide (falls_in cell_index r c (Some s.1, s.2))
            then PrimFloat.add old s.2 else old)
      <$> cell g r c.
Proof.
  intros Hr Hc. unfold B64.burn. destruct s as [p v]; cbn [fst snd].
  cbv zeta.
  destruct (decide (falls_in cell_index r c (Some p, v))) as [Hf|Hf];
    unfold falls_in in Hf; cbn in Hf.
  - injection Hf as Hf. rewrite Hf.
    rewrite decide_True by (unfold in_grid; simpl; lia).
    cbn [fst snd]. by rewrite !Nat2Z.id, cell_alter_eq.
  - case_decide as Hin; [|by destruct (cell g r c)].
    rewrite cell_alter_ne; [by destruct (cell g r c)|].
    intros [= E1 E2]. apply Hf. f_equal. destruct Hin as [H1 H2].
    destruct (cell_index p) as [zr zc]; simpl in *. f_equal; lia.
Qed.

Lemma B64_fold_burn_cell (valid : list (point * B64.binary64)) g r c :
  (r < ARR_SHAPE.1)%nat → (c < ARR_SHAPE.2)%nat →
  cell (fold_left (B64.burn ARR_SHAPE cell_index add) valid g) r c
  = (λ old, fold_left PrimFloat.add
              (snd <$> filter (falls_in cell_index r c)
                         ((λ s, (Some s.1, s.2)) <$> valid)) old)
      <$> cell g r c.
Proof.
  intros Hr Hc. revert g. induction valid as [|s valid IH]; intros g.
  - simpl. by destruct (cell g r c).
  - cbn [fold_left]. rewrite IH, B64_burn_add_cell by done.
    destruct (cell g r c) as [old|]; [|done]. simpl. f_equal.
    case_decide.
    + by rewrite filter_cons_True.
    + by rewrite filter_cons_False.
Qed.

Lemma valid_shapes_Ok (shapes : list (option point * B64.binary64)) valid :
  mapM B64.valid_shape shapes = Ok valid →
  shapes = (λ s, (Some s.1, s.2)) <$> valid.
Proof.
  intros E. apply mapM_result_Ok in E.
  induction E as [|[[p|] v] s shapes valid Hs _ IH]; [done|..].
  - injection Hs as <-. cbn. by rewrite IH.
  - done.
Qed.

Lemma valid_shapes_Raise (shapes : list (option point * B64.binary64)) e :
  mapM B64.valid_shape shapes = Raise e →
  e = IndexError ∧ Exists (λ s, s.1 = None) shapes.
Proof.
  intros E. apply mapM_result_Raise in E as ([[p|] v] & Hs & E); [done|].
  injection E as <-. split; [done|]. apply Exists_exists. by eexists.
Qed.

Lemma valid_shapes_Some (shapes : list (option point * B64.binary64)) :
  Forall (λ s, is_Some s.1) shapes →
  ∃ valid, mapM B64.valid_shape shapes = Ok valid.
Proof.
  intros H. destruct (mapM B64.valid_shape shapes) as [valid|e] eqn:E; [by eexists|].
  apply valid_shapes_Raise in E as [_ (s & Hs & Hnone)%Exists_exists].
  pose proof (proj1 (Forall_forall _ _) H s Hs) as [p Hp]. congruence.
Qed.

(** The raster of a non-empty sequence of features that all have a point. *)
Lemma B64_rasterize_Ok (shapes : list (option point * B64.binary64)) :
  shapes ≠ [] → Forall (λ s, is_Some s.1) shapes →
  ∃ raster,
    B64.rasterize ARR_SHAPE cell_index shapes 0 add = Ok raster
    ∧ has_shape ARR_SHAPE raster
    ∧ ∀ r c, (r < ARR_SHAPE.1)%nat → (c < ARR_SHAPE.2)%nat →
             cell raster r c = Some (cell_sum cell_index shapes r c).
Proof.
  intros Hne Hsome. unfold B64.rasterize.
  destruct (valid_shapes_Some _ Hsome) as [valid E]. rewrite E.
  cbn [mbind result_bind]. apply valid_shapes_Ok in E.
  destruct valid as [|s valid]; [by subst|].
  eexists. split; [done|]. split.
  - apply B64_fold_burn_has_shape, has_shape_replicate.
  - intros r c Hr Hc. rewrite B64_fold_burn_cell by done.
    rewrite cell_replicate by done. cbn [fmap option_fmap option_map].
    unfold cell_sum. by rewrite E.
Qed.

Lemma B64_rasterize_cases (shapes : list (option point * B64.binary64)) :
  match B64.rasterize ARR_SHAPE cell_index shapes 0 add with
  | Ok raster =>
      shapes ≠ [] ∧ Forall (λ s, is_Some s.1) shapes
      ∧ has_shape ARR_SHAPE raster
      ∧ ∀ r c, (r < ARR_SHAPE.1)%nat → (c < ARR_SHAPE.2)%nat →
               cell raster r c = Some (cell_sum cell_index shapes r c)
  | Raise e =>
      (e = ValueError ∧ shapes = [])
      ∨ (e = IndexError ∧ Exists (λ s, s.1 = None) shapes)
  end.
Proof.
  destruct (decide (shapes = [])) as [->|Hne]; [by left|].
  destruct (decide (Forall (λ s : option point * B64.binary64, is_Some s.1)
                      shapes)) as [Hsome|Hnone].
  - destruct (B64_rasterize_Ok shapes Hne Hsome) as (raster & -> & Hs & Hc).
    done.
  - unfold B64.rasterize.
    destruct (mapM B64.valid_shape shapes) as [valid|e] eqn:E.
    + exfalso. apply Hnone. apply valid_shapes_Ok in E as ->.
      apply Forall_fmap, Forall_true. intros s. by eexists.
    + right. by apply valid_shapes_Raise.
Qed.

(** C3, amended: for every sequence of (point, value) features, the
    rasterisation with [fill=0] and [merge_alg=add] raises [ValueError] when
    the sequence is empty and [IndexError] when a feature has an empty
    point.  Otherwise it returns a grid of the fixed shape in which the value
    of each cell is the binary64 sum of the values of the features whose
    point falls in that cell, added to 0 one after the other in the order of
    the features; a cell in which no feature falls is exactly 0; and a
    permutation of the features that keeps, in every cell, the order of the
    features of the cell does not change the result. *)
Theorem rasterize_adds_in_order (shapes : list (option point * B64.binary64)) :
  match B64.rasterize ARR_SHAPE cell_index shapes 0 add with
  | Ok raster =>
      shapes ≠ [] ∧ Forall (λ s, is_Some s.1) shapes
      ∧ has_shape ARR_SHAPE raster
      ∧ (∀ r c, (r < ARR_SHAPE.1)%nat → (c < ARR_SHAPE.2)%nat →
                cell raster r c
                = Some (fold_left PrimFloat.add
                          (snd <$> filter (falls_in cell_index r c) shapes)
                          0%float))
      ∧ (∀ r c, (r < ARR_SHAPE.1)%nat → (c < ARR_SHAPE.2)%nat →
                Forall (λ s, ¬ falls_in cell_index r c s) shapes →
                cell raster r c = Some 0%float)
      ∧ (∀ shapes',
           shapes' ≡ₚ shapes →
           (∀ r c, (r < ARR_SHAPE.1)%nat → (c < ARR_SHAPE.2)%nat →
                   filter (falls_in cell_index r c) shapes'
                   = filter (falls_in cell_index r c) shapes) →
           B64.rasterize ARR_SHAPE cell_index shapes' 0 add = Ok raster)
  | Raise e =>
      (e = ValueError ∧ shapes = [])
      ∨ (e = IndexError ∧ Exists (λ s, s.1 = None) shapes)
  end.
Proof.
  pose proof (B64_rasterize_cases shapes) as H.
  destruct (B64.rasterize ARR_SHAPE cell_index shapes 0 add) as [raster|e];
    [|done].
  destruct H as (Hne & Hsome & Hshape & Hcell). split_and!; try done.
  - intros r c Hr Hc Hno. rewrite Hcell by done. unfold cell_sum.
    by rewrite (filter_nil_Forall _ _ Hno).
  - intros shapes' Hperm Hsame.
    destruct (B64_rasterize_Ok shapes') as (raster' & -> & Hshape' & Hcell').
    + intros ->. by apply Permutation_nil_l in Hperm.
    + by rewrite Hperm.
    + f_equal. apply (array2_eq ARR_SHAPE); [done..|].
      intros r c Hr Hc. rewrite Hcell, Hcell' by done.
      unfold cell_sum. by rewrite Hsame.
Qed.

End B64_rasterize_facts.

(** C3, as stated, fails on binary64, on an empty sequence and on an empty
    point.  The three values 0.1, 0.2 and 0.3 of one cell add up to
    0.6000000000000001 in this order and to 0.6 in the reverse order; the
    rasterisation of no feature raises [ValueError] and returns no grid; and
    a feature with an empty point makes it raise [IndexError]. *)
Lemma rasterize_order_matters :
  B64.rasterize unit_shape unit_cell_index three_in_one_cell 0 add
  = Ok [[0.60000000000000009; 0]; [0; 0]]%float
  ∧ B64.rasterize unit_shape unit_cell_index (reverse three_in_one_cell) 0 add
    = Ok [[0.59999999999999998; 0]; [0; 0]]%float
  ∧ reverse three_in_one_cell ≡ₚ three_in_one_cell
  ∧ B64.rasterize unit_shape unit_cell_index (reverse three_in_one_cell) 0 add
    ≠ B64.rasterize unit_shape unit_cell_index three_in_one_cell 0 add
  ∧ B64.rasterize unit_shape unit_cell_index [] 0 add = Raise ValueError
  ∧ B64.rasterize unit_shape unit_cell_index
      [(Some (Qc_of_Z 0, Qc_of_Z 0), 1%float); (None, 2%float)] 0 add
    = Raise IndexError.
Proof.
  split_and!; try (vm_compute; reflexivity).
  - apply reverse_Permutation.
  - apply (bool_decide_unpack _). by vm_compute.
Qed.

(** ** Conversion factor on binary64 *)

Lemma calc_conversion_factor_eq (year_days : Z) (area_matrix : B64.array2) :
  B64.calc_conversion_factor year_days area_matrix
  = days ← B64.float_of_int year_days;
    if PrimFloat.eqb (seconds days) 0 then Raise ZeroDivisionError
    else Ok (array_map (λ area, PrimFloat.div (per_area days) area)
               area_matrix).
Proof. done. Qed.

Lemma seconds_big (days : B64.binary64) :
  sf_big (Prim2SF days) → sf_big (Prim2SF (seconds days)).
Proof.
  intros H. unfold seconds. rewrite !FloatAxioms.mul_spec.
  repeat apply SFmul_big; try done; by vm_compute.
Qed.

(** The call returns for every non-zero day count that has a binary64
    value. *)
Lemma calc_conversion_factor_Ok (year_days : Z) (days : B64.binary64)
    (area_matrix : B64.array2) :
  year_days ≠ 0%Z → B64.float_of_int year_days = Ok days →
  B64.calc_conversion_factor year_days area_matrix
  = Ok (array_map (λ area, PrimFloat.div (per_area days) area) area_matrix).
Proof.
  intros Hn E. rewrite calc_conversion_factor_eq, E. cbn [mbind result_bind].
  pose proof (float_of_int_cases year_days Hn) as H. rewrite E in H.
  destruct H as (_ & Hbig & _).
  by rewrite (sf_big_not_zero _ (seconds_big _ Hbig)).
Qed.

Lemma float_of_int_Ok (n : Z) :
  (Z.abs n < 2 ^ 1023)%Z → ∃ days, B64.float_of_int n = Ok days.
Proof.
  intros Hn. destruct (decide (n = 0%Z)) as [->|H0]; [by eexists|].
  pose proof (float_of_int_cases n H0) as H.
  destruct (B64.float_of_int n) as [days|e]; [by eexists|].
  destruct H as [_ H]. lia.
Qed.

(** C4, as stated, fails on binary64: the code multiplies and divides in its
    own order, with [10 ** 23] and the seconds of a day as separate factors,
    and does not return the value of the expression of the claim.  For 365
    days and a cell area of 1e8 the code returns 11905289750794246, and
    [1e9 * 6.02214129e23 / (16.04 * 365 * 86400) / 1e8] is
    11905289750794248. *)
Lemma calc_conversion_factor_not_the_formula :
  (B64.calc_conversion_factor 365 [[1e8]] = Ok [[11905289750794246]]
   ∧ 1e9 * 6.02214129e23 / (16.04 * 365 * 86400) / 1e8 = 11905289750794248
   ∧ B64.calc_conversion_factor 365 [[1e8]]
     ≠ Ok [[1e9 * 6.02214129e23 / (16.04 * 365 * 86400) / 1e8]])%float.
Proof.
  split_and!; [vm_compute; reflexivity..|].
  apply (bool_decide_unpack _). by vm_compute.
Qed.

(** C4, amended: for every positive integer [days_in_year] below 2^1023 and
    every cell-area matrix, the conversion utility returns, per cell,
    [1e9 * (6.02214129 * 1e23) / (16.04 * days * 24 * 60 * 60) / cell_area],
    where [days] is the binary64 value nearest to [days_in_year], the
    operations are the binary64 ones and are done from left to right. *)
Theorem calc_conversion_factor_formula (days_in_year : Z)
    (area_matrix : B64.array2) :
  (0 < days_in_year < 2 ^ 1023)%Z →
  ∃ days factor,
    B64.float_of_int days_in_year = Ok days
    ∧ B64.calc_conversion_factor days_in_year area_matrix = Ok factor
    ∧ factor
      = array_map (λ cell_area,
                     1e9 * (6.02214129 * 1e23) / (16.04 * days * 24 * 60 * 60)
                     / cell_area)%float
          area_matrix
    ∧ ∀ r c,
        cell factor r c
        = (λ cell_area,
             1e9 * (6.02214129 * 1e23) / (16.04 * days * 24 * 60 * 60)
             / cell_area)%float
            <$> cell area_matrix r c.
Proof.
  intros Hd. destruct (float_of_int_Ok days_in_year) as [days E]; [lia|].
  exists days. eexists. split; [done|]. split.
  - apply calc_conversion_factor_Ok; [lia|done].
  - split; [done|]. intros r c. by rewrite cell_array_map.
Qed.

Lemma calc_conversion_factor_formula_example :
  (0 < 365 < 2 ^ 1023)%Z
  ∧ ∃ days factor,
      B64.float_of_int 365 = Ok days
      ∧ B64.calc_conversion_factor 365 [[1e8; 2e8]%float] = Ok factor
      ∧ factor
        = array_map (λ cell_area,
                       1e9 * (6.02214129 * 1e23)
                       / (16.04 * days * 24 * 60 * 60) / cell_area)%float
            [[1e8; 2e8]%float]
      ∧ ∀ r c,
          cell factor r c
          = (λ cell_area,
               1e9 * (6.02214129 * 1e23) / (16.04 * days * 24 * 60 * 60)
               / cell_area)%float
              <$> cell [[1e8; 2e8]%float] r c.
Proof.
  assert (H : (0 < 365 < 2 ^ 1023)%Z) by (by vm_compute).
  split; [exact H|].
  exact (calc_conversion_factor_formula 365 [[1e8; 2e8]%float] H).
Defined.



(** ** The gap between the state totals and the gridded mass *)


Section B64_gap_facts.

Variable ARR_SHAPE : nat * nat.
Variable cell_index : point → Z * Z.


End B64_gap_facts.


(** * Properties of the code beyond the specification *)

(** ** Conversion factor: errors and degenerate cells *)

(** X1: [calc_conversion_factor] raises [ZeroDivisionError] exactly for the
    day count 0, and [OverflowError] for a day count that has no binary64
    value, which no day count below 2^1023 in absolute value is and every
    day count from 2^1024 on is; it returns for every other one, whatever the
    area matrix. *)
Theorem calc_conversion_factor_raises (year_days : Z)
    (area_matrix : B64.array2) :
  match B64.calc_conversion_factor year_days area_matrix with
  | Ok factor => year_days ≠ 0%Z ∧ (Z.abs year_days < 2 ^ 1024)%Z
  | Raise e =>
      (e = ZeroDivisionError ∧ year_days = 0%Z)
      ∨ (e = OverflowError ∧ (2 ^ 1023 ≤ Z.abs year_days)%Z)
  end.
Proof.
  destruct (decide (year_days = 0%Z)) as [->|Hn]; [by left|].
  pose proof (float_of_int_cases year_days Hn) as H.
  destruct (B64.float_of_int year_days) as [days|e] eqn:E.
  - rewrite (calc_conversion_factor_Ok _ days) by done. by destruct H.
  - rewrite calc_conversion_factor_eq, E. by right.
Qed.

(** X2: where the cell area is degenerate the factor is degenerate too, and
    nothing is raised.  For a day count whose factor before the division is
    a positive finite number, as it is for 365 and 366 days, the factor of a
    cell of area +0 is plus infinity, of area -0 minus infinity, of area NaN
    NaN, and of an infinite area a zero of the sign of the area. *)
Theorem calc_conversion_factor_degenerate_area (year_days : Z)
    (days : B64.binary64) (area_matrix : B64.array2) (r c : nat)
    (area : B64.binary64) :
  year_days ≠ 0%Z →
  B64.float_of_int year_days = Ok days →
  positive_finite (per_area days) →
  cell area_matrix r c = Some area →
  ∃ factor f,
    B64.calc_conversion_factor year_days area_matrix = Ok factor
    ∧ cell factor r c = Some f
    ∧ (area = 0%float → f = PrimFloat.infinity)
    ∧ (area = (-0)%float → f = PrimFloat.neg_infinity)
    ∧ (B64.isnan area = true → B64.isnan f = true)
    ∧ (area = PrimFloat.infinity → f = 0%float)
    ∧ (area = PrimFloat.neg_infinity → f = (-0)%float).
Proof.
  intros Hn E [HK1 HK2] Hcell.
  eexists. exists (PrimFloat.div (per_area days) area).
  split; [by apply calc_conversion_factor_Ok|].
  split; [by rewrite cell_array_map, Hcell|].
  rewrite FloatAxioms.ltb_spec in HK1, HK2.
  change (Prim2SF 0) with (S754_zero false) in HK1.
  change (Prim2SF PrimFloat.infinity) with (S754_infinity false) in HK2.
  assert (HK : ∃ m e, Prim2SF (per_area days) = S754_finite false m e).
  { destruct (Prim2SF (per_area days)) as [s|s| |s m e];
      try destruct s; try done. by eexists _, _. }
  destruct HK as (m & e & HK).
  split_and!.
  - intros ->. apply Prim2SF_inj. by rewrite FloatAxioms.div_spec, HK.
  - intros ->. apply Prim2SF_inj. by rewrite FloatAxioms.div_spec, HK.
  - rewrite !isnan_Prim2SF, FloatAxioms.div_spec, HK.
    by destruct (Prim2SF area).
  - intros ->. apply Prim2SF_inj. by rewrite FloatAxioms.div_spec, HK.
  - intros ->. apply Prim2SF_inj. by rewrite FloatAxioms.div_spec, HK.
Qed.

Lemma calc_conversion_factor_degenerate_area_example :
  (365 ≠ 0)%Z
  ∧ B64.float_of_int 365 = Ok 365%float
  ∧ positive_finite (per_area 365%float)
  ∧ cell [[1e8; 0]%float] 0 1 = Some 0%float
  ∧ ∃ factor f,
      B64.calc_conversion_factor 365 [[1e8; 0]%float] = Ok factor
      ∧ cell factor 0 1 = Some f
      ∧ (0%float = 0%float → f = PrimFloat.infinity)
      ∧ (0%float = (-0)%float → f = PrimFloat.neg_infinity)
      ∧ (B64.isnan 0%float = true → B64.isnan f = true)
      ∧ (0%float = PrimFloat.infinity → f = 0%float)
      ∧ (0%float = PrimFloat.neg_infinity → f = (-0)%float).
Proof.
  assert (H1 : (365 ≠ 0)%Z) by done.
  assert (H2 : B64.float_of_int 365 = Ok 365%float) by (vm_compute; reflexivity).
  assert (H3 : positive_finite (per_area 365%float)) by (by vm_compute).
  assert (H4 : cell [[1e8; 0]%float] 0 1 = Some 0%float) by done.
  split_and!; [done..|].
  exact (calc_conversion_factor_degenerate_area 365 365%float [[1e8; 0]%float]
           0 1 0%float H1 H2 H3 H4).
Defined.

(** ** GeoTIFF output *)

Lemma has_shape_same shp (a b : array2) :
  has_shape shp a → has_shape shp b → has_shape (array_shape a) b.
Proof.
  intros [Hla Hra] [Hlb Hrb]. split; [cbn; congruence|].
  destruct a as [|row a].
  - cbn in *. destruct b; [done|]. cbn in Hlb. congruence.
  - apply Forall_cons in Hra as [Hrow _]. cbn.
    eapply Forall_impl; [exact Hrb|]. intros r Hlen. cbv beta in *. congruence.
Qed.

Lemma np_stack_Ok (arrays : list array2) shp :
  arrays ≠ [] → Forall (has_shape shp) arrays → np_stack arrays = Ok arrays.
Proof.
  intros Hne Hall. destruct arrays as [|a arrays]; [done|].
  unfold np_stack. rewrite decide_True; [done|].
  pose proof (Forall_inv Hall) as Ha.
  eapply Forall_impl; [exact Hall|]. intros b Hb. by eapply has_shape_same.
Qed.

Lemma np_stack_inv (arrays out : list array2) :
  np_stack arrays = Ok out →
  out = arrays ∧ arrays ≠ [] ∧ ∃ shp, Forall (has_shape shp) arrays.
Proof.
  destruct arrays as [|a arrays]; [done|]. unfold np_stack.
  destruct (decide _) as [H|H]; [|done]. intros [= <-]. eauto.
Qed.

Lemma np_stack_Raise (arrays : list array2) e :
  np_stack arrays = Raise e →
  e = ValueError ∧ (arrays = [] ∨ ¬ ∃ shp, Forall (has_shape shp) arrays).
Proof.
  destruct arrays as [|a arrays]; [intros [= <-]; auto|]. unfold np_stack.
  destruct (decide _) as [H|H]; [done|]. intros [= <-]. split; [done|].
  right. intros [shp Hall]. apply H.
  pose proof (Forall_inv Hall) as Ha.
  eapply Forall_impl; [exact Hall|]. intros b Hb. by eapply has_shape_same.
Qed.

Section write_tif_output_facts.

Context {A : Type}.
Variable GEPA_PROFILE : gmap string (profile_value A).

(** X4: [write_tif_output] raises exactly when the dictionary is empty or its
    arrays do not all have one shape, and the exception is [ValueError]
    ([np.stack]); nothing is written then. *)
Theorem write_tif_output_raises_iff (in_dict : list (Z * array2)) :
  match write_tif_output GEPA_PROFILE in_dict with
  | Raise e =>
      e = ValueError
      ∧ (in_dict = [] ∨ ¬ ∃ shp, Forall (has_shape shp) in_dict.*2)
  | Ok tif =>
      in_dict ≠ [] ∧ ∃ shp, Forall (has_shape shp) in_dict.*2
  end.
Proof.
  unfold write_tif_output.
  destruct (np_stack in_dict.*2) as [out|e] eqn:E; cbn.
  - apply np_stack_inv in E as (_ & Hne & Hshp). split; [|done].
    by destruct in_dict.
  - apply np_stack_Raise in E as [-> [E|E]]; split; auto.
    left. by destruct in_dict.
Qed.

(** X5: a written GeoTIFF has one band per item of the dictionary, in insertion
    order, described by the decimal form of its year; the profile is
    [GEPA_PROFILE] with [count] set to the number of items and every other
    key unchanged; the band descriptions of a dictionary (distinct keys) are
    pairwise distinct. *)
Theorem write_tif_output_bands (in_dict : list (Z * array2)) (tif : GTiff A) :
  write_tif_output GEPA_PROFILE in_dict = Ok tif →
  zip (descriptions tif) (bands tif)
  = (λ item : Z * array2, (pretty item.1, item.2)) <$> in_dict
  ∧ profile tif !! "count" = Some (profile_int (Z.of_nat (length in_dict)))
  ∧ (∀ k, k ≠ "count" → profile tif !! k = GEPA_PROFILE !! k)
  ∧ (NoDup in_dict.*1 → NoDup (descriptions tif)).
Proof.
  unfold write_tif_output.
  destruct (np_stack in_dict.*2) as [out|e] eqn:E; [|done]. cbn.
  apply np_stack_inv in E as (-> & _ & _). intros [= <-]. cbn.
  split_and!.
  - clear. induction in_dict as [|[y a] l IH]; [done|]. cbn. by rewrite IH.
  - by rewrite lookup_insert_eq, length_fmap.
  - intros k Hk. by rewrite lookup_insert_ne.
  - intros Hnd. apply (NoDup_fmap_2 _). done.
Qed.

End write_tif_output_facts.

Lemma write_tif_output_bands_example :
  write_tif_output (A := ()) {["count" := profile_int 1]}
    [(2012%Z, [[kt 1]]); (2013%Z, [[kt 2]])]
  = Ok (mkGTiff {["count" := profile_int 2]} [[[kt 1]]; [[kt 2]]]
          ["2012"; "2013"])
  ∧ zip ["2012"; "2013"] [[[kt 1]]; [[kt 2]]]
    = (λ item : Z * array2, (pretty item.1, item.2))
        <$> [(2012%Z, [[kt 1]]); (2013%Z, [[kt 2]])].
Proof.
  assert (H : write_tif_output (A := ()) {["count" := profile_int 1]}
                [(2012%Z, [[kt 1]]); (2013%Z, [[kt 2]])]
              = Ok (mkGTiff {["count" := profile_int 2]} [[[kt 1]]; [[kt 2]]]
                      ["2012"; "2013"])).
  { unfold write_tif_output. rewrite (np_stack_Ok _ (1, 1)%nat).
    - reflexivity.
    - done.
    - repeat constructor. }
  split; [exact H|].
  exact (proj1 (write_tif_output_bands _ _ _ H)).
Defined.

(** ** NetCDF output *)

Lemma list_min_spec (l : list Z) (lo : Z) :
  list_min l = Ok lo ↔ lo ∈ l ∧ Forall (λ y, (lo ≤ y)%Z) l.
Proof.
  destruct l as [|x l]; cbn.
  - split; [done|]. intros [H _]. by apply elem_of_nil in H.
  - assert (H : foldr Z.min x l ∈ x :: l
                ∧ Forall (λ y, (foldr Z.min x l ≤ y)%Z) (x :: l)).
    { induction l as [|z l [IH1 IH2]]; cbn.
      - split; [left|by repeat constructor].
      - apply Forall_cons in IH2 as [IHx IHl].
        split.
        + destruct (Z.min_spec z (foldr Z.min x l)) as [[_ ->]|[_ ->]].
          * right. left.
          * apply elem_of_cons in IH1 as [->|IH1]; [left|by right; right].
        + repeat constructor; [lia..|].
          eapply Forall_impl; [exact IHl|]. intros; cbv beta in *; lia. }
    split.
    + by intros [= <-].
    + intros [Hin Hall]. f_equal. destruct H as [Hin' Hall'].
      pose proof (proj1 (Forall_forall _ _) Hall _ Hin').
      pose proof (proj1 (Forall_forall _ _) Hall' _ Hin). cbv beta in *. lia.
Qed.

Lemma list_max_spec (l : list Z) (hi : Z) :
  list_max l = Ok hi ↔ hi ∈ l ∧ Forall (λ y, (y ≤ hi)%Z) l.
Proof.
  destruct l as [|x l]; cbn.
  - split; [done|]. intros [H _]. by apply elem_of_nil in H.
  - assert (H : foldr Z.max x l ∈ x :: l
                ∧ Forall (λ y, (y ≤ foldr Z.max x l)%Z) (x :: l)).
    { induction l as [|z l [IH1 IH2]]; cbn.
      - split; [left|by repeat constructor].
      - apply Forall_cons in IH2 as [IHx IHl].
        split.
        + destruct (Z.max_spec z (foldr Z.max x l)) as [[_ ->]|[_ ->]].
          * apply elem_of_cons in IH1 as [->|IH1]; [left|by right; right].
          * right. left.
        + repeat constructor; [lia..|].
          eapply Forall_impl; [exact IHl|]. intros; cbv beta in *; lia. }
    split.
    + by intros [= <-].
    + intros [Hin Hall]. f_equal. destruct H as [Hin' Hall'].
      pose proof (proj1 (Forall_forall _ _) Hall _ Hin').
      pose proof (proj1 (Forall_forall _ _) Hall' _ Hin). cbv beta in *. lia.
Qed.

Lemma list_min_Permutation (l l' : list Z) :
  l ≡ₚ l' → list_min l = list_min l'.
Proof.
  intros Hp. destruct (list_min l) as [lo|e] eqn:E.
  - symmetry. apply list_min_spec. apply list_min_spec in E as [E1 E2].
    by rewrite <- Hp.
  - destruct l; [|done]. apply Permutation_nil in Hp as ->. done.
Qed.

Lemma list_max_Permutation (l l' : list Z) :
  l ≡ₚ l' → list_max l = list_max l'.
Proof.
  intros Hp. destruct (list_max l) as [lo|e] eqn:E.
  - symmetry. apply list_max_spec. apply list_max_spec in E as [E1 E2].
    by rewrite <- Hp.
  - destruct l; [|done]. apply Permutation_nil in Hp as ->. done.
Qed.

Section write_ncdf_output_facts.

Context {crs_t transform_t : Type}.
Variable GEPA_PROFILE_crs : crs_t.
Variable GEPA_PROFILE_transform : transform_t.
Variable y x : list Qc.

(** X6: [write_ncdf_output] raises exactly when the dictionary is empty or one of
    its arrays does not have a row per latitude and a column per longitude,
    and the exception is [ValueError]. *)
Theorem write_ncdf_output_raises_iff (raster_dict : list (Z * array2))
    (description title units : string) :
  match write_ncdf_output GEPA_PROFILE_crs GEPA_PROFILE_transform y x
          raster_dict description title units with
  | Raise e =>
      e = ValueError
      ∧ (raster_dict = []
         ∨ ¬ Forall (has_shape (length y, length x)) raster_dict.*2)
  | Ok da =>
      raster_dict ≠ [] ∧ Forall (has_shape (length y, length x)) raster_dict.*2
  end.
Proof.
  unfold write_ncdf_output.
  destruct (decide (raster_dict = [])) as [->|Hne]; [cbn; auto|].
  cbn. destruct (decide (Forall _ _)) as [Hs|Hs]; [|cbn; auto].
  cbn. destruct raster_dict as [|[y0 a] l]; [done|]. cbn. done.
Qed.

(** X7: in a written NetCDF array the [year] attribute is the smallest and the
    largest key of the dictionary, joined by a hyphen, whatever the order of
    the items; there are exactly four attributes; and the time coordinate
    and the data are the keys and the arrays, item by item. *)
Theorem write_ncdf_output_year_range (raster_dict : list (Z * array2))
    (description title units : string) (da : DataArray crs_t transform_t) :
  write_ncdf_output GEPA_PROFILE_crs GEPA_PROFILE_transform y x
    raster_dict description title units = Ok da →
  ∃ lo hi : Z,
    attrs da !! "year" = Some (pretty lo +:+ "-" +:+ pretty hi)
    ∧ lo ∈ raster_dict.*1 ∧ hi ∈ raster_dict.*1
    ∧ Forall (λ year, (lo ≤ year ≤ hi)%Z) raster_dict.*1
    ∧ dom (attrs da) = ({["title"; "description"; "year"; "units"]} : gset string)
    ∧ zip (time da) (data da) = raster_dict.
Proof.
  unfold write_ncdf_output.
  destruct (decide (raster_dict = [])) as [->|Hne]; [done|]. cbn.
  destruct (decide (Forall _ _)) as [Hs|Hs]; [|done]. cbn.
  destruct (list_min raster_dict.*1) as [lo|] eqn:Elo; [|done]. cbn.
  destruct (list_max raster_dict.*1) as [hi|] eqn:Ehi; [|done]. cbn.
  intros [= <-]. cbn. exists lo, hi.
  apply list_min_spec in Elo as [Hlo1 Hlo2].
  apply list_max_spec in Ehi as [Hhi1 Hhi2].
  split_and!; [done..| | |].
  - apply Forall_forall. intros yr Hyr.
    pose proof (proj1 (Forall_forall _ _) Hlo2 _ Hyr).
    pose proof (proj1 (Forall_forall _ _) Hhi2 _ Hyr). cbv beta in *. lia.
  - rewrite !dom_insert_L, dom_empty_L. set_solver.
  - apply zip_fst_snd.
Qed.

(** X8: the attributes do not depend on the order of the items of the
    dictionary. *)
Theorem write_ncdf_output_attrs_Permutation
    (raster_dict raster_dict' : list (Z * array2))
    (description title units : string) :
  raster_dict ≡ₚ raster_dict' →
  attrs <$> write_ncdf_output GEPA_PROFILE_crs GEPA_PROFILE_transform y x
              raster_dict description title units
  = attrs <$> write_ncdf_output GEPA_PROFILE_crs GEPA_PROFILE_transform y x
                raster_dict' description title units.
Proof.
  intros Hp. unfold write_ncdf_output.
  destruct (decide (raster_dict = [])) as [->|Hne].
  { apply Permutation_nil in Hp as ->. done. }
  rewrite (decide_False (P := raster_dict' = [])).
  2:{ intros ->. by apply Permutation_nil_r in Hp. }
  cbn.
  assert (Hs : Forall (has_shape (length y, length x)) raster_dict.*2
               ↔ Forall (has_shape (length y, length x)) raster_dict'.*2)
    by (by rewrite Hp).
  destruct (decide (Forall _ raster_dict.*2)) as [H|H].
  - rewrite decide_True by (by apply Hs). cbn.
    rewrite (list_min_Permutation _ raster_dict'.*1) by (by rewrite Hp).
    rewrite (list_max_Permutation _ raster_dict'.*1) by (by rewrite Hp).
    destruct (list_min _); [|done]. destruct (list_max _); done.
  - rewrite decide_False by (by rewrite <- Hs). done.
Qed.

End write_ncdf_output_facts.

Lemma write_ncdf_output_attrs_Permutation_example :
  [(2012%Z, [[kt 1]]); (2013%Z, [[kt 2]])]
  ≡ₚ [(2013%Z, [[kt 2]]); (2012%Z, [[kt 1]])]
  ∧ attrs <$> write_ncdf_output () () [Qc_of_Z 0] [Qc_of_Z 0]
                [(2012%Z, [[kt 1]]); (2013%Z, [[kt 2]])] "d" "t" "u"
    = attrs <$> write_ncdf_output () () [Qc_of_Z 0] [Qc_of_Z 0]
                  [(2013%Z, [[kt 2]]); (2012%Z, [[kt 1]])] "d" "t" "u".
Proof.
  assert (H : [(2012%Z, [[kt 1]]); (2013%Z, [[kt 2]])]
              ≡ₚ [(2013%Z, [[kt 2]]); (2012%Z, [[kt 1]])])
    by apply perm_swap.
  split; [exact H|].
  exact (write_ncdf_output_attrs_Permutation () () [Qc_of_Z 0] [Qc_of_Z 0]
           _ _ "d" "t" "u" H).
Defined.

Lemma write_ncdf_output_year_range_example :
  ∃ da : DataArray () (),
    write_ncdf_output () () [Qc_of_Z 0] [Qc_of_Z 0]
      [(2013%Z, [[kt 2]]); (2012%Z, [[kt 1]]); (2014%Z, [[kt 3]])]
      "d" "t" "u" = Ok da
    ∧ ∃ lo hi : Z,
        attrs da !! "year" = Some (pretty lo +:+ "-" +:+ pretty hi)
        ∧ lo ∈ [(2013%Z, [[kt 2]]); (2012%Z, [[kt 1]]); (2014%Z, [[kt 3]])].*1
        ∧ hi ∈ [(2013%Z, [[kt 2]]); (2012%Z, [[kt 1]]); (2014%Z, [[kt 3]])].*1
        ∧ Forall (λ year, (lo ≤ year ≤ hi)%Z)
            [(2013%Z, [[kt 2]]); (2012%Z, [[kt 1]]); (2014%Z, [[kt 3]])].*1
        ∧ dom (attrs da)
          = ({["title"; "description"; "year"; "units"]} : gset string)
        ∧ zip (time da) (data da)
          = [(2013%Z, [[kt 2]]); (2012%Z, [[kt 1]]); (2014%Z, [[kt 3]])].
Proof.
  eexists. split; [reflexivity|].
  eapply (write_ncdf_output_year_range () () [Qc_of_Z 0] [Qc_of_Z 0]).
  reflexivity.
Defined.

(** ** Formatted names *)

Lemma length_list_ascii_of_string (s : string) :
  length (list_ascii_of_string s) = String.length s.
Proof. induction s as [|c s IH]; [done|]. cbn. by rewrite IH. Qed.

Lemma length_string_of_list_ascii (l : list ascii) :
  String.length (string_of_list_ascii l) = length l.
Proof. induction l as [|c l IH]; [done|]. cbn. by rewrite IH. Qed.

Lemma re_sub_plus_space_length b s :
  (length (re_sub_plus re_space (list_ascii_of_string " ") b s) ≤ length s)%nat.
Proof.
  revert b. induction s as [|c s IH]; intros b; [done|].
  cbn [re_sub_plus]. destruct (re_space c).
  - rewrite length_app. specialize (IH true).
    destruct b; [cbn [length]; lia|].
    change (length (list_ascii_of_string " ")) with 1%nat. cbn [length]. lia.
  - cbn [length]. specialize (IH false). lia.
Qed.

(** X9: [name_formatter] never lengthens a name. *)
Theorem name_formatter_length (col : list string) :
  Forall is_ascii7 col →
  Forall2 (λ out s, (String.length out ≤ String.length s)%nat)
    (name_formatter col) col.
Proof.
  intros _. unfold name_formatter. rewrite <- !list_fmap_compose.
  apply Forall2_fmap_l, Forall_Forall2_diag, Forall_true. intros s.
  unfold compose. rewrite name_formatter_element. unfold formatted.
  rewrite length_string_of_list_ascii, <- length_list_ascii_of_string.
  etrans; [apply length_filter|].
  etrans; [apply re_sub_plus_space_length|]. by rewrite length_fmap.
Qed.

Lemma name_formatter_length_example :
  Forall is_ascii7 ["Bear  Metallurgical Co."; "ab"]
  ∧ Forall2 (λ out s, (String.length out ≤ String.length s)%nat)
      (name_formatter ["Bear  Metallurgical Co."; "ab"])
      ["Bear  Metallurgical Co."; "ab"].
Proof.
  assert (H : Forall is_ascii7 ["Bear  Metallurgical Co."; "ab"])
    by (repeat constructor; simpl; lia).
  split; [exact H|]. exact (name_formatter_length _ H).
Defined.

Lemma kept_casefold_ascii c : kept c = true → casefold_ascii c = c.
Proof.
  intros H. apply kept_iff in H as [_ H]. unfold is_upper, casefold_ascii in *.
  cbv zeta. by rewrite H.
Qed.

Lemma kept_re_space c : kept c = true → re_space c = true → c = " "%char.
Proof.
  unfold kept, re_space. cbv zeta.
  rewrite !bool_decide_eq_true. intros H1 H2.
  assert (E : nat_of_ascii c = 32%nat) by lia.
  rewrite <- (ascii_nat_embedding c), E. reflexivity.
Qed.

Lemma re_space_space : re_space " " = true.
Proof. reflexivity. Qed.

Lemma re_sub_plus_space_fixed b s :
  Forall (λ c, kept c = true) s → single_spaced s →
  (b = true → match s with c :: _ => c ≠ " "%char | [] => True end) →
  re_sub_plus re_space (list_ascii_of_string " ") b s = s.
Proof.
  intros Hk. revert b. induction Hk as [|c s Hc Hk IH]; intros b Hs Hb; [done|].
  cbn [re_sub_plus]. destruct Hs as [Hadj Hs].
  destruct (re_space c) eqn:E.
  - pose proof (kept_re_space c Hc E) as ->.
    destruct b; [by exfalso; apply Hb|].
    rewrite (IH true Hs).
    + reflexivity.
    + intros _. destruct s as [|c2 s]; [done|]. intros ->. by apply Hadj.
  - by rewrite (IH false Hs).
Qed.

Lemma re_sub_plus_space_single_spaced b s :
  single_spaced (re_sub_plus re_space (list_ascii_of_string " ") b s)
  ∧ (b = true →
     match re_sub_plus re_space (list_ascii_of_string " ") b s with
     | c :: _ => c ≠ " "%char
     | [] => True
     end).
Proof.
  revert b. induction s as [|c s IH]; intros b; [done|].
  cbn [re_sub_plus]. destruct (re_space c) eqn:E.
  - destruct (IH true) as [IH1 IH2]. specialize (IH2 eq_refl).
    destruct b; [done|].
    change (list_ascii_of_string " ") with [" "%char] in *. cbn [app].
    split; [|done]. split; [|done].
    destruct (re_sub_plus _ _ true s); [done|]. intros [_ ->]. by apply IH2.
  - destruct (IH false) as [IH1 _]. split.
    + split; [|done]. destruct (re_sub_plus _ _ false s); [done|].
      intros [-> _]. by rewrite re_space_space in E.
    + intros _ ->. by rewrite re_space_space in E.
Qed.

Lemma re_sub_plus_space_kept b s :
  Forall (λ c, kept c = true) s →
  Forall (λ c, kept c = true)
    (re_sub_plus re_space (list_ascii_of_string " ") b s).
Proof.
  intros H. revert b. induction H as [|c s Hc _ IH]; intros b; [done|].
  cbn [re_sub_plus]. destruct (re_space c).
  - apply Forall_app. split; [|apply IH].
    destruct b; [done|]. by repeat constructor.
  - by constructor.
Qed.

Lemma filter_kept_id (s : list ascii) :
  Forall (λ c, kept c = true) s → filter (λ c, kept c = true) s = s.
Proof.
  induction 1 as [|c s Hc _ IH]; [done|].
  by rewrite filter_cons_True, IH.
Qed.

Lemma formatted_fixed (s : string) : is_formatted s → formatted s = s.
Proof.
  intros [Hk Hs]. unfold formatted.
  assert (E : casefold_ascii <$> list_ascii_of_string s = list_ascii_of_string s).
  { clear Hs. induction Hk as [|c l Hc _ IH]; [done|].
    cbn. by rewrite IH, kept_casefold_ascii. }
  rewrite E, re_sub_plus_space_fixed, filter_kept_id by done.
  apply string_of_list_ascii_of_string.
Qed.

Lemma formatted_kept (s : string) :
  Forall (λ c, kept c = true) (list_ascii_of_string (formatted s)).
Proof.
  unfold formatted. rewrite list_ascii_of_string_of_list_ascii.
  apply Forall_forall. intros c Hc. by apply list_elem_of_filter in Hc as [Hc _].
Qed.

Lemma formatted_twice_is_formatted (s : string) :
  is_formatted (formatted (formatted s)).
Proof.
  split; [apply formatted_kept|].
  pose proof (formatted_kept s) as Hk.
  set (t := formatted s) in *. clearbody t. unfold formatted.
  rewrite list_ascii_of_string_of_list_ascii.
  assert (E : casefold_ascii <$> list_ascii_of_string t = list_ascii_of_string t).
  { induction Hk as [|c l Hc _ IH]; [done|].
    cbn. by rewrite IH, kept_casefold_ascii. }
  rewrite E, filter_kept_id by (by apply re_sub_plus_space_kept).
  apply re_sub_plus_space_single_spaced.
Qed.

Lemma name_formatter_formatted (col : list string) :
  name_formatter col = formatted <$> col.
Proof.
  unfold name_formatter. rewrite <- !list_fmap_compose.
  apply list_fmap_ext. intros _ s _. apply name_formatter_element.
Qed.

(** X10: a column of names that are already in formatted form (lower-case
    letters, digits, hyphens and single spaces) is left unchanged. *)
Theorem name_formatter_fixed (col : list string) :
  Forall is_formatted col → name_formatter col = col.
Proof.
  intros H. rewrite name_formatter_formatted.
  induction H as [|s col Hs _ IH]; [done|].
  cbn. by rewrite IH, formatted_fixed.
Qed.

Lemma name_formatter_fixed_example :
  Forall is_formatted ["bear metallurgical co"; "a-1 b"]
  ∧ name_formatter ["bear metallurgical co"; "a-1 b"]
    = ["bear metallurgical co"; "a-1 b"].
Proof.
  assert (H : Forall is_formatted ["bear metallurgical co"; "a-1 b"]).
  { repeat constructor; apply (bool_decide_unpack _); by vm_compute. }
  split; [exact H|]. exact (name_formatter_fixed _ H).
Defined.

(** X11: formatting is not idempotent, but it is stable from the second pass on:
    removing a character between two spaces leaves a double space, which the
    second pass collapses; the result of two passes is in formatted form and
    a third pass changes nothing. *)
Theorem name_formatter_stable_after_two (col : list string) :
  Forall is_ascii7 col →
  Forall is_formatted (name_formatter (name_formatter col))
  ∧ name_formatter (name_formatter (name_formatter col))
    = name_formatter (name_formatter col)
  ∧ name_formatter ["a , b"] = ["a  b"]
  ∧ name_formatter (name_formatter ["a , b"]) = ["a b"].
Proof.
  intros _.
  assert (H : Forall is_formatted (name_formatter (name_formatter col))).
  { rewrite !name_formatter_formatted, <- list_fmap_compose.
    apply Forall_fmap, Forall_true. intros s. apply formatted_twice_is_formatted. }
  split; [done|]. split; [|done].
  rewrite !name_formatter_formatted, <- !list_fmap_compose.
  apply list_fmap_ext. intros _ s _. unfold compose.
  apply formatted_fixed, formatted_twice_is_formatted.
Qed.

Lemma name_formatter_stable_after_two_example :
  Forall is_ascii7 ["Stratcor , Inc."]
  ∧ name_formatter (name_formatter (name_formatter ["Stratcor , Inc."]))
    = name_formatter (name_formatter ["Stratcor , Inc."]).
Proof.
  assert (H : Forall is_ascii7 ["Stratcor , Inc."])
    by (repeat constructor; simpl; lia).
  split; [exact H|].
  exact (proj1 (proj2 (name_formatter_stable_after_two _ H))).
Defined.

(** ** Proportional allocation, further *)

Lemma Series_sum_fillna (l : list float64) :
  Series_sum (fillna (Fin 0) <$> l) = Series_sum l.
Proof.
  unfold Series_sum. rewrite <- list_fmap_compose. f_equal.
  apply list_fmap_ext. intros _ x _. by destruct x.
Qed.

(** X12: a facility whose proxy value is missing (NaN) receives 0 and does not
    disturb the others: the allocation is the one of the group with every
    NaN replaced by 0. *)
Theorem allocation_ignores_missing_values (fac_emissions : list float64)
    (emi_sum : float64) :
  allocated_fac_emissions fac_emissions emi_sum
  = allocated_fac_emissions (fillna (Fin 0) <$> fac_emissions) emi_sum
  ∧ Forall2 (λ v out, isnan v = true → out = Fin 0)
      fac_emissions (allocated_fac_emissions fac_emissions emi_sum).
Proof.
  unfold allocated_fac_emissions. rewrite Series_sum_fillna.
  set (S := Series_sum fac_emissions). split.
  - rewrite <- !list_fmap_compose. apply list_fmap_ext. intros _ v _.
    unfold compose. destruct v as [q| | |]; try done.
    change (fillna (Fin 0) NaN) with (Fin 0). cbn [fdiv fmul fillna isnan].
    destruct S as [s| | |]; cbn [fdiv].
    + destruct (decide (s = 0)) as [->|Hs].
      * by destruct emi_sum.
      * replace (0 / s) with 0 by (by field).
        destruct emi_sum as [t| | |]; try done.
        cbn. by replace (0 * t) with 0 by ring.
    + destruct emi_sum as [t| | |]; try done.
      cbn. by replace (0 * t) with 0 by ring.
    + destruct emi_sum as [t| | |]; try done.
      cbn. by replace (0 * t) with 0 by ring.
    + by destruct emi_sum.
  - rewrite <- !list_fmap_compose. apply Forall2_fmap_r, Forall_Forall2_diag.
    apply Forall_true. intros v Hv. by destruct v.
Qed.

(** ** The allocated column *)

(** X14: the transform that fills [allocated_ch4_kt] raises exactly when some
    facility row belongs to a state and year without a row in the inventory,
    and the exception is [IndexError]; otherwise the column has one value per
    facility row, the row's share of its state total. *)
Theorem allocated_ch4_kt_raises_iff (ferro_facilities_gdf : list Facility.row)
    (EPA_ferro_emissions : list Inventory.row) :
  match allocated_ch4_kt ferro_facilities_gdf EPA_ferro_emissions with
  | Raise e =>
      e = IndexError
      ∧ Exists (λ f, Facility.key f ∉ Inventory.key <$> EPA_ferro_emissions)
          ferro_facilities_gdf
  | Ok column =>
      Forall (λ f, Facility.key f ∈ Inventory.key <$> EPA_ferro_emissions)
        ferro_facilities_gdf
      ∧ length column = length ferro_facilities_gdf
      ∧ Forall2 (λ f out,
                   out = fillna (Fin 0)
                           (fmul (fdiv (Facility.ch4_kt f)
                                    (Series_sum (group_values ferro_facilities_gdf
                                                   (Facility.key f))))
                                 (total_of EPA_ferro_emissions (Facility.key f))))
          ferro_facilities_gdf column
  end.
Proof.
  set (fac := ferro_facilities_gdf). set (inv := EPA_ferro_emissions).
  destruct (decide (Forall (λ f, Facility.key f ∈ Inventory.key <$> inv) fac))
    as [Hall|Hnall].
  - rewrite allocated_ch4_kt_rows by done. split; [done|].
    split; [by rewrite length_fmap|].
    apply Forall2_fmap_r, Forall_Forall2_diag, Forall_true. done.
  - destruct (allocated_ch4_kt fac inv) as [col|e] eqn:E.
    + exfalso. apply Hnall. apply Forall_forall. intros f Hf.
      apply list_elem_of_lookup in Hf as [i Hi].
      unfold allocated_ch4_kt, groupby_transform in E.
      apply mapM_result_Ok in E.
      assert (Hif : imap pair fac !! i = Some (i, f))
        by (by rewrite list_lookup_imap, Hi).
      destruct (Forall2_lookup_l _ _ _ _ _ E Hif) as (out & _ & Hout).
      cbn [fst snd] in Hout.
      rewrite state_year_allocation_emissions_total in Hout.
      unfold inv_total in Hout.
      destruct (filter _ inv) as [|r l] eqn:EF; [done|].
      assert (Hr : r ∈ filter (λ r0, Inventory.state_code r0 = (Facility.key f).1
                                      ∧ Inventory.year r0 = (Facility.key f).2) inv)
        by (rewrite EF; left).
      apply list_elem_of_filter in Hr as [[E1 E2] Hr].
      apply list_elem_of_fmap. exists r. split; [|done].
      unfold Inventory.key. rewrite E1, E2. by destruct (Facility.key f).
    + split.
      2:{ apply not_Forall_Exists in Hnall; [|apply _].
          eapply Exists_impl; [exact Hnall|done]. }
      unfold allocated_ch4_kt, groupby_transform in E.
      apply mapM_result_Raise in E as ([i f] & Hif & Hg).
      apply list_elem_of_lookup in Hif as [j Hj].
      rewrite list_lookup_imap in Hj.
      destruct (fac !! j) as [f'|] eqn:Hfj; [|done]. injection Hj as <- <-.
      cbn [fst snd] in Hg.
      rewrite state_year_allocation_emissions_total in Hg.
      destruct (inv_total inv (Facility.key f')) as [t|e'] eqn:Et.
      * cbn [mbind result_bind] in Hg.
        erewrite allocated_fac_emissions_lookup in Hg; [done|].
        rewrite list_lookup_fmap.
        by rewrite (filter_take_lookup (λ r, Facility.key r = Facility.key f')
                      fac j f' Hfj eq_refl).
      * cbn [mbind result_bind] in Hg. injection Hg as <-.
        unfold inv_total, iat0 in Et.
        destruct (Inventory.ch4_kt <$> _) in Et; congruence.
Qed.

Lemma cell_zip_with {A B C} (f : A → B → C) (a : list (list A))
    (b : list (list B)) r c :
  cell (zip_with (zip_with f) a b) r c
  = x ← cell a r c; y ← cell b r c; Some (f x y).
Proof.
  unfold cell. rewrite lookup_zip_with.
  destruct (a !! r) as [ra|]; [|done]. cbn.
  destruct (b !! r) as [rb|]; cbn.
  - rewrite lookup_zip_with. by destruct (ra !! c).
  - by destruct (ra !! c).
Qed.

Lemma has_shape_zip_with {A} shp (f : A → A → A) (a b : list (list A)) :
  has_shape shp a → has_shape shp b →
  has_shape shp (zip_with (zip_with f) a b).
Proof.
  intros [Ha1 Ha2] [Hb1 Hb2]. split.
  - rewrite length_zip_with. lia.
  - apply Forall_forall. intros row Hrow.
    apply elem_of_zip_with in Hrow as (ra & rb & -> & Hra & Hrb).
    rewrite length_zip_with.
    pose proof (proj1 (Forall_forall _ _) Ha2 _ Hra).
    pose proof (proj1 (Forall_forall _ _) Hb2 _ Hrb). cbv beta in *. lia.
Qed.

Lemma has_shape_array_map {A B} shp (f : A → B) (a : list (list A)) :
  has_shape shp a → has_shape shp (array_map f a).
Proof.
  intros [H1 H2]. unfold array_map. split; [by rewrite length_fmap|].
  apply Forall_fmap. eapply Forall_impl; [exact H2|]. intros row Hrow.
  unfold compose. by rewrite length_fmap.
Qed.

(** ** The gridding loop *)

Lemma year_days_leap year : year_days year = if isleap year then 366%Z else 365%Z.
Proof. unfold year_days, month_days. by destruct (isleap year). Qed.

Lemma StronglySorted_le_lt (l : list Z) :
  StronglySorted Z.le l → NoDup l → StronglySorted Z.lt l.
Proof.
  induction 1 as [|x l Hs IH Hx]; intros Hnd; [constructor|].
  apply NoDup_cons in Hnd as [Hxl Hnd]. constructor; [by apply IH|].
  apply Forall_forall. intros z Hz.
  pose proof (proj1 (Forall_forall _ _) Hx z Hz).
  assert (x ≠ z) by (by intros ->). lia.
Qed.

Section B64_gridding_facts.

Variable ARR_SHAPE : nat * nat.
Variable cell_index : point → Z * Z.
Variable area_matrix : B64.array2.

Lemma B64_ch4_kt_raster_cases (data : list (B64.Facility.row * B64.binary64)) :
  match B64.ch4_kt_raster ARR_SHAPE cell_index data with
  | Ok raster =>
      has_shape ARR_SHAPE raster
      ∧ Forall (λ ra, is_Some (B64.Facility.geometry ra.1)) data
  | Raise e =>
      (e = ValueError ∧ data = [])
      ∨ (e = IndexError ∧ Exists (λ ra, B64.Facility.geometry ra.1 = None) data)
  end.
Proof.
  unfold B64.ch4_kt_raster.
  pose proof (B64_rasterize_cases ARR_SHAPE cell_index (shapes_of data)) as H.
  unfold shapes_of in H.
  destruct (B64.rasterize _ _ _ _ _) as [raster|e].
  - destruct H as (_ & Hsome & Hshape & _). split; [done|].
    rewrite Forall_fmap in Hsome. exact Hsome.
  - destruct H as [[-> H]|[-> H]].
    + left. split; [done|]. by apply fmap_nil_inv in H.
    + right. split; [done|]. rewrite Exists_fmap in H. exact H.
Qed.

Lemma B64_groupby_years_elem (gdf : list (B64.Facility.row * B64.binary64)) year :
  year ∈ B64.groupby_years gdf
  ↔ year ∈ (λ ra, B64.Facility.year ra.1) <$> gdf.
Proof.
  unfold B64.groupby_years.
  by rewrite merge_sort_Permutation, elem_of_remove_dups.
Qed.

Lemma B64_year_data_nonempty (gdf : list (B64.Facility.row * B64.binary64)) year :
  year ∈ B64.groupby_years gdf → B64.year_data gdf year ≠ [].
Proof.
  intros (ra & -> & Hra)%B64_groupby_years_elem%list_elem_of_fmap E.
  assert (H : ra ∈ B64.year_data gdf (B64.Facility.year ra.1))
    by (by apply list_elem_of_filter).
  rewrite E in H. by apply elem_of_nil in H.
Qed.

(** The two outcomes of the loop over the years. *)
Lemma B64_ch4_kt_result_rasters_cases
    (gdf : list (B64.Facility.row * B64.binary64)) :
  match B64.ch4_kt_result_rasters ARR_SHAPE cell_index gdf with
  | Ok rasters =>
      StronglySorted Z.lt rasters.*1
      ∧ (∀ year, year ∈ rasters.*1
                 ↔ year ∈ (λ ra, B64.Facility.year ra.1) <$> gdf)
      ∧ Forall (has_shape ARR_SHAPE) rasters.*2
      ∧ Forall (λ ra, is_Some (B64.Facility.geometry ra.1)) gdf
  | Raise e =>
      e = IndexError
      ∧ Exists (λ ra, B64.Facility.geometry ra.1 = None) gdf
  end.
Proof.
  unfold B64.ch4_kt_result_rasters.
  destruct (mapM _ (B64.groupby_years gdf)) as [rasters|e] eqn:E.
  - apply mapM_result_Ok in E.
    assert (Hfst : rasters.*1 = B64.groupby_years gdf).
    { induction E as [|year item ys rs Hitem _ IH]; [done|].
      cbn. rewrite IH. f_equal.
      destruct (B64.ch4_kt_raster _ _ _); [|done]. by injection Hitem as <-. }
    rewrite Hfst. split_and!.
    + apply StronglySorted_le_lt.
      * apply (StronglySorted_merge_sort Z.le).
      * unfold B64.groupby_years. rewrite merge_sort_Permutation.
        apply NoDup_remove_dups.
    + apply B64_groupby_years_elem.
    + clear Hfst. induction E as [|year item ys rs Hitem _ IH]; [done|].
      cbn. constructor; [|done].
      pose proof (B64_ch4_kt_raster_cases (B64.year_data gdf year)) as Hc.
      destruct (B64.ch4_kt_raster _ _ _); [|done].
      injection Hitem as <-. by destruct Hc.
    + apply Forall_forall. intros ra Hra.
      assert (Hy : B64.Facility.year ra.1 ∈ B64.groupby_years gdf).
      { apply B64_groupby_years_elem, list_elem_of_fmap. by exists ra. }
      apply list_elem_of_lookup in Hy as [i Hi].
      destruct (Forall2_lookup_l _ _ _ _ _ E Hi) as (item & _ & Hitem).
      pose proof (B64_ch4_kt_raster_cases
                    (B64.year_data gdf (B64.Facility.year ra.1))) as Hc.
      destruct (B64.ch4_kt_raster _ _ _); [|done].
      destruct Hc as [_ Hc].
      apply (proj1 (Forall_forall _ _) Hc ra).
      by apply list_elem_of_filter.
  - apply mapM_result_Raise in E as (year & Hyear & Hraise).
    pose proof (B64_ch4_kt_raster_cases (B64.year_data gdf year)) as Hc.
    destruct (B64.ch4_kt_raster _ _ _); [done|].
    injection Hraise as <-.
    destruct Hc as [[_ Hc]|[-> Hc]].
    + by apply B64_year_data_nonempty in Hyear.
    + split; [done|].
      apply Exists_exists in Hc as (ra & Hra & Hgeo).
      apply list_elem_of_filter in Hra as [_ Hra].
      apply Exists_exists. by exists ra.
Qed.

(** X15: the loop over the years returns a raster for each year of the
    facility table, in ascending order of the years, each of the shape of
    the grid; it raises, with [IndexError], exactly when some facility row
    has an empty point. *)
Theorem ch4_kt_result_rasters_years
    (gdf : list (B64.Facility.row * B64.binary64)) :
  match B64.ch4_kt_result_rasters ARR_SHAPE cell_index gdf with
  | Ok rasters =>
      StronglySorted Z.lt rasters.*1
      ∧ (∀ year, year ∈ rasters.*1
                 ↔ year ∈ (λ ra, B64.Facility.year ra.1) <$> gdf)
      ∧ Forall (has_shape ARR_SHAPE) rasters.*2
      ∧ Forall (λ ra, is_Some (B64.Facility.geometry ra.1)) gdf
  | Raise e =>
      e = IndexError
      ∧ Exists (λ ra, B64.Facility.geometry ra.1 = None) gdf
  end.
Proof. exact (B64_ch4_kt_result_rasters_cases gdf). Qed.

Lemma flux_of_kt_mapM (kt_of factor : Z → result B64.array2)
    (F : Z → B64.array2) (years : list Z) :
  (∀ year, factor year = Ok (F year)) →
  match mapM (λ year, raster ← kt_of year; Ok (year, raster)) years,
        mapM (λ year,
                raster ← kt_of year;
                conversion_factor_annual ← factor year;
                Ok (year, zip_with (zip_with PrimFloat.mul) raster
                            conversion_factor_annual))
             years with
  | Ok kt_rasters, Ok flux_rasters =>
      Forall2 (λ k f : Z * B64.array2,
                 f.1 = k.1
                 ∧ f.2 = zip_with (zip_with PrimFloat.mul) k.2 (F k.1))
        kt_rasters flux_rasters
  | Raise e, Raise e' => e = e'
  | _, _ => False
  end.
Proof.
  intros HF. induction years as [|year years IH]; [constructor|].
  cbn [mapM]. destruct (kt_of year) as [raster|e]; cbn [mbind result_bind]; [|done].
  rewrite HF. cbn [mbind result_bind].
  destruct (mapM _ years) as [ks|e]; destruct (mapM _ years) as [fs|e'];
    cbn [mbind result_bind mret result_ret]; try done.
  by constructor.
Qed.

Lemma flux_cell (p : B64.binary64) (raster areas : B64.array2) (r c : nat) :
  cell (zip_with (zip_with PrimFloat.mul) raster
          (array_map (λ area, PrimFloat.div p area) areas)) r c
  = mass ← cell raster r c;
    area ← cell areas r c;
    Some (PrimFloat.mul mass (PrimFloat.div p area)).
Proof.
  rewrite cell_zip_with, cell_array_map.
  destruct (cell raster r c); [|done]. cbn [mbind option_bind].
  by destruct (cell areas r c).
Qed.

Lemma calc_conversion_factor_year (year : Z) :
  B64.calc_conversion_factor (year_days year) area_matrix
  = Ok (array_map
          (λ area, PrimFloat.div
                     (per_area (if isleap year then 366 else 365)%float) area)
          area_matrix).
Proof.
  rewrite year_days_leap. destruct (isleap year).
  - by rewrite (calc_conversion_factor_Ok 366 366%float).
  - by rewrite (calc_conversion_factor_Ok 365 365%float).
Qed.

(** X16: the flux loop fails exactly when the mass loop fails, with
    [IndexError] from the rasterisation: the conversion factor never raises
    there, a calendar year having 365 or 366 days.  Otherwise the flux
    rasters have the years and the shape of the mass rasters, and every flux
    cell is the binary64 product of the mass of the cell and of the factor of
    the year for the area of the cell. *)
Theorem ch4_flux_result_rasters_from_kt
    (gdf : list (B64.Facility.row * B64.binary64)) :
  has_shape ARR_SHAPE area_matrix →
  match B64.ch4_kt_result_rasters ARR_SHAPE cell_index gdf,
        B64.ch4_flux_result_rasters ARR_SHAPE cell_index area_matrix gdf with
  | Ok kt_rasters, Ok flux_rasters =>
      Forall2 (λ k f : Z * B64.array2,
                 f.1 = k.1 ∧ has_shape ARR_SHAPE f.2
                 ∧ ∀ r c,
                     cell f.2 r c
                     = mass ← cell k.2 r c;
                       area ← cell area_matrix r c;
                       Some (PrimFloat.mul mass
                               (PrimFloat.div
                                  (per_area (if isleap k.1 then 366 else 365)%float)
                                  area)))
        kt_rasters flux_rasters
  | Raise e, Raise e' => e = IndexError ∧ e' = IndexError
  | _, _ => False
  end.
Proof.
  intros Harea.
  pose proof (B64_ch4_kt_result_rasters_cases gdf) as Hyears.
  pose proof (flux_of_kt_mapM
                (λ year, B64.ch4_kt_raster ARR_SHAPE cell_index
                           (B64.year_data gdf year))
                (λ year, B64.calc_conversion_factor (year_days year) area_matrix)
                _ (B64.groupby_years gdf) calc_conversion_factor_year) as H.
  unfold B64.ch4_kt_result_rasters, B64.ch4_flux_result_rasters in *.
  unfold year_days in H at 1.
  destruct (mapM _ (B64.groupby_years gdf)) as [ks|e];
    destruct (mapM _ (B64.groupby_years gdf)) as [fs|e']; try done.
  - destruct Hyears as (_ & _ & Hshapes & _).
    induction H as [|k f ks fs [Hk Hf] _ IH]; [constructor|].
    apply Forall_cons in Hshapes as [Hs Hshapes].
    constructor; [|by apply IH]. split; [done|]. rewrite Hf. split.
    + apply has_shape_zip_with; [done|]. by apply has_shape_array_map.
    + intros r c. by rewrite flux_cell.
  - destruct Hyears as [-> _]. by subst.
Qed.

(** X18: a facility whose point lies outside the grid is left out of the
    raster of its year without an error: when every facility of the year has
    a point and one of them lies inside the grid, the raster of the year is
    the raster of the located facilities of the year alone. *)
Theorem ch4_kt_raster_of_located
    (data : list (B64.Facility.row * B64.binary64)) :
  Forall (λ ra, is_Some (B64.Facility.geometry ra.1)) data →
  Exists (λ ra, located ARR_SHAPE cell_index ra.1) data →
  ∃ raster,
    B64.ch4_kt_raster ARR_SHAPE cell_index data = Ok raster
    ∧ B64.ch4_kt_raster ARR_SHAPE cell_index
        (filter (λ ra, located ARR_SHAPE cell_index ra.1) data)
      = Ok raster.
Proof.
  intros Hsome (ra0 & Hra0 & Hloc0)%Exists_exists.
  set (L := λ ra : B64.Facility.row * B64.binary64,
              located ARR_SHAPE cell_index ra.1).
  unfold B64.ch4_kt_raster.
  destruct (B64_rasterize_Ok ARR_SHAPE cell_index (shapes_of data))
    as (raster & E & Hshape & Hcell).
  { intros Hnil. apply fmap_nil_inv in Hnil. subst.
    by apply elem_of_nil in Hra0. }
  { unfold shapes_of. rewrite Forall_fmap. exact Hsome. }
  destruct (B64_rasterize_Ok ARR_SHAPE cell_index (shapes_of (filter L data)))
    as (raster' & E' & Hshape' & Hcell').
  { intros Hnil. apply fmap_nil_inv in Hnil.
    assert (Hin : ra0 ∈ filter L data) by (by apply list_elem_of_filter).
    rewrite Hnil in Hin. by apply elem_of_nil in Hin. }
  { unfold shapes_of. apply Forall_fmap, Forall_forall.
    intros ra [_ Hra]%list_elem_of_filter.
    by apply (proj1 (Forall_forall _ _) Hsome). }
  unfold shapes_of in E, E'. exists raster. split; [done|].
  rewrite E'. f_equal. apply (array2_eq ARR_SHAPE); [done..|].
  intros r c Hr Hc. rewrite Hcell, Hcell' by done. f_equal.
  unfold cell_sum, shapes_of. f_equal.
  rewrite !(filter_fmap _ (falls_in cell_index r c)).
  rewrite list_filter_filter. do 2 f_equal. apply list_filter_iff.
  intros ra. split; [tauto|]. intros Hp. split; [done|].
  unfold L, located. unfold falls_in in Hp. cbn [fst snd] in Hp.
  destruct (B64.Facility.geometry ra.1) as [p|]; [|done].
  injection Hp as Hp. rewrite Hp. unfold in_grid. cbn. lia.
Qed.

End B64_gridding_facts.

Lemma ch4_flux_result_rasters_from_kt_example :
  has_shape unit_shape [[1; 1]; [1; 2]]%float
  ∧ match B64.ch4_kt_result_rasters unit_shape unit_cell_index
            allocated_two_years,
          B64.ch4_flux_result_rasters unit_shape unit_cell_index
            [[1; 1]; [1; 2]]%float allocated_two_years with
    | Ok kt_rasters, Ok flux_rasters =>
        Forall2 (λ k f : Z * B64.array2,
                   f.1 = k.1 ∧ has_shape unit_shape f.2
                   ∧ ∀ r c,
                       cell f.2 r c
                       = mass ← cell k.2 r c;
                         area ← cell [[1; 1]; [1; 2]]%float r c;
                         Some (PrimFloat.mul mass
                                 (PrimFloat.div
                                    (per_area
                                       (if isleap k.1 then 366 else 365)%float)
                                    area)))
          kt_rasters flux_rasters
    | Raise e, Raise e' => e = IndexError ∧ e' = IndexError
    | _, _ => False
    end.
Proof.
  assert (H : has_shape unit_shape [[1; 1]; [1; 2]]%float)
    by (split; [done|by repeat constructor]).
  split; [exact H|].
  exact (ch4_flux_result_rasters_from_kt unit_shape unit_cell_index _
           allocated_two_years H).
Defined.

Lemma ch4_kt_raster_of_located_example :
  Forall (λ ra, is_Some (B64.Facility.geometry ra.1))
    (B64.year_data allocated_two_years 2020)
  ∧ Exists (λ ra, located unit_shape unit_cell_index ra.1)
      (B64.year_data allocated_two_years 2020)
  ∧ ∃ raster,
      B64.ch4_kt_raster unit_shape unit_cell_index
        (B64.year_data allocated_two_years 2020) = Ok raster
      ∧ B64.ch4_kt_raster unit_shape unit_cell_index
          (filter (λ ra, located unit_shape unit_cell_index ra.1)
             (B64.year_data allocated_two_years 2020))
        = Ok raster.
Proof.
  assert (H1 : Forall (λ ra, is_Some (B64.Facility.geometry ra.1))
                 (B64.year_data allocated_two_years 2020))
    by (apply (bool_decide_unpack _); by vm_compute).
  assert (H2 : Exists (λ ra, located unit_shape unit_cell_index ra.1)
                 (B64.year_data allocated_two_years 2020))
    by (apply (bool_decide_unpack _); by vm_compute).
  split_and!; [done..|].
  exact (ch4_kt_raster_of_located unit_shape unit_cell_index _ H1 H2).
Defined.

(** ** The outputs of the gridding loop *)

Section outputs.

Variable ARR_SHAPE : nat * nat.
Variable cell_index : point → Z * Z.

Context {A : Type}.
Variable GEPA_PROFILE : gmap string (profile_value A).

Lemma ch4_kt_result_rasters_Ok (gdf : list (Facility.row * float64)) rasters :
  ch4_kt_result_rasters ARR_SHAPE cell_index gdf = Ok rasters →
  rasters.*1 = groupby_years gdf ∧ Forall (has_shape ARR_SHAPE) rasters.*2.
Proof.
  unfold ch4_kt_result_rasters. intros E. apply mapM_result_Ok in E.
  induction E as [|year item ys rs Hitem _ [IH1 IH2]]; [done|].
  destruct (ch4_kt_raster _ _ _) as [raster|] eqn:Er; [|done].
  injection Hitem as <-. cbn. rewrite IH1. split; [done|].
  constructor; [|done]. by eapply rasterize_has_shape.
Qed.

Lemma groupby_years_nil (gdf : list (Facility.row * float64)) :
  groupby_years gdf = [] ↔ gdf = [].
Proof.
  split; [|by intros ->].
  intros E. destruct gdf as [|ra gdf]; [done|]. exfalso.
  assert (H : Facility.year ra.1 ∈ groupby_years (ra :: gdf)).
  { unfold groupby_years. rewrite merge_sort_Permutation, elem_of_remove_dups.
    left. }
  rewrite E in H. by apply elem_of_nil in H.
Qed.

(** X17: the mass rasters of the loop can be written as a GeoTIFF whenever the
    facility table is not empty: every raster has the shape of the grid, so
    [np.stack] accepts them; the file has one band per year of the table,
    with pairwise distinct descriptions.  With an empty facility table the
    loop yields an empty dictionary and [write_tif_output] raises
    [ValueError]. *)
Theorem write_tif_output_of_result_rasters
    (gdf : list (Facility.row * float64)) (rasters : list (Z * array2)) :
  ch4_kt_result_rasters ARR_SHAPE cell_index gdf = Ok rasters →
  match write_tif_output GEPA_PROFILE rasters with
  | Ok tif =>
      gdf ≠ []
      ∧ length (bands tif)
        = length (remove_dups ((λ ra, Facility.year ra.1) <$> gdf))
      ∧ NoDup (descriptions tif)
  | Raise e => e = ValueError ∧ gdf = []
  end.
Proof.
  intros E. apply ch4_kt_result_rasters_Ok in E as [Hy Hs].
  unfold write_tif_output.
  destruct (decide (gdf = [])) as [->|Hne].
  - destruct rasters; [done|discriminate Hy].
  - assert (Hr : rasters.*2 ≠ []).
    { intros Hnil. apply fmap_nil_inv in Hnil as ->.
      symmetry in Hy. by apply groupby_years_nil in Hy. }
    rewrite (np_stack_Ok _ ARR_SHAPE) by done. cbn. split; [done|]. split.
    + rewrite length_fmap, <- (length_fmap fst), Hy. unfold groupby_years.
      by rewrite merge_sort_Permutation.
    + apply (NoDup_fmap_2 _). rewrite Hy. unfold groupby_years.
      rewrite merge_sort_Permutation. apply NoDup_remove_dups.
Qed.

End outputs.

Lemma write_tif_output_of_result_rasters_example :
  ch4_kt_result_rasters unit_shape unit_cell_index located_allocated
  = Ok [(2020%Z, [[kt 3; kt 0]; [kt 0; kt 7]])]
  ∧ match write_tif_output (A := ()) ∅ [(2020%Z, [[kt 3; kt 0]; [kt 0; kt 7]])] with
    | Ok tif =>
        located_allocated ≠ []
        ∧ length (bands tif)
          = length (remove_dups ((λ ra, Facility.year ra.1) <$> located_allocated))
        ∧ NoDup (descriptions tif)
    | Raise e => e = ValueError ∧ located_allocated = []
    end.
Proof.
  assert (H : ch4_kt_result_rasters unit_shape unit_cell_index located_allocated
              = Ok [(2020%Z, [[kt 3; kt 0]; [kt 0; kt 7]])])
    by (apply (bool_decide_unpack _); by vm_compute).
  split; [exact H|].
  exact (write_tif_output_of_result_rasters unit_shape unit_cell_index ∅
           located_allocated _ H).
Defined.

(** ** The table of sum checks *)

Lemma isclose_NaN_l t : isclose NaN t = false.
Proof. done. Qed.

Lemma isclose_NaN_r a : isclose a NaN = false.
Proof. by destruct a. Qed.

(** X19: [sum_check] is an outer merge: it has a row for every inventory row and
    for every facility group.  A row of the inventory whose state and year
    have a facility group carries the sum of the group's allocated values and
    is checked with [np.isclose]; a facility group without inventory row and
    an inventory row without facility group carry NaN on the missing side and
    always fail the check, whatever the total, a total of 0 included. *)
Theorem sum_check_outer_merge (gdf : list (Facility.row * float64))
    (EPA_ferro_emissions : list Inventory.row) (x : sum_check_row) :
  let keys := (λ ra, Facility.key ra.1) <$> gdf in
  let allocated k :=
    Series_sum (snd <$> filter (λ ra, Facility.key ra.1 = k) gdf) in
  x ∈ sum_check gdf EPA_ferro_emissions ↔
    ((∃ r, r ∈ EPA_ferro_emissions ∧ Inventory.key r ∈ keys
          ∧ x = mk_sum_check_row (Inventory.key r) (allocated (Inventory.key r))
                  (Inventory.ch4_kt r)
                  (isclose (allocated (Inventory.key r)) (Inventory.ch4_kt r)))
    ∨ (∃ k, k ∈ keys ∧ (k ∉ Inventory.key <$> EPA_ferro_emissions)
            ∧ x = mk_sum_check_row k (allocated k) NaN false)
    ∨ (∃ r, r ∈ EPA_ferro_emissions ∧ (Inventory.key r ∉ keys)
            ∧ x = mk_sum_check_row (Inventory.key r) NaN (Inventory.ch4_kt r) false)).
Proof.
  intros keys allocated. unfold sum_check. fold keys.
  rewrite elem_of_app, list_elem_of_bind. split.
  - intros [([k a] & Hx & Hka)|Hx].
    + apply list_elem_of_fmap in Hka as (k' & [= -> ->] & Hk).
      rewrite elem_of_remove_dups in Hk. fold (allocated k') in Hx.
      destruct (filter (λ r, Inventory.key r = k') EPA_ferro_emissions)
        as [|r0 rs] eqn:E.
      * apply list_elem_of_singleton in Hx as ->. right. left.
        exists k'. split; [done|]. split; [|by rewrite isclose_NaN_r].
        intros (r & Hr1 & Hr2)%list_elem_of_fmap.
        assert (Hin : r ∈ filter (λ r, Inventory.key r = k') EPA_ferro_emissions)
          by (by apply list_elem_of_filter).
        rewrite E in Hin. by apply elem_of_nil in Hin.
      * apply list_elem_of_fmap in Hx as (r & -> & Hr).
        rewrite <- E in Hr. apply list_elem_of_filter in Hr as [<- Hr].
        left. by exists r.
    + apply list_elem_of_fmap in Hx as (r & -> & Hr).
      apply list_elem_of_filter in Hr as [Hk Hr]. right. right.
      exists r. split; [done|]. split; [|done].
      by rewrite <- elem_of_remove_dups.
  - intros [(r & Hr & Hk & ->)|[(k & Hk & Hno & ->)|(r & Hr & Hk & ->)]].
    + left. exists (Inventory.key r, allocated (Inventory.key r)). split.
      * assert (Hin : r ∈ filter (λ r0, Inventory.key r0 = Inventory.key r)
                              EPA_ferro_emissions)
          by (by apply list_elem_of_filter).
        destruct (filter _ EPA_ferro_emissions) as [|r0 rs]; [by apply elem_of_nil in Hin|].
        apply list_elem_of_fmap. by exists r.
      * apply list_elem_of_fmap. exists (Inventory.key r). split; [done|].
        by apply elem_of_remove_dups.
    + left. exists (k, allocated k). split.
      * rewrite (filter_nil_Forall (λ r, Inventory.key r = k)).
        -- rewrite isclose_NaN_r. left.
        -- apply Forall_forall. intros r Hr Hkr. apply Hno.
           apply list_elem_of_fmap. by exists r.
      * apply list_elem_of_fmap. exists k. split; [done|].
        by apply elem_of_remove_dups.
    + right. apply list_elem_of_fmap. exists r. split; [done|].
      apply list_elem_of_filter. split; [|done].
      by rewrite elem_of_remove_dups.
Qed.

(** X20: [missing_sum] is the total of the inventory rows of the year that have no
    facility group at all, whenever every facility group of the year has a
    row in the inventory and passes its check: a state that has facilities,
    located or not, does not count as missing. *)
Theorem missing_sum_no_facility_group (gdf : list (Facility.row * float64))
    (EPA_ferro_emissions : list Inventory.row) (year : Z) :
  let keys := (λ ra, Facility.key ra.1) <$> gdf in
  let allocated k :=
    Series_sum (snd <$> filter (λ ra, Facility.key ra.1 = k) gdf) in
  (∀ k, k ∈ keys → k.2 = year → k ∈ Inventory.key <$> EPA_ferro_emissions) →
  (∀ r, r ∈ EPA_ferro_emissions → Inventory.year r = year →
        Inventory.key r ∈ keys →
        isclose (allocated (Inventory.key r)) (Inventory.ch4_kt r) = true) →
  missing_sum gdf EPA_ferro_emissions year
  = Series_sum (Inventory.ch4_kt
                  <$> filter (λ r, Inventory.year r = year
                                   ∧ Inventory.key r ∉ keys)
                        EPA_ferro_emissions).
Proof.
  intros keys allocated Hrows Hclose. unfold missing_sum, sum_check.
  fold keys. rewrite filter_app.
  rewrite (filter_nil_Forall _ (_ ≫= _)), app_nil_l.
  - rewrite filter_fmap, <- list_fmap_compose, list_filter_filter.
    f_equal. f_equal. apply list_filter_iff. intros r.
    unfold compose. cbn [check_diff sc_key]. rewrite isclose_NaN_l.
    rewrite elem_of_remove_dups. unfold Inventory.key. cbn. tauto.
  - apply Forall_forall. intros x ([k a] & Hx & Hka)%list_elem_of_bind.
    apply list_elem_of_fmap in Hka as (k' & [= -> ->] & Hk).
    rewrite elem_of_remove_dups in Hk. fold (allocated k') in Hx.
    intros [Hflag Hyear].
    destruct (filter (λ r, Inventory.key r = k') EPA_ferro_emissions)
      as [|r0 rs] eqn:E.
    + apply list_elem_of_singleton in Hx as ->. cbn in Hyear.
      apply (Hrows k' Hk) in Hyear.
      apply list_elem_of_fmap in Hyear as (r & Hr1 & Hr2).
      assert (Hin : r ∈ filter (λ r, Inventory.key r = k') EPA_ferro_emissions)
        by (by apply list_elem_of_filter).
      rewrite E in Hin. by apply elem_of_nil in Hin.
    + apply list_elem_of_fmap in Hx as (r & -> & Hr).
      rewrite <- E in Hr. apply list_elem_of_filter in Hr as [<- Hr].
      cbn in Hflag, Hyear. rewrite Hclose in Hflag; done.
Qed.

Lemma missing_sum_no_facility_group_example :
  missing_sum located_allocated two_states 2020
  = Series_sum (Inventory.ch4_kt
                  <$> filter (λ r, Inventory.year r = 2020%Z
                                   ∧ Inventory.key r
                                     ∉ (λ ra : Facility.row * float64,
                                          Facility.key ra.1) <$> located_allocated)
                        two_states)
  ∧ missing_sum located_allocated two_states 2020 = kt 5.
Proof.
  split; [|apply (bool_decide_unpack _); by vm_compute].
  apply (missing_sum_no_facility_group located_allocated two_states 2020).
  - intros k Hk _.
    repeat (apply elem_of_cons in Hk as [->|Hk]);
      [..|by apply elem_of_nil in Hk];
      apply (bool_decide_unpack _); by vm_compute.
  - intros r Hr _ Hk.
    repeat (apply elem_of_cons in Hr as [->|Hr]); [..|by apply elem_of_nil in Hr].
    + apply (bool_decide_unpack _). by vm_compute.
    + exfalso. revert Hk. apply (bool_decide_unpack _). by vm_compute.
Defined.

(** ** The inventory table *)

Lemma elem_of_melt {I} (columns : list Z) (df : list (I * list float64))
    (x : I * Z * float64) :
  x ∈ melt columns df
  ↔ ∃ j var r, columns !! j = Some var ∧ r ∈ df
               ∧ x = (r.1, var, default NaN (r.2 !! j)).
Proof.
  unfold melt. rewrite list_elem_of_bind. split.
  - intros ([j var] & Hx & Hj). apply list_elem_of_fmap in Hx as (r & -> & Hr).
    apply list_elem_of_lookup in Hj as [i Hi].
    rewrite list_lookup_imap in Hi.
    destruct (columns !! i) eqn:E; [|done]. injection Hi as <- <-.
    by exists i, z, r.
  - intros (j & var & r & Hj & Hr & ->). exists (j, var). split.
    + apply list_elem_of_fmap. by exists r.
    + apply list_elem_of_lookup. exists j. by rewrite list_lookup_imap, Hj.
Qed.

Lemma seq_value_lookup (r : InvDB.row) (n j : nat) :
  default NaN
    (((λ j, default NaN (to_numeric_coerce <$> InvDB.cells r !! j))
        <$> seq 0 n) !! j)
  = if decide (j < n)%nat then numeric_value r j else NaN.
Proof.
  rewrite list_lookup_fmap. destruct (decide (j < n)%nat) as [H|H].
  - by rewrite lookup_seq_lt.
  - by rewrite lookup_seq_ge by lia.
Qed.

Lemma Exists_seq_value (r : InvDB.row) (n : nat) :
  Exists (λ v, isnan v = false)
    ((λ j, default NaN (to_numeric_coerce <$> InvDB.cells r !! j)) <$> seq 0 n)
  ↔ has_value n r.
Proof.
  by rewrite Exists_fmap.
Qed.

Section inventory_facts.

Variable min_year max_year : Z.

Lemma EPA_ferro_emissions_elem (columns : list Z) (sheet : list InvDB.row)
    (x : Inventory.row) :
  x ∈ EPA_ferro_emissions min_year max_year columns sheet →
  ∃ r j year,
    r ∈ sheet ∧ InvDB.ghg r = "CH4" ∧ has_value (length columns) r
    ∧ columns !! j = Some year ∧ (min_year ≤ year ≤ max_year)%Z
    ∧ x = Inventory.mk (InvDB.state r) year
            (fillna (Fin 0) (fmul (numeric_value r j) (Fin tg_to_kt))).
Proof.
  unfold EPA_ferro_emissions. cbv zeta.
  rewrite list_elem_of_filter, list_elem_of_fmap.
  intros (Hb & [[s year] v] & -> & Hx). cbn [fst snd] in *.
  apply elem_of_melt in Hx as (j & var & r' & Hj & Hr' & [= -> -> ->]).
  apply list_elem_of_filter in Hr' as [Hval Hr'].
  apply list_elem_of_fmap in Hr' as (r & -> & Hr).
  apply list_elem_of_filter in Hr as [Hghg Hr]. cbn [fst snd] in *.
  apply Exists_seq_value in Hval.
  exists r, j, var. do 4 (split; [done|]). split; [exact Hb|].
  rewrite seq_value_lookup, decide_True; [done|].
  by apply lookup_lt_Some in Hj.
Qed.

(** X22: the rows of [EPA_ferro_emissions]: one for every CH4 row of the sheet
    that holds at least one number, and every year column between
    [min_year] and [max_year]; its value is 1000 times the cell, and 0 where
    the cell is empty or holds a text such as "NO". *)
Theorem EPA_ferro_emissions_rows (columns : list Z) (sheet : list InvDB.row)
    (x : Inventory.row) :
  x ∈ EPA_ferro_emissions min_year max_year columns sheet
  ↔ ∃ r j year,
      r ∈ sheet ∧ InvDB.ghg r = "CH4" ∧ has_value (length columns) r
      ∧ columns !! j = Some year ∧ (min_year ≤ year ≤ max_year)%Z
      ∧ x = Inventory.mk (InvDB.state r) year
              (fillna (Fin 0) (fmul (numeric_value r j) (Fin tg_to_kt))).
Proof.
  split; [apply EPA_ferro_emissions_elem|].
  unfold EPA_ferro_emissions. cbv zeta.
  rewrite list_elem_of_filter, list_elem_of_fmap.
  intros (r & j & year & Hr & Hghg & Hval & Hj & Hy & ->). split; [done|].
  exists (InvDB.state r, year, numeric_value r j). split; [done|].
  apply elem_of_melt.
  exists j, year, (InvDB.state r,
                   (λ j, default NaN (to_numeric_coerce <$> InvDB.cells r !! j))
                     <$> seq 0 (length columns)).
  split; [done|]. split.
  - apply list_elem_of_filter. split; [by apply Exists_seq_value|].
    apply list_elem_of_fmap. exists r. split; [done|].
    by apply list_elem_of_filter.
  - cbn [fst snd]. rewrite seq_value_lookup, decide_True; [done|].
    by apply lookup_lt_Some in Hj.
Qed.

Lemma melt_keys {I} (columns : list Z) (df : list (I * list float64)) :
  (λ x : I * Z * float64, x.1) <$> melt columns df
  = var ← columns; (λ r : I * list float64, (r.1, var)) <$> df.
Proof.
  unfold melt.
  assert (H : ∀ g : nat → nat,
    (λ x : I * Z * float64, x.1)
      <$> (imap (λ j var, (g j, var)) columns
             ≫= λ '(j, var),
                  (λ r : I * list float64, (r.1, var, default NaN (r.2 !! j)))
                    <$> df)
    = var ← columns; (λ r : I * list float64, (r.1, var)) <$> df).
  { induction columns as [|var columns IH]; intros g; [done|].
    rewrite imap_cons. cbn [mbind list_bind]. rewrite fmap_app.
    rewrite <- (IH (g ∘ S)). f_equal.
    rewrite <- list_fmap_compose. done. }
  apply (H id).
Qed.

Lemma NoDup_melt_keys {I} (columns : list Z) (df : list (I * list float64)) :
  NoDup columns → NoDup (fst <$> df) →
  NoDup ((λ x : I * Z * float64, x.1) <$> melt columns df).
Proof.
  intros Hc Hdf. rewrite melt_keys. apply NoDup_bind; [| |done].
  - intros v1 v2 y _ _ (r1 & -> & _)%list_elem_of_fmap
      (r2 & [= _ ->] & _)%list_elem_of_fmap. done.
  - intros var _.
    replace ((λ r : I * list float64, (r.1, var)) <$> df)
      with ((λ s : I, (s, var)) <$> (fst <$> df))
      by (by rewrite <- list_fmap_compose).
    apply (NoDup_fmap_2 _). done.
Qed.

(** X23: [EPA_ferro_emissions] has at most one row per state and year when the
    sheet has one CH4 row with numbers per state and its year columns are
    distinct, and its values are never NaN: the table meets what the
    allocation and its checks assume of the inventory. *)
Theorem EPA_ferro_emissions_keys (columns : list Z) (sheet : list InvDB.row) :
  NoDup columns →
  NoDup (InvDB.state
           <$> filter (λ r, InvDB.ghg r = "CH4" ∧ has_value (length columns) r)
                 sheet) →
  NoDup (Inventory.key <$> EPA_ferro_emissions min_year max_year columns sheet)
  ∧ Forall (λ r, isnan (Inventory.ch4_kt r) = false)
      (EPA_ferro_emissions min_year max_year columns sheet).
Proof.
  intros Hc Hs. split.
  - unfold EPA_ferro_emissions. cbv zeta. apply NoDup_fmap_filter.
    rewrite <- list_fmap_compose.
    erewrite (list_fmap_ext _ (λ x : string * Z * float64, x.1));
      [|by intros i [[??]?] _].
    apply NoDup_melt_keys; [done|].
    rewrite (filter_fmap _ (λ r : string * list float64,
                              Exists (λ v, isnan v = false) r.2)).
    rewrite <- list_fmap_compose, list_filter_filter.
    erewrite (list_filter_iff _ _); [exact Hs|].
    intros r. cbn [fst snd]. rewrite Exists_seq_value. tauto.
  - apply Forall_forall. intros x Hx.
    apply EPA_ferro_emissions_elem in Hx as (r & j & year & _ & _ & _ & _ & _ & ->).
    cbn. unfold fillna. by destruct (fmul _ _).
Qed.

End inventory_facts.

Lemma EPA_ferro_emissions_keys_example :
  EPA_ferro_emissions 1990 2021 [1989; 1990; 1991]%Z sheet_example
  = [Inventory.mk "OH" 1990 (kt 0); Inventory.mk "OH" 1991 (kt 2)]
  ∧ NoDup (Inventory.key
             <$> EPA_ferro_emissions 1990 2021 [1989; 1990; 1991]%Z sheet_example)
  ∧ Forall (λ r, isnan (Inventory.ch4_kt r) = false)
      (EPA_ferro_emissions 1990 2021 [1989; 1990; 1991]%Z sheet_example).
Proof.
  split; [apply (bool_decide_unpack _); by vm_compute|].
  apply (EPA_ferro_emissions_keys 1990 2021 [1989; 1990; 1991]%Z sheet_example).
  - apply (bool_decide_unpack _). by vm_compute.
  - apply (bool_decide_unpack _). by vm_compute.
Defined.

(** ** Duplicates *)

Lemma elem_of_drop_duplicates_cons {A K} `{EqDecision K} (subset : A → K)
    (r : A) (df : list A) (x : A) :
  x ∈ drop_duplicates subset (r :: df)
  ↔ x = r ∨ (x ∈ drop_duplicates subset df ∧ subset x ≠ subset r).
Proof.
  cbn [drop_duplicates]. rewrite elem_of_cons, list_elem_of_filter. tauto.
Qed.

Lemma drop_duplicates_subseteq {A K} `{EqDecision K} (subset : A → K)
    (df : list A) (x : A) :
  x ∈ drop_duplicates subset df → x ∈ df.
Proof.
  induction df as [|r df IH]; [done|].
  rewrite elem_of_drop_duplicates_cons, elem_of_cons. tauto.
Qed.

Lemma NoDup_drop_duplicates {A K} `{EqDecision K} (subset : A → K)
    (df : list A) :
  NoDup (subset <$> drop_duplicates subset df).
Proof.
  induction df as [|r df IH]; [constructor|].
  cbn [drop_duplicates]. rewrite fmap_cons. apply NoDup_cons. split.
  - intros (x & Hx & [Hne _]%list_elem_of_filter)%list_elem_of_fmap. done.
  - by apply NoDup_fmap_filter.
Qed.

Lemma drop_duplicates_keys {A K} `{EqDecision K} (subset : A → K)
    (df : list A) (k : K) :
  k ∈ subset <$> drop_duplicates subset df ↔ k ∈ subset <$> df.
Proof.
  induction df as [|r df IH]; [done|].
  cbn [drop_duplicates]. rewrite !fmap_cons, !elem_of_cons, <- IH.
  rewrite !list_elem_of_fmap. split.
  - intros [->|(x & -> & [_ Hx]%list_elem_of_filter)]; [by left|].
    right. by exists x.
  - intros [->|(x & -> & Hx)]; [by left|].
    destruct (decide (subset x = subset r)) as [E|E]; [by left|].
    right. exists x. split; [done|]. by apply list_elem_of_filter.
Qed.

(** The row that [drop_duplicates] keeps for a key is the first row of the
    table with that key. *)
Lemma drop_duplicates_first {A K} `{EqDecision K} (subset : A → K)
    (df : list A) (x : A) :
  x ∈ drop_duplicates subset df
  ↔ ∃ i, df !! i = Some x
         ∧ ∀ j r, (j < i)%nat → df !! j = Some r → subset r ≠ subset x.
Proof.
  induction df as [|r df IH].
  - split; [by intros ?%elem_of_nil|]. by intros (i & ? & _).
  - rewrite elem_of_drop_duplicates_cons, IH. split.
    + intros [->|[(i & Hi & Hfirst) Hne]].
      * exists 0%nat. split; [done|]. intros j r' Hj. lia.
      * exists (S i). split; [done|]. intros [|j] r' Hj Hr'.
        -- injection Hr' as <-. done.
        -- apply (Hfirst j); [lia|done].
    + intros ([|i] & Hi & Hfirst).
      * left. by injection Hi.
      * right. split.
        -- exists i. split; [done|]. intros j r' Hj Hr'.
           apply (Hfirst (S j)); [lia|done].
        -- intros E. by apply (Hfirst 0%nat r); [lia|done|].
Qed.

(** ** Facility locations *)

(** X24: the duplicates of the FRS table are dropped before the rows without
    coordinates: a facility is in [frs_df] exactly when the first of its
    records has both coordinates.  A facility whose first record lacks a
    coordinate is lost, even if a later record of the same name and state has
    both.  No two rows of [frs_df] have the same name and state. *)
Theorem frs_df_first_record (frs_raw : list Location.row) (x : Location.row) :
  (x ∈ frs_df frs_raw
   ↔ ∃ i, frs_raw !! i = Some x
          ∧ (∀ j r, (j < i)%nat → frs_raw !! j = Some r
                    → Location.key r ≠ Location.key x)
          ∧ isnan (Location.latitude x) = false
          ∧ isnan (Location.longitude x) = false)
  ∧ NoDup (Location.key <$> frs_df frs_raw).
Proof.
  unfold frs_df, dropna_coordinates. split.
  - rewrite list_elem_of_filter, drop_duplicates_first. split.
    + intros [[H1 H2] (i & Hi & Hfirst)]. by exists i.
    + intros (i & Hi & Hfirst & H1 & H2). split; [done|]. by exists i.
  - apply NoDup_fmap_filter, NoDup_drop_duplicates.
Qed.

Lemma zip_name_formatter {A} (name : A → string) (df : list A) :
  zip df (name_formatter (name <$> df))
  = (λ r, (r, formatted (name r))) <$> df.
Proof.
  rewrite name_formatter_formatted, <- list_fmap_compose.
  apply (zip_fmap_self (formatted ∘ name)).
Qed.

Lemma dropna_coordinates_elem (df : list Location.row) (r : Location.row) :
  r ∈ dropna_coordinates df →
  isnan (Location.latitude r) = false ∧ isnan (Location.longitude r) = false.
Proof. intros Hr. by apply list_elem_of_filter in Hr as [? _]. Qed.

Lemma facility_locations_elem (subpart_k_df frs_df : list Location.row)
    (rn : Location.row * string) :
  rn ∈ facility_locations subpart_k_df frs_df →
  rn.1 ∈ subpart_k_df ++ frs_df ∧ rn.2 = formatted (Location.facility_name rn.1).
Proof.
  unfold facility_locations. cbv zeta. rewrite zip_name_formatter.
  intros Hrn%drop_duplicates_subseteq.
  apply list_elem_of_fmap in Hrn as (r & -> & Hr). done.
Qed.

(** X25: [facility_locations] has one row per formatted name and state, every row
    with both coordinates; where subpart K and the FRS both know a facility,
    the subpart K record is the one kept, the FRS being used only for the
    facilities that subpart K does not have. *)
Theorem facility_locations_subpart_k_first
    (subpart_k_raw frs_raw : list Location.row) :
  let locations :=
    facility_locations (subpart_k_df subpart_k_raw) (frs_df frs_raw) in
  NoDup ((λ rn : Location.row * string, (rn.2, Location.state_code rn.1))
           <$> locations)
  ∧ Forall (λ rn : Location.row * string,
              rn.2 = formatted (Location.facility_name rn.1)
              ∧ isnan (Location.latitude rn.1) = false
              ∧ isnan (Location.longitude rn.1) = false
              ∧ (rn.1 ∈ subpart_k_df subpart_k_raw
                 ∨ (rn.1 ∈ frs_df frs_raw
                    ∧ ∀ r, r ∈ subpart_k_df subpart_k_raw →
                           (formatted (Location.facility_name r),
                            Location.state_code r)
                           ≠ (rn.2, Location.state_code rn.1))))
      locations.
Proof.
  intros locations. split; [apply NoDup_drop_duplicates|].
  apply Forall_forall. intros [r n] Hrn. unfold locations, facility_locations in Hrn.
  cbv zeta in Hrn. rewrite zip_name_formatter in Hrn.
  apply drop_duplicates_first in Hrn as (i & Hi & Hfirst).
  rewrite list_lookup_fmap in Hi.
  destruct ((subpart_k_df subpart_k_raw ++ frs_df frs_raw) !! i) as [r'|] eqn:E;
    [|done].
  injection Hi as -> <-. cbn [fst snd].
  assert (Hcoord : ∀ raw r0, r0 ∈ dropna_coordinates raw →
            isnan (Location.latitude r0) = false
            ∧ isnan (Location.longitude r0) = false).
  { intros raw r0 Hr0. by apply list_elem_of_filter in Hr0 as [? _]. }
  apply lookup_app_Some in E as [E|[Hlen E]].
  - apply list_elem_of_lookup_2 in E.
    destruct (Hcoord _ _ E) as [H1 H2]. split_and!; [done..|by left].
  - apply list_elem_of_lookup_2 in E as Hr.
    destruct (Hcoord _ _ Hr) as [H1 H2]. split_and!; [done..|].
    right. split; [done|]. intros r0 Hr0.
    apply list_elem_of_lookup in Hr0 as [j Hj].
    apply (Hfirst j (r0, formatted (Location.facility_name r0))).
    + apply lookup_lt_Some in Hj. lia.
    + rewrite list_lookup_fmap, lookup_app_l by (by eapply lookup_lt_Some).
      by rewrite Hj.
Qed.

(** ** Matching the facilities with their locations *)

Lemma filter_key_NoDup {A K} `{EqDecision K} (key : A → K) (l : list A) (k : K) :
  NoDup (key <$> l) →
  (filter (λ x, key x = k) l = [] ∧ k ∉ key <$> l)
  ∨ ∃ x, filter (λ x, key x = k) l = [x] ∧ x ∈ l ∧ key x = k.
Proof.
  induction l as [|y l IH]; intros Hnd.
  - left. split; [done|]. by intros ?%elem_of_nil.
  - rewrite fmap_cons in Hnd. apply NoDup_cons in Hnd as [Hy Hnd].
    destruct (decide (key y = k)) as [E|E].
    + right. exists y. rewrite filter_cons_True by done. split_and!; [|left|done].
      f_equal. apply filter_nil_Forall, Forall_forall. intros x Hx Hk.
      apply Hy. rewrite E, <- Hk. apply list_elem_of_fmap. by exists x.
    + rewrite filter_cons_False by done.
      destruct (IH Hnd) as [[H1 H2]|(x & H1 & H2 & H3)].
      * left. split; [done|]. rewrite fmap_cons.
        intros [?|?]%elem_of_cons; done.
      * right. exists x. split_and!; [done|by right|done].
Qed.

(** X26: the left merge gives exactly one row per unique facility, in the order of
    [unique_facilities]: the locations have one row per formatted name and
    state, so no facility is duplicated.  A facility without a location of
    the same formatted name and state keeps its row, with no name and no
    coordinates; a matched facility has both coordinates. *)
Theorem matching_facilities_one_row_each
    (ferro_facilities_df : list FacilityDf.row)
    (subpart_k_raw frs_raw : list Location.row) :
  let locations :=
    facility_locations (subpart_k_df subpart_k_raw) (frs_df frs_raw) in
  let matching :=
    matching_facilities (unique_facilities ferro_facilities_df) locations in
  Matching.key <$> matching = unique_facilities ferro_facilities_df
  ∧ NoDup (Matching.key <$> matching)
  ∧ Forall (λ m,
              if decide (Matching.key m
                         ∈ (λ rn : Location.row * string,
                              (rn.2, Location.state_code rn.1)) <$> locations)
              then is_Some (Matching.facility_name m)
                   ∧ isnan (Matching.latitude m) = false
                   ∧ isnan (Matching.longitude m) = false
              else Matching.facility_name m = None
                   ∧ Matching.latitude m = NaN
                   ∧ Matching.longitude m = NaN) matching.
Proof.
  intros locations matching.
  assert (Hnd : NoDup ((λ rn : Location.row * string,
                          (rn.2, Location.state_code rn.1)) <$> locations))
    by apply NoDup_drop_duplicates.
  assert (Hloc : ∀ rn, rn ∈ locations →
                   isnan (Location.latitude rn.1) = false
                   ∧ isnan (Location.longitude rn.1) = false).
  { intros rn [Hrn _]%facility_locations_elem.
    apply elem_of_app in Hrn as [Hrn|Hrn]; by eapply dropna_coordinates_elem. }
  assert (Hrows : ∀ unique,
    Forall2 (λ k m,
               Matching.key m = k
               ∧ if decide (k ∈ (λ rn : Location.row * string,
                                   (rn.2, Location.state_code rn.1)) <$> locations)
                 then is_Some (Matching.facility_name m)
                      ∧ isnan (Matching.latitude m) = false
                      ∧ isnan (Matching.longitude m) = false
                 else Matching.facility_name m = None
                      ∧ Matching.latitude m = NaN
                      ∧ Matching.longitude m = NaN)
      unique (matching_facilities unique locations)).
  { intros unique. induction unique as [|k unique IH]; [constructor|].
    unfold matching_facilities. cbn [mbind list_bind].
    destruct (filter_key_NoDup
                (λ rn : Location.row * string, (rn.2, Location.state_code rn.1))
                locations k Hnd) as [[-> Hk]|(rn & -> & Hrn & Hk)].
    - cbn [app]. constructor; [|exact IH]. split; [by destruct k|].
      by rewrite decide_False.
    - cbn [fmap list_fmap app]. constructor; [|exact IH].
      split; [by destruct k|]. rewrite decide_True.
      + destruct (Hloc rn Hrn) as [H1 H2]. split; [by eexists|done].
      + rewrite <- Hk. apply list_elem_of_fmap. by exists rn. }
  assert (Hkeys : Matching.key <$> matching = unique_facilities ferro_facilities_df).
  { specialize (Hrows (unique_facilities ferro_facilities_df)).
    fold matching in Hrows.
    induction Hrows as [|k m ks ms [Hk _] _ IH]; [done|].
    rewrite fmap_cons. by f_equal. }
  split_and!.
  - done.
  - rewrite Hkeys. unfold unique_facilities.
    rewrite <- (list_fmap_id (drop_duplicates id _)).
    apply (NoDup_drop_duplicates id).
  - specialize (Hrows (unique_facilities ferro_facilities_df)).
    fold matching in Hrows. clear Hkeys.
    induction Hrows as [|k m ks ms [Hk Hm] _ IH]; [constructor|].
    constructor; [|done]. by rewrite Hk.
Qed.

(** ** The facility table with its points *)

(** X27: the merge of the facility table with the matched locations neither drops
    nor repeats a row, whatever coordinates the matching table holds, as long
    as its key columns are those of [unique_facilities], which the
    assignments of coordinates to single facilities do not touch: the table
    keeps its rows and their order, so the warning of line 408 is not
    printed.  The point of a row is the point of its facility's row in the
    matching table, empty where a coordinate is missing. *)
Theorem ferro_facilities_gdf_rows (ferro_facilities_df : list FacilityDf.row)
    (matching : list Matching.row) :
  Matching.key <$> matching = unique_facilities ferro_facilities_df →
  fst <$> ferro_facilities_gdf ferro_facilities_df matching
  = ferro_facilities_df
  ∧ Forall (λ rg : FacilityDf.row * option point,
              ∃ m, m ∈ matching ∧ Matching.key m = FacilityDf.key rg.1
                   ∧ rg.2 = points_from_xy (Matching.longitude m)
                              (Matching.latitude m))
      (ferro_facilities_gdf ferro_facilities_df matching).
Proof.
  intros Hkeys.
  assert (Hnd : NoDup (Matching.key <$> matching)).
  { rewrite Hkeys. unfold unique_facilities.
    rewrite <- (list_fmap_id (drop_duplicates id _)).
    apply (NoDup_drop_duplicates id). }
  assert (Hin : ∀ r, r ∈ ferro_facilities_df →
                     FacilityDf.key r ∈ Matching.key <$> matching).
  { intros r Hr. rewrite Hkeys. unfold unique_facilities.
    rewrite <- (list_fmap_id (drop_duplicates id _)).
    apply (drop_duplicates_keys id). rewrite list_fmap_id.
    apply list_elem_of_fmap. by exists r. }
  clear Hkeys. revert Hin. generalize ferro_facilities_df. clear ferro_facilities_df.
  intros df Hin. unfold ferro_facilities_gdf.
  induction df as [|r df IH]; [by split|].
  cbn [mbind list_bind].
  destruct (filter_key_NoDup Matching.key matching (FacilityDf.key r) Hnd)
    as [[_ Hk]|(m & -> & Hm & Hk)].
  { exfalso. apply Hk, Hin. left. }
  cbn [fmap list_fmap app].
  destruct IH as [IH1 IH2].
  { intros r' Hr'. apply Hin. by right. }
  split.
  - cbn [fst]. f_equal. exact IH1.
  - constructor; [by exists m|done].
Qed.

Section facilities_facts.

Variable min_year max_year : Z.

(** X28: the rows of [ferro_facilities_df]: one for every facility of the sheet
    whose state is a state of the layer with a FIPS code below 60 other than
    2 and 15, and every year column between [min_year] and [max_year], with
    the formatted name of the facility and the code of the state.  A facility
    whose state name is not the name of such a state (Alaska, Hawaii, a
    territory, a name spelt differently) is dropped by the inner merge. *)
Theorem ferro_facilities_df_rows (columns : list Z)
    (sheet : list Calculations.row) (tl_2020_us_state : list State.row)
    (x : FacilityDf.row) :
  x ∈ ferro_facilities_df min_year max_year columns sheet
        (state_gdf tl_2020_us_state)
  ↔ ∃ r j year s,
      r ∈ sheet ∧ columns !! j = Some year ∧ (min_year ≤ year ≤ max_year)%Z
      ∧ s ∈ tl_2020_us_state ∧ State.state_name s = Calculations.state r
      ∧ (State.statefp s < 60)%Z ∧ State.statefp s ≠ 2%Z
      ∧ State.statefp s ≠ 15%Z
      ∧ x = FacilityDf.mk (Calculations.facility r) (Calculations.state r) year
              (default NaN (Calculations.values r !! j))
              (formatted (Calculations.facility r)) (State.state_code s).
Proof.
  unfold ferro_facilities_df. cbv zeta.
  rewrite (zip_name_formatter (λ r : string * string * Z * float64, r.1.1.1)).
  rewrite list_elem_of_filter, list_elem_of_bind. split.
  - intros (Hb & [long n] & Hx & Hln).
    apply list_elem_of_fmap in Hln as (long' & [= <- ->] & Hlong).
    apply list_elem_of_fmap in Hx as (s & -> & Hs).
    apply list_elem_of_filter in Hs as [Hname Hs].
    apply list_elem_of_filter in Hs as [(Hfp1 & Hfp2 & Hfp3) Hs].
    apply elem_of_melt in Hlong as (j & year & r' & Hj & Hr' & ->).
    apply list_elem_of_fmap in Hr' as (r & -> & Hr).
    cbn [fst snd] in *. exists r, j, year, s. split_and!; try done; apply Hb.
  - intros (r & j & year & s & Hr & Hj & Hy & Hs & Hname & Hfp1 & Hfp2 & Hfp3 & ->).
    split; [done|].
    exists ((Calculations.facility r, Calculations.state r, year,
             default NaN (Calculations.values r !! j)),
            formatted (Calculations.facility r)).
    split.
    + apply list_elem_of_fmap. exists s. split; [done|].
      apply list_elem_of_filter. split; [done|].
      by apply list_elem_of_filter.
    + apply list_elem_of_fmap.
      exists (Calculations.facility r, Calculations.state r, year,
              default NaN (Calculations.values r !! j)).
      split; [done|]. apply elem_of_melt.
      exists j, year, ((Calculations.facility r, Calculations.state r),
                       Calculations.values r).
      split; [done|]. split; [|done].
      apply list_elem_of_fmap. by exists r.
Qed.

End facilities_facts.

Lemma ferro_facilities_gdf_rows_example :
  Matching.key <$> matching_example = unique_facilities facilities_df_example
  ∧ fst <$> ferro_facilities_gdf facilities_df_example matching_example
    = facilities_df_example
  ∧ facility_row <$> ferro_facilities_gdf facilities_df_example matching_example
    = [Facility.mk "OH" 2012 (kt 3) (Some (Qc_of_Z 0, Qc_of_Z 1));
       Facility.mk "OH" 2012 (kt 7) None;
       Facility.mk "OH" 2013 (kt 4) (Some (Qc_of_Z 0, Qc_of_Z 1));
       Facility.mk "OH" 2013 (kt 6) None].
Proof.
  assert (H : Matching.key <$> matching_example
              = unique_facilities facilities_df_example)
    by (apply (bool_decide_unpack _); by vm_compute).
  split; [exact H|]. split.
  - exact (proj1 (ferro_facilities_gdf_rows _ _ H)).
  - apply (bool_decide_unpack _). by vm_compute.
Defined.
